(** * StudyGPT: response reconciliation, session store and voice dispatch

    A shallow embedding of the parts of the application that decide its
    testable properties:

    - [App.processResponse] and the state updaters of [App] (the chat
      turn: placeholder, stream fragments, extraction of a fenced JSON
      block, final reconciliation; session deletion and update);
    - [geminiService.getChatResponse] (accumulation of the stream and
      de-duplication of citation sources through a JavaScript [Map]);
    - [sessionService.saveSessions], [loadSessions] and [migrateData]
      over a key-value store, with [JSON.stringify] and [JSON.parse];
    - [useVoiceCommands.processTranscript];
    - the settings of [sessionService], the request and the suggestions
      of [geminiService], [App.handleSendMessage] and the other
      handlers of a session, and the navigation and the list of the
      views.

    Conventions of the embedding.

    - A JavaScript string is the list of its UTF-16 code units ([N]).
    - A JavaScript value read from JSON is a [JSON.value]; [undefined]
      is [None] in an [option].
    - A function that can throw returns a [result].
    - [Date.now()] is an argument of the function that calls it. *)

From Stdlib Require Import ZArith NArith List Bool Lia.
From Stdlib Require Import Permutation Sorted.
From Stdlib Require DecimalN DecimalPos DecimalFacts.
From Stdlib Require String Ascii.
Import ListNotations.
Import String.StringSyntax.
Delimit Scope string_scope with string.

Local Open Scope list_scope.

(** ** Exceptions *)

Inductive Exception : Type :=
| TypeError
| SyntaxError.

Inductive result (A : Type) : Type :=
| Ok (a : A)
| Throw (e : Exception).

Arguments Ok {A} a.
Arguments Throw {A} e.

Definition bind {A B : Type} (r : result A) (k : A -> result B) : result B :=
  match r with
  | Ok a => k a
  | Throw e => Throw e
  end.

(** ** JavaScript strings *)

Module JsString.

Definition t : Type := list N.

(** The code units of a literal of the source written in ASCII. *)
Definition lit (s : String.string) : t :=
  List.map Ascii.N_of_ascii (String.list_ascii_of_string s).

Arguments lit s%_string.

Fixpoint eqb (a b : t) : bool :=
  match a, b with
  | [], [] => true
  | x :: a', y :: b' => N.eqb x y && eqb a' b'
  | _, _ => false
  end.

(** [WhiteSpace] and [LineTerminator] of ECMAScript: the code units that
    [String.prototype.trim] strips and that [\s] matches. *)
Definition isWhiteSpace (c : N) : bool :=
  ((9 <=? c) && (c <=? 13) || (c =? 32) || (c =? 160) || (c =? 5760)
   || (8192 <=? c) && (c <=? 8202) || (c =? 8232) || (c =? 8233)
   || (c =? 8239) || (c =? 8287) || (c =? 12288) || (c =? 65279))%N.

Fixpoint trimStart (s : t) : t :=
  match s with
  | c :: s' => if isWhiteSpace c then trimStart s' else s
  | [] => []
  end.

Definition trimEnd (s : t) : t := rev (trimStart (rev s)).

Definition trim (s : t) : t := trimEnd (trimStart s).

(** [stripPrefix p s] is the rest of [s] after the prefix [p]. *)
Fixpoint stripPrefix (p s : t) : option t :=
  match p, s with
  | [], _ => Some s
  | x :: p', y :: s' => if N.eqb x y then stripPrefix p' s' else None
  | _ :: _, [] => None
  end.

Definition startsWith (s p : t) : bool :=
  match stripPrefix p s with Some _ => true | None => false end.

(** [s.substring(n)] for [0 <= n]. *)
Definition substring (s : t) (n : nat) : t := skipn n s.

(** [s.replace(pattern, replacement)] with a string pattern: the first
    occurrence of [pattern] is replaced. The replacement is taken
    literally (the source passes the empty string). *)
Fixpoint replace (s pattern replacement : t) : t :=
  match stripPrefix pattern s with
  | Some rest => replacement ++ rest
  | None =>
      match s with
      | c :: s' => c :: replace s' pattern replacement
      | [] => []
      end
  end.

Fixpoint includes (s p : t) : bool :=
  match stripPrefix p s with
  | Some _ => true
  | None =>
      match s with
      | _ :: s' => includes s' p
      | [] => false
      end
  end.

(** [toLowerCase] on the Basic Latin and Latin-1 letters; the other code
    units, which the model does not case-map, are kept. *)
Definition lowerUnit (c : N) : N :=
  (if (65 <=? c) && (c <=? 90) then c + 32
   else if (192 <=? c) && (c <=? 222) && negb (c =? 215) then c + 32
   else c)%N.

Definition toLowerCase (s : t) : t := List.map lowerUnit s.

(** A string is truthy when it is not empty. *)
Definition truthy (s : t) : bool :=
  match s with [] => false | _ :: _ => true end.

(** [s.split(sep)] with a string separator. [splitFrom] reads [s] from
    the left: [skip] units of a separator just found are still to be
    passed over, [cur] holds the units of the current piece, last unit
    first. *)
Fixpoint splitFrom (sep s : t) (skip : nat) (cur : t) : list t :=
  match s with
  | [] => [rev cur]
  | c :: s' =>
      match skip with
      | S skip' => splitFrom sep s' skip' cur
      | O =>
          match stripPrefix sep s with
          | Some _ => rev cur :: splitFrom sep s' (length sep - 1) []
          | None => splitFrom sep s' 0 (c :: cur)
          end
      end
  end.

Definition split (s sep : t) : list t :=
  match sep with
  | [] => List.map (fun c => [c]) s
  | _ :: _ => splitFrom sep s 0 []
  end.

End JsString.

Definition jsstring : Type := JsString.t.
Definition lit (s : String.string) : jsstring := JsString.lit s.

Arguments lit s%_string.

(** ** Regular expressions

    The fragment of the pattern language the source uses: literals,
    greedy and lazy stars over a character class, one capture group,
    sequence. The matcher backtracks in the order ECMAScript does: a
    greedy star tries the longest repetition first, a lazy star the
    shortest. *)

Module RegExp.

Inductive regex : Type :=
| Lit (s : jsstring)
| StarGreedy (cls : N -> bool)
| StarLazy (cls : N -> bool)
| Group (r : regex)
| Seq (r1 r2 : regex).

Section Matcher.
Context {R : Type}.

Fixpoint starGreedy (cls : N -> bool) (s : jsstring)
    (k : jsstring -> option R) : option R :=
  match s with
  | c :: s' =>
      if cls c then
        match starGreedy cls s' k with
        | Some r => Some r
        | None => k s
        end
      else k s
  | [] => k s
  end.

Fixpoint starLazy (cls : N -> bool) (s : jsstring)
    (k : jsstring -> option R) : option R :=
  match k s with
  | Some r => Some r
  | None =>
      match s with
      | c :: s' => if cls c then starLazy cls s' k else None
      | [] => None
      end
  end.

(** What was consumed between the input [s] and its suffix [rest]. *)
Definition consumed (s rest : jsstring) : jsstring :=
  firstn (length s - length rest) s.

(** [run r s cap k]: match [r] at the start of [s], then continue with
    [k] on the rest and the capture. *)
Fixpoint run (r : regex) (s : jsstring) (cap : option jsstring)
    (k : jsstring -> option jsstring -> option R) : option R :=
  match r with
  | Lit l =>
      match JsString.stripPrefix l s with
      | Some rest => k rest cap
      | None => None
      end
  | StarGreedy cls => starGreedy cls s (fun rest => k rest cap)
  | StarLazy cls => starLazy cls s (fun rest => k rest cap)
  | Group r' => run r' s cap (fun rest _ => k rest (Some (consumed s rest)))
  | Seq r1 r2 => run r1 s cap (fun rest cap' => run r2 rest cap' k)
  end.

End Matcher.

(** The match array of a pattern with one group: element 0 (the whole
    match) and element 1 (the capture, [None] for [undefined]). *)
Definition MatchArray : Type := (jsstring * option jsstring)%type.

Definition matchAt (r : regex) (s : jsstring) : option MatchArray :=
  run r s None (fun rest cap => Some (consumed s rest, cap)).

(** [s.match(r)] without the [g] flag: the leftmost match, or [None]
    for [null]. *)
Fixpoint String_match (s : jsstring) (r : regex) : option MatchArray :=
  match matchAt r s with
  | Some m => Some m
  | None =>
      match s with
      | _ :: s' => String_match s' r
      | [] => None
      end
  end.

Definition any (_ : N) : bool := true.

End RegExp.

(** ** JSON values, [JSON.parse] and [JSON.stringify]

    A number is an integer, or a literal with a fraction or an exponent
    that is kept as the text wrote it: the model computes no floating
    point. An object is the list of its members in the order of the
    text; reading a property takes the last member of that name, as
    [JSON.parse] leaves it. *)

Module JSON.

#[warnings="-register-all"]
Inductive number : Type :=
| Int (z : Z)
| Decimal (lexeme : jsstring).

#[warnings="-register-all"]
Inductive value : Type :=
| JNull
| JBool (b : bool)
| JNumber (n : number)
| JString (s : jsstring)
| JArray (elements : list value)
| JObject (members : list (jsstring * value)).

(** *** Reading *)

Definition isJsonWhiteSpace (c : N) : bool :=
  ((c =? 9) || (c =? 10) || (c =? 13) || (c =? 32))%N.

Fixpoint skipWs (s : jsstring) : jsstring :=
  match s with
  | c :: s' => if isJsonWhiteSpace c then skipWs s' else s
  | [] => []
  end.

Definition expect (c : N) (s : jsstring) : option jsstring :=
  match s with
  | x :: s' => if N.eqb x c then Some s' else None
  | [] => None
  end.

Definition hexValue (c : N) : option N :=
  (if (48 <=? c) && (c <=? 57) then Some (c - 48)
   else if (97 <=? c) && (c <=? 102) then Some (c - 87)
   else if (65 <=? c) && (c <=? 70) then Some (c - 55)
   else None)%N.

(** The code unit of a single-character escape. *)
Definition escapeUnit (c : N) : option N :=
  (if c =? 34 then Some 34        (* quotation mark *)
   else if c =? 92 then Some 92   (* reverse solidus *)
   else if c =? 47 then Some 47   (* solidus *)
   else if c =? 98 then Some 8    (* b: backspace *)
   else if c =? 102 then Some 12  (* f: form feed *)
   else if c =? 110 then Some 10  (* n: line feed *)
   else if c =? 114 then Some 13  (* r: carriage return *)
   else if c =? 116 then Some 9   (* t: tab *)
   else None)%N.

Definition consUnit (c : N) (r : option (jsstring * jsstring))
  : option (jsstring * jsstring) :=
  match r with
  | Some (str, rest) => Some (c :: str, rest)
  | None => None
  end.

(** The characters of a string after its opening quote, up to and
    including the closing quote. *)
Fixpoint parseChars (s : jsstring) : option (jsstring * jsstring) :=
  match s with
  | [] => None
  | c :: s1 =>
      if (c =? 34)%N then Some ([], s1)
      else if (c =? 92)%N then
        match s1 with
        | e :: s2 =>
            if (e =? 117)%N then
              match s2 with
              | h1 :: h2 :: h3 :: h4 :: s3 =>
                  match hexValue h1, hexValue h2, hexValue h3, hexValue h4 with
                  | Some a, Some b, Some c', Some d =>
                      consUnit (((a * 16 + b) * 16 + c') * 16 + d)%N
                        (parseChars s3)
                  | _, _, _, _ => None
                  end
              | _ => None
              end
            else
              match escapeUnit e with
              | Some u => consUnit u (parseChars s2)
              | None => None
              end
        | [] => None
        end
      else if (c <? 32)%N then None
      else consUnit c (parseChars s1)
  end.

Definition digitOf (c : N) : option (Decimal.uint -> Decimal.uint) :=
  (if c =? 48 then Some Decimal.D0
   else if c =? 49 then Some Decimal.D1
   else if c =? 50 then Some Decimal.D2
   else if c =? 51 then Some Decimal.D3
   else if c =? 52 then Some Decimal.D4
   else if c =? 53 then Some Decimal.D5
   else if c =? 54 then Some Decimal.D6
   else if c =? 55 then Some Decimal.D7
   else if c =? 56 then Some Decimal.D8
   else if c =? 57 then Some Decimal.D9
   else None)%N.

(** The longest run of decimal digits at the start of [s]. *)
Fixpoint digits (s : jsstring) : Decimal.uint * jsstring :=
  match s with
  | c :: s' =>
      match digitOf c with
      | Some d => let (u, rest) := digits s' in (d u, rest)
      | None => (Decimal.Nil, s)
      end
  | [] => (Decimal.Nil, [])
  end.

(** The integer part of a number: [0], or a digit from 1 to 9 followed
    by digits. *)
Definition parseInt (s : jsstring) : option (Decimal.uint * jsstring) :=
  match s with
  | c :: s' =>
      if (c =? 48)%N then Some (Decimal.D0 Decimal.Nil, s')
      else
        match digitOf c with
        | Some d => let (u, rest) := digits s' in Some (d u, rest)
        | None => None
        end
  | [] => None
  end.

(** The fraction: nothing, or a point followed by at least one digit. *)
Definition parseFraction (s : jsstring) : option (bool * jsstring) :=
  match expect 46 s with
  | Some s' =>
      match digits s' with
      | (Decimal.Nil, _) => None
      | (_, rest) => Some (true, rest)
      end
  | None => Some (false, s)
  end.

(** The exponent: nothing, or [e] or [E], a sign or none, and at least
    one digit. *)
Definition parseExponent (s : jsstring) : option (bool * jsstring) :=
  match s with
  | c :: s1 =>
      if ((c =? 101) || (c =? 69))%N then
        let s2 :=
          match s1 with
          | g :: s' => if ((g =? 43) || (g =? 45))%N then s' else s1
          | [] => s1
          end in
        match digits s2 with
        | (Decimal.Nil, _) => None
        | (_, rest) => Some (true, rest)
        end
      else Some (false, s)
  | [] => Some (false, s)
  end.

Definition parseNumber (s : jsstring) : option (number * jsstring) :=
  let (negative, s1) :=
    match expect 45 s with
    | Some s' => (true, s')
    | None => (false, s)
    end in
  match parseInt s1 with
  | Some (u, s2) =>
      match parseFraction s2 with
      | Some (hasFraction, s3) =>
          match parseExponent s3 with
          | Some (hasExponent, s4) =>
              if hasFraction || hasExponent then
                Some (Decimal (RegExp.consumed s s4), s4)
              else
                let n := Z.of_N (N.of_uint u) in
                Some (Int (if negative then - n else n)%Z, s4)
          | None => None
          end
      | None => None
      end
  | None => None
  end.

Fixpoint parseValue (fuel : nat) (s : jsstring) {struct fuel}
  : option (value * jsstring) :=
  match fuel with
  | O => None
  | S fuel' =>
      match s with
      | [] => None
      | c :: s1 =>
          if (c =? 123)%N then
            match expect 125 (skipWs s1) with
            | Some s2 => Some (JObject [], s2)
            | None =>
                match parseMembers fuel' (skipWs s1) with
                | Some (ms, rest) => Some (JObject ms, rest)
                | None => None
                end
            end
          else if (c =? 91)%N then
            match expect 93 (skipWs s1) with
            | Some s2 => Some (JArray [], s2)
            | None =>
                match parseElements fuel' (skipWs s1) with
                | Some (vs, rest) => Some (JArray vs, rest)
                | None => None
                end
            end
          else if (c =? 34)%N then
            match parseChars s1 with
            | Some (str, rest) => Some (JString str, rest)
            | None => None
            end
          else if (c =? 116)%N then
            match JsString.stripPrefix (lit "rue") s1 with
            | Some rest => Some (JBool true, rest)
            | None => None
            end
          else if (c =? 102)%N then
            match JsString.stripPrefix (lit "alse") s1 with
            | Some rest => Some (JBool false, rest)
            | None => None
            end
          else if (c =? 110)%N then
            match JsString.stripPrefix (lit "ull") s1 with
            | Some rest => Some (JNull, rest)
            | None => None
            end
          else
            match parseNumber s with
            | Some (n, rest) => Some (JNumber n, rest)
            | None => None
            end
      end
  end
with parseElements (fuel : nat) (s : jsstring) {struct fuel}
  : option (list value * jsstring) :=
  match fuel with
  | O => None
  | S fuel' =>
      match parseValue fuel' s with
      | Some (v, r) =>
          match expect 44 (skipWs r) with
          | Some r1 =>
              match parseElements fuel' (skipWs r1) with
              | Some (vs, rest) => Some (v :: vs, rest)
              | None => None
              end
          | None =>
              match expect 93 (skipWs r) with
              | Some rest => Some ([v], rest)
              | None => None
              end
          end
      | None => None
      end
  end
with parseMembers (fuel : nat) (s : jsstring) {struct fuel}
  : option (list (jsstring * value) * jsstring) :=
  match fuel with
  | O => None
  | S fuel' =>
      match expect 34 s with
      | Some s1 =>
          match parseChars s1 with
          | Some (key, r) =>
              match expect 58 (skipWs r) with
              | Some r1 =>
                  match parseValue fuel' (skipWs r1) with
                  | Some (v, r2) =>
                      match expect 44 (skipWs r2) with
                      | Some r3 =>
                          match parseMembers fuel' (skipWs r3) with
                          | Some (ms, rest) => Some ((key, v) :: ms, rest)
                          | None => None
                          end
                      | None =>
                          match expect 125 (skipWs r2) with
                          | Some rest => Some ([(key, v)], rest)
                          | None => None
                          end
                      end
                  | None => None
                  end
              | None => None
              end
          | None => None
          end
      | None => None
      end
  end.

(** [JSON.parse text]: one value between optional white space; anything
    else throws a [SyntaxError]. Every step of the reader that spends
    fuel also reads a character, so the length of the text is enough. *)
Definition parse (text : jsstring) : result value :=
  match parseValue (S (List.length text)) (skipWs text) with
  | Some (v, rest) =>
      match skipWs rest with
      | [] => Ok v
      | _ :: _ => Throw SyntaxError
      end
  | None => Throw SyntaxError
  end.

(** *** Writing *)

Fixpoint uintUnits (u : Decimal.uint) : jsstring :=
  match u with
  | Decimal.Nil => []
  | Decimal.D0 u' => 48%N :: uintUnits u'
  | Decimal.D1 u' => 49%N :: uintUnits u'
  | Decimal.D2 u' => 50%N :: uintUnits u'
  | Decimal.D3 u' => 51%N :: uintUnits u'
  | Decimal.D4 u' => 52%N :: uintUnits u'
  | Decimal.D5 u' => 53%N :: uintUnits u'
  | Decimal.D6 u' => 54%N :: uintUnits u'
  | Decimal.D7 u' => 55%N :: uintUnits u'
  | Decimal.D8 u' => 56%N :: uintUnits u'
  | Decimal.D9 u' => 57%N :: uintUnits u'
  end.

(** [Number::toString] of an integer (below 10^21 JavaScript writes
    all digits, as here). A literal with a fraction or an exponent is
    written as the text had it. *)
Definition integerToString (z : Z) : jsstring :=
  (if (z <? 0)%Z then [45%N] else []) ++ uintUnits (N.to_uint (Z.abs_N z)).

Definition numberToString (n : number) : jsstring :=
  match n with
  | Int z => integerToString z
  | Decimal lexeme => lexeme
  end.

Definition hexDigit (n : N) : N :=
  (if n <? 10 then 48 + n else 87 + n)%N.

(** [\uXXXX] with lower-case digits. *)
Definition unicodeEscape (c : N) : jsstring :=
  [92; 117; hexDigit (c / 4096); hexDigit ((c / 256) mod 16);
   hexDigit ((c / 16) mod 16); hexDigit (c mod 16)]%N.

Definition isHighSurrogate (c : N) : bool := ((55296 <=? c) && (c <=? 56319))%N.
Definition isLowSurrogate (c : N) : bool := ((56320 <=? c) && (c <=? 57343))%N.

(** One code unit that is not part of a surrogate pair. *)
Definition quoteUnit (c : N) : jsstring :=
  (if c =? 8 then [92; 98]
   else if c =? 9 then [92; 116]
   else if c =? 10 then [92; 110]
   else if c =? 12 then [92; 102]
   else if c =? 13 then [92; 114]
   else if c =? 34 then [92; 34]
   else if c =? 92 then [92; 92]
   else if (c <? 32) || isHighSurrogate c || isLowSurrogate c
        then unicodeEscape c
   else [c])%N.

(** [QuoteJSONString] without the enclosing quotes: a surrogate pair is
    written as it is, a lone surrogate is escaped. *)
Fixpoint quoteUnits (s : jsstring) : jsstring :=
  match s with
  | [] => []
  | c :: s' =>
      match s' with
      | d :: s'' =>
          if isHighSurrogate c && isLowSurrogate d
          then c :: d :: quoteUnits s''
          else quoteUnit c ++ quoteUnits s'
      | [] => quoteUnit c
      end
  end.

Definition quote (s : jsstring) : jsstring := 34%N :: quoteUnits s ++ [34%N].

Fixpoint join (sep : jsstring) (parts : list jsstring) : jsstring :=
  match parts with
  | [] => []
  | [p] => p
  | p :: rest => p ++ sep ++ join sep rest
  end.

(** A member of an object: its quoted name, a colon and its value. *)
Definition member (write : value -> jsstring) (m : jsstring * value)
  : jsstring :=
  quote (fst m) ++ 58%N :: write (snd m).

Fixpoint stringify (v : value) : jsstring :=
  match v with
  | JNull => lit "null"
  | JBool true => lit "true"
  | JBool false => lit "false"
  | JNumber n => numberToString n
  | JString s => quote s
  | JArray vs => 91%N :: join [44%N] (List.map stringify vs) ++ [93%N]
  | JObject ms =>
      123%N :: join [44%N] (List.map (member stringify) ms) ++ [125%N]
  end.

(** *** JavaScript operations on a parsed value *)

(** [v.name]: reading a property of [null] throws; a value that is not
    an object has none of the names the source reads. *)
Fixpoint lookup (name : jsstring) (ms : list (jsstring * value))
  : option value :=
  match ms with
  | [] => None
  | (k, v) :: ms' =>
      match lookup name ms' with
      | Some v' => Some v'
      | None => if JsString.eqb k name then Some v else None
      end
  end.

Definition get (v : value) (name : jsstring) : result (option value) :=
  match v with
  | JNull => Throw TypeError
  | JObject ms => Ok (lookup name ms)
  | _ => Ok None
  end.

(** A literal with a fraction or an exponent is zero when the digits
    before the exponent are all zero. *)
Fixpoint mantissaIsZero (lexeme : jsstring) : bool :=
  match lexeme with
  | [] => true
  | c :: l =>
      if ((c =? 101) || (c =? 69))%N then true
      else if ((49 <=? c) && (c <=? 57))%N then false
      else mantissaIsZero l
  end.

(** [ToBoolean]. *)
Definition truthy (v : option value) : bool :=
  match v with
  | None => false
  | Some JNull => false
  | Some (JBool b) => b
  | Some (JNumber (Int z)) => negb (z =? 0)%Z
  | Some (JNumber (Decimal l)) => negb (mantissaIsZero l)
  | Some (JString s) => JsString.truthy s
  | Some (JArray _) => true
  | Some (JObject _) => true
  end.

(** [ToString], as a template literal applies it. An element of an
    array that is [null] is written as the empty string. *)
Fixpoint toString (v : value) : jsstring :=
  match v with
  | JNull => lit "null"
  | JBool true => lit "true"
  | JBool false => lit "false"
  | JNumber n => numberToString n
  | JString s => s
  | JArray vs =>
      join [44%N]
        (List.map (fun e => match e with JNull => [] | _ => toString e end) vs)
  | JObject _ => lit "[object Object]"
  end.

End JSON.

(** ** Conversion for a comparison with a number

    [v < 1] and [v > 1] convert a [v] that is not a number: a string by
    [StringToNumber], an array or an object by [ToPrimitive] first. The
    model computes no floating point, and the comparison of [migrateData]
    is with 1, so the conversion of a string gives the order of its
    number and 1, or nothing when the number is [NaN]. *)

Module ToNumber.

(** The order of the double nearest to [mantissa * 10 ^ exponent] and 1.
    The doubles next to 1 are [1 - 2^-53] and [1 + 2^-52]; a value half
    way to one of them rounds to 1, whose significand is even. *)
Definition againstOne (mantissa : N) (exponent : Z) : comparison :=
  if (mantissa =? 0)%N then Lt
  else if (0 <=? exponent)%Z then
    if (mantissa =? 1)%N && (exponent =? 0)%Z then Eq else Gt
  else
    let scale := (10 ^ Z.to_N (- exponent))%N in
    if (mantissa * 2 ^ 54 <? (2 ^ 54 - 1) * scale)%N then Lt
    else if ((2 ^ 53 + 1) * scale <? mantissa * 2 ^ 53)%N then Gt
    else Eq.

(** [ExponentPart], when there is one: [e] or [E], a sign or none, and
    at least one digit. *)
Definition exponentPart (s : jsstring) : option (Z * jsstring) :=
  match s with
  | c :: s1 =>
      if ((c =? 101) || (c =? 69))%N then
        let (negative, s2) :=
          match s1 with
          | g :: s' =>
              if (g =? 45)%N then (true, s')
              else if (g =? 43)%N then (false, s')
              else (false, s1)
          | [] => (false, s1)
          end in
        match JSON.digits s2 with
        | (Decimal.Nil, _) => None
        | (u, rest) =>
            let e := Z.of_N (N.of_uint u) in
            Some (if negative then (- e)%Z else e, rest)
        end
      else Some (0%Z, s)
  | [] => Some (0%Z, s)
  end.

(** [StrUnsignedDecimalLiteral] over the whole of [s]: [Infinity], or
    digits, a point and digits (one of the two runs of digits may be
    empty) and an exponent. *)
Definition unsignedDecimalLiteral (s : jsstring) : option comparison :=
  match JsString.stripPrefix (lit "Infinity") s with
  | Some [] => Some Gt
  | Some (_ :: _) => None
  | None =>
      let (whole, s1) := JSON.digits s in
      let (fraction, s2) :=
        match JSON.expect 46 s1 with
        | Some s' => JSON.digits s'
        | None => (Decimal.Nil, s1)
        end in
      match whole, fraction with
      | Decimal.Nil, Decimal.Nil => None
      | _, _ =>
          match exponentPart s2 with
          | Some (e, []) =>
              let places := Decimal.nb_digits fraction in
              Some (againstOne
                      (N.of_uint whole * 10 ^ N.of_nat places
                       + N.of_uint fraction)%N
                      (e - Z.of_nat places)%Z)
          | _ => None
          end
      end
  end.

(** [StrDecimalLiteral]: a sign or none. The opposite of a number that
    is not [NaN] is below 1. *)
Definition decimalLiteral (s : jsstring) : option comparison :=
  match s with
  | c :: s' =>
      if (c =? 43)%N then unsignedDecimalLiteral s'
      else if (c =? 45)%N then
        match unsignedDecimalLiteral s' with
        | Some _ => Some Lt
        | None => None
        end
      else unsignedDecimalLiteral s
  | [] => None
  end.

Fixpoint radixDigits (radix : N) (s : jsstring) (value : N) : option N :=
  match s with
  | [] => Some value
  | c :: s' =>
      match JSON.hexValue c with
      | Some d =>
          if (d <? radix)%N then radixDigits radix s' (value * radix + d)%N
          else None
      | None => None
      end
  end.

(** [NonDecimalIntegerLiteral] over the whole of [s]: [0x], [0o] or
    [0b], in either case, and at least one digit of that radix. *)
Definition nonDecimalLiteral (s : jsstring) : option comparison :=
  match s with
  | z :: x :: ((_ :: _) as ds) =>
      if (z =? 48)%N then
        let radix :=
          (if (x =? 120) || (x =? 88) then Some 16
           else if (x =? 111) || (x =? 79) then Some 8
           else if (x =? 98) || (x =? 66) then Some 2
           else None)%N in
        match radix with
        | Some r =>
            match radixDigits r ds 0 with
            | Some n => Some (n ?= 1)%N
            | None => None
            end
        | None => None
        end
      else None
  | _ => None
  end.

(** [StringToNumber s] against 1: white space around the literal is
    dropped, the empty string is 0, a text that is no literal is [NaN]. *)
Definition stringAgainstOne (s : jsstring) : option comparison :=
  match JsString.trim s with
  | [] => Some Lt
  | c :: s' =>
      match nonDecimalLiteral (c :: s') with
      | Some r => Some r
      | None => decimalLiteral (c :: s')
      end
  end.

(** [ToPrimitive] of a parsed array or object, which is a string: an
    array joins the strings of its elements ([null] gives the empty
    string) with commas, an object is [[object Object]]. An object with
    a member named [toString] has no primitive value, and the conversion
    throws: the member, which is not a function, hides the method of
    [Object.prototype], and [valueOf] returns the object. A number is
    written by its literal, which converts back to the same number. *)
Fixpoint primitiveString (v : JSON.value) : result jsstring :=
  match v with
  | JSON.JArray vs =>
      bind
        ((fix elements (l : list JSON.value) : result (list jsstring) :=
            match l with
            | [] => Ok []
            | e :: l' =>
                bind (match e with
                      | JSON.JNull => Ok []
                      | _ => primitiveString e
                      end)
                  (fun s => bind (elements l') (fun ss => Ok (s :: ss)))
            end) vs)
        (fun parts => Ok (JSON.join [44%N] parts))
  | JSON.JObject ms =>
      match JSON.lookup (lit "toString") ms with
      | Some _ => Throw TypeError
      | None => Ok (lit "[object Object]")
      end
  | _ => Ok (JSON.toString v)
  end.

End ToNumber.

(** ** The shared types (types.ts)

    The aid slots of a session hold what [JSON.parse] returned: the
    source assigns the parsed arrays and the parsed title as they are.
    A message built from a missing last message has no role and no
    timestamp, hence the options. *)

Inductive Role : Type := user | assistant.

Module Source.
Record t : Type := mk {
  uri : jsstring;
  title : jsstring;
  content : option jsstring
}.

Definition toValue (s : t) : JSON.value :=
  JSON.JObject
    ([(lit "uri", JSON.JString (uri s)); (lit "title", JSON.JString (title s))]
     ++ match content s with
        | Some c => [(lit "content", JSON.JString c)]
        | None => []
        end).
End Source.

Module Message.
Record t : Type := mk {
  role : option Role;
  content : jsstring;
  image : option jsstring;
  sources : option (list Source.t);
  timestamp : option Z;
  useWebSearch : option bool
}.

Definition roleValue (r : Role) : JSON.value :=
  match r with
  | user => JSON.JString (lit "user")
  | assistant => JSON.JString (lit "assistant")
  end.

Definition optional {A : Type} (name : jsstring) (f : A -> JSON.value)
    (x : option A) : list (jsstring * JSON.value) :=
  match x with
  | Some a => [(name, f a)]
  | None => []
  end.

Definition toValue (m : t) : JSON.value :=
  JSON.JObject
    (optional (lit "role") roleValue (role m)
     ++ [(lit "content", JSON.JString (content m))]
     ++ optional (lit "image") JSON.JString (image m)
     ++ optional (lit "sources")
          (fun l => JSON.JArray (List.map Source.toValue l)) (sources m)
     ++ optional (lit "timestamp")
          (fun z => JSON.JNumber (JSON.Int z)) (timestamp m)
     ++ optional (lit "useWebSearch") JSON.JBool (useWebSearch m)).

Definition isAssistant (m : t) : bool :=
  match role m with
  | Some assistant => true
  | _ => false
  end.
End Message.

Module StudySession.
Record t : Type := mk {
  id : jsstring;
  title : jsstring;
  createdAt : Z;
  updatedAt : Z;
  messages : list Message.t;
  flashcards : list JSON.value;
  flashcardsTitle : JSON.value;
  quizItems : list JSON.value;
  quizTitle : JSON.value;
  slides : list JSON.value;
  slidesTitle : JSON.value;
  documentContext : jsstring;
  documentSummary : jsstring
}.

Definition toValue (s : t) : JSON.value :=
  JSON.JObject
    [(lit "id", JSON.JString (id s));
     (lit "title", JSON.JString (title s));
     (lit "createdAt", JSON.JNumber (JSON.Int (createdAt s)));
     (lit "updatedAt", JSON.JNumber (JSON.Int (updatedAt s)));
     (lit "messages", JSON.JArray (List.map Message.toValue (messages s)));
     (lit "flashcards", JSON.JArray (flashcards s));
     (lit "flashcardsTitle", flashcardsTitle s);
     (lit "quizItems", JSON.JArray (quizItems s));
     (lit "quizTitle", quizTitle s);
     (lit "slides", JSON.JArray (slides s));
     (lit "slidesTitle", slidesTitle s);
     (lit "documentContext", JSON.JString (documentContext s));
     (lit "documentSummary", JSON.JString (documentSummary s))].

(** [{ ...s, messages }] and [{ ...s, updatedAt }]. *)
Definition withMessages (s : t) (ms : list Message.t) : t :=
  mk (id s) (title s) (createdAt s) (updatedAt s) ms (flashcards s)
    (flashcardsTitle s) (quizItems s) (quizTitle s) (slides s)
    (slidesTitle s) (documentContext s) (documentSummary s).

Definition withUpdatedAt (s : t) (now : Z) : t :=
  mk (id s) (title s) (createdAt s) now (messages s) (flashcards s)
    (flashcardsTitle s) (quizItems s) (quizTitle s) (slides s)
    (slidesTitle s) (documentContext s) (documentSummary s).

Definition withTitle (s : t) (newTitle : jsstring) : t :=
  mk (id s) newTitle (createdAt s) (updatedAt s) (messages s) (flashcards s)
    (flashcardsTitle s) (quizItems s) (quizTitle s) (slides s)
    (slidesTitle s) (documentContext s) (documentSummary s).

Definition withDocumentSummary (s : t) (summary : jsstring) : t :=
  mk (id s) (title s) (createdAt s) (updatedAt s) (messages s) (flashcards s)
    (flashcardsTitle s) (quizItems s) (quizTitle s) (slides s)
    (slidesTitle s) (documentContext s) summary.

(** [Partial<StudySession>]: the fields an update object gives. *)
Record Partial : Type := mkPartial {
  p_id : option jsstring;
  p_title : option jsstring;
  p_createdAt : option Z;
  p_updatedAt : option Z;
  p_messages : option (list Message.t);
  p_flashcards : option (list JSON.value);
  p_flashcardsTitle : option JSON.value;
  p_quizItems : option (list JSON.value);
  p_quizTitle : option JSON.value;
  p_slides : option (list JSON.value);
  p_slidesTitle : option JSON.value;
  p_documentContext : option jsstring;
  p_documentSummary : option jsstring
}.

Definition orElse {A : Type} (x : option A) (d : A) : A :=
  match x with
  | Some a => a
  | None => d
  end.

(** [{ ...s, ...update }]. *)
Definition merge (s : t) (u : Partial) : t :=
  mk (orElse (p_id u) (id s)) (orElse (p_title u) (title s))
    (orElse (p_createdAt u) (createdAt s))
    (orElse (p_updatedAt u) (updatedAt s))
    (orElse (p_messages u) (messages s))
    (orElse (p_flashcards u) (flashcards s))
    (orElse (p_flashcardsTitle u) (flashcardsTitle s))
    (orElse (p_quizItems u) (quizItems s))
    (orElse (p_quizTitle u) (quizTitle s))
    (orElse (p_slides u) (slides s))
    (orElse (p_slidesTitle u) (slidesTitle s))
    (orElse (p_documentContext u) (documentContext s))
    (orElse (p_documentSummary u) (documentSummary s)).
End StudySession.

(** ** Arrays *)

(** [a[a.length - 1]], [None] for [undefined]. *)
Fixpoint lastOf {A : Type} (l : list A) : option A :=
  match l with
  | [] => None
  | [x] => Some x
  | _ :: l' => lastOf l'
  end.

(** [a.map(f)] with a callback that can throw: the first exception ends
    the traversal. *)
Fixpoint mapM {A B : Type} (f : A -> result B) (l : list A)
  : result (list B) :=
  match l with
  | [] => Ok []
  | x :: l' =>
      bind (f x) (fun y => bind (mapM f l') (fun ys => Ok (y :: ys)))
  end.

(** [a.sort(compare)]: the sort is stable; an element goes before the
    first sorted element that the comparison does not put in front of
    it. *)
Fixpoint insertSorted {A : Type} (compare : A -> A -> Z) (x : A)
    (sorted : list A) : list A :=
  match sorted with
  | [] => [x]
  | y :: rest =>
      if (compare x y <=? 0)%Z then x :: sorted
      else y :: insertSorted compare x rest
  end.

Definition Array_sort {A : Type} (compare : A -> A -> Z) (l : list A)
  : list A :=
  fold_right (insertSorted compare) [] l.

(** ** A JavaScript [Map] with string keys: the entries in insertion
    order; [set] on a present key replaces the value where it stands. *)

Module JsMap.
Section Entries.
Context {V : Type}.

Definition t : Type := list (jsstring * V).

Fixpoint set (k : jsstring) (v : V) (m : t) : t :=
  match m with
  | [] => [(k, v)]
  | (k', v') :: m' =>
      if JsString.eqb k' k then (k', v) :: m'
      else (k', v') :: set k v m'
  end.

Fixpoint get (k : jsstring) (m : t) : option V :=
  match m with
  | [] => None
  | (k', v) :: m' => if JsString.eqb k' k then Some v else get k m'
  end.

(** [new Map(entries)]. *)
Definition ofEntries (entries : list (jsstring * V)) : t :=
  fold_left (fun m e => set (fst e) (snd e) m) entries [].

(** [Array.from(m.values())]. *)
Definition values (m : t) : list V := List.map snd m.

End Entries.
End JsMap.

(** ** services/geminiService.ts *)

Module geminiService.

(** What the caller reads of a streamed chunk: [chunk.text] and
    [chunk.candidates?.[0]?.groundingMetadata?.groundingChunks]. *)
Record RetrievedContext : Type := {
  rc_uri : option jsstring;
  rc_title : option jsstring;
  rc_content : option jsstring
}.

Record Web : Type := {
  web_uri : option jsstring;
  web_title : option jsstring
}.

Record GroundingChunk : Type := {
  retrievedContext : option RetrievedContext;
  web : option Web
}.

Record Chunk : Type := {
  text : option jsstring;
  groundingChunks : option (list GroundingChunk)
}.

(** What the generation service throws: an [Error] object with its
    message, or a value that is not an [Error]. *)
Inductive Thrown : Type :=
| Error (message : jsstring)
| NotAnError.

(** A stream: the chunks it yields, then completion or an exception. *)
Record Stream : Type := {
  chunks : list Chunk;
  failure : option Thrown
}.

(** [x || ''] and the truth of an optional string. *)
Definition orEmpty (x : option jsstring) : jsstring :=
  match x with
  | Some s => s
  | None => []
  end.

Definition truthyString (x : option jsstring) : bool :=
  match x with
  | Some s => JsString.truthy s
  | None => false
  end.

Definition fromWeb (gc : GroundingChunk) : option Source.t :=
  match web gc with
  | Some w =>
      if truthyString (web_uri w) then
        Some (Source.mk (orEmpty (web_uri w)) (orEmpty (web_title w)) None)
      else None
  | None => None
  end.

(** The callback of [groundingChunks.map]; [None] is [null]. *)
Definition toSource (gc : GroundingChunk) : option Source.t :=
  match retrievedContext gc with
  | Some rc =>
      if truthyString (rc_uri rc) then
        Some (Source.mk (orEmpty (rc_uri rc)) (orEmpty (rc_title rc))
                (rc_content rc))
      else fromWeb gc
  | None => fromWeb gc
  end.

Fixpoint filterNull {A : Type} (l : list (option A)) : list A :=
  match l with
  | [] => []
  | Some a :: l' => a :: filterNull l'
  | None :: l' => filterNull l'
  end.

Definition chunkSources (c : Chunk) : list Source.t :=
  match groundingChunks c with
  | Some gcs => filterNull (List.map toSource gcs)
  | None => []
  end.

(** [Array.from(new Map(allSources.map(s => [s.uri, s])).values())]. *)
Definition dedupe (allSources : list Source.t) : list Source.t :=
  JsMap.values
    (JsMap.ofEntries (List.map (fun s => (Source.uri s, s)) allSources)).

(** The fragments of a stream joined in the order of arrival, and the
    sources its chunks cite. *)
Definition streamedText (cs : list Chunk) : jsstring :=
  List.concat (List.map (fun c => orEmpty (text c)) cs).

Definition collectedSources (cs : list Chunk) : list Source.t :=
  List.flat_map chunkSources cs.

Definition handleApiError (error : Thrown) : Thrown :=
  match error with
  | Error message =>
      let errorMessage := JsString.toLowerCase message in
      if JsString.includes errorMessage (lit "api key not valid") then
        Error (lit "The provided API key is not valid. Please check your configuration.")
      else if JsString.includes errorMessage (lit "rate limit")
              || JsString.includes errorMessage (lit "429") then
        Error (lit "You've sent too many requests. Please wait a moment and try again.")
      else if JsString.includes errorMessage (lit "[400]") then
        Error (lit "There was a problem with the request. Please check your input and try again.")
      else if JsString.includes errorMessage (lit "[5") then
        Error (lit "The AI service is currently unavailable. Please try again later.")
      else Error message
  | NotAnError => Error (lit "An unexpected error occurred. Please try again.")
  end.

(** What the promise of [getChatResponse] settles to. *)
Inductive Response : Type :=
| Resolved (fullText : jsstring) (sources : list Source.t)
| Rejected (error : Thrown).

Section GetChatResponse.
Context {St : Type}.

(** [onChunk] queues a state update; the state it acts on is threaded
    through the loop. An exception of the update itself is raised when
    the state is computed, outside the [try] of this function: it ends
    the traversal with [Throw]. *)
Variable onChunk : jsstring -> St -> result St.

(** The body of [for await (const chunk of stream)]. *)
Fixpoint consume (cs : list Chunk) (fullText : jsstring)
    (allSources : list Source.t) (st : St)
  : result (jsstring * list Source.t * St) :=
  match cs with
  | [] => Ok (fullText, allSources, st)
  | c :: cs' =>
      let sources' := allSources ++ chunkSources c in
      if truthyString (text c) then
        bind (onChunk (orEmpty (text c)) st) (fun st' =>
          consume cs' (fullText ++ orEmpty (text c)) sources' st')
      else consume cs' fullText sources' st
  end.

Definition getChatResponse (stream : Stream) (st : St)
  : result (Response * St) :=
  bind (consume (chunks stream) [] [] st) (fun r =>
    let '(fullText, allSources, st') := r in
    match failure stream with
    | Some error => Ok (Rejected (handleApiError error), st')
    | None => Ok (Resolved fullText (dedupe allSources), st')
    end).

End GetChatResponse.

(** *** The request *)

(** [inlineData] of a part: what the two [split]s leave; [None] is
    [undefined]. [split] with a separator that is not empty returns at
    least one piece. *)
Record InlineData : Type := {
  mimeType : option jsstring;
  data : option jsstring
}.

Definition inlineData (image : jsstring) : InlineData :=
  let pieces := JsString.split image (lit ";base64,") in
  let mimeTypePart := List.hd [] pieces in
  let base64Data := List.nth_error pieces 1 in
  {| mimeType := List.nth_error (JsString.split mimeTypePart (lit ":")) 1;
     data := base64Data |}.

Inductive Part : Type :=
| InlineDataPart (d : InlineData)
| TextPart (t : jsstring).

Inductive ContentRole : Type := RoleModel | RoleUser.

Record Content : Type := {
  role : ContentRole;
  parts : list Part
}.

(** The image part of a content, when there is an image. *)
Definition imagePart (image : option jsstring) : list Part :=
  if truthyString image then [InlineDataPart (inlineData (orEmpty image))]
  else [].

Definition mapMessagesToContent (messages : list Message.t) : list Content :=
  List.map
    (fun msg =>
       {| role := if Message.isAssistant msg then RoleModel else RoleUser;
          parts :=
            match Message.role msg with
            | Some user => imagePart (Message.image msg)
            | _ => []
            end ++ [TextPart (Message.content msg)] |})
    messages.

(** [contents] of the request of [getChatResponse]. *)
Definition requestContents (prompt : jsstring) (history : list Message.t)
    (image : option jsstring) : list Content :=
  mapMessagesToContent history
  ++ [{| role := RoleUser; parts := imagePart image ++ [TextPart prompt] |}].

(** *** getAutocompleteSuggestions *)

(** What [ai.models.generateContent] settles to: a response with its
    [text] ([None] for [undefined]), or an exception. *)
Inductive Generated : Type :=
| Responded (responseText : option jsstring)
| Failed (error : Thrown).

(** Every exception of the [try] block, the [TypeError] of
    [undefined.trim()] and the [SyntaxError] of [JSON.parse] included,
    is caught and gives the empty list. *)
Definition getAutocompleteSuggestions (g : Generated) : list JSON.value :=
  match g with
  | Responded (Some responseText) =>
      match JSON.parse (JsString.trim responseText) with
      | Ok (JSON.JArray suggestions) => firstn 5 suggestions
      | Ok _ => []
      | Throw _ => []
      end
  | Responded None => []
  | Failed _ => []
  end.

End geminiService.

(** ** services/sessionService.ts *)

Module sessionService.

(** [localStorage]: the items by key. Writing always succeeds in the
    model (no quota). *)
Definition Storage : Type := list (jsstring * jsstring).

Definition getItem (store : Storage) (key : jsstring) : option jsstring :=
  JsMap.get key store.

Definition setItem (store : Storage) (key value : jsstring) : Storage :=
  JsMap.set key value store.

Definition getStorageKey : jsstring := lit "study-gpt-sessions".

Definition CURRENT_DATA_VERSION : Z := 1.

(** Whether the number that a string, or the primitive value of an
    array or an object, converts to is below or above
    [CURRENT_DATA_VERSION]; it is never identical to it, being no
    number. *)
Definition differsFromCurrent (s : jsstring) : bool :=
  match ToNumber.stringAgainstOne s with
  | Some Lt => true
  | Some Gt => true
  | Some Eq => false
  | None => false
  end.

(** Whether one of [storedVersion === CURRENT_DATA_VERSION],
    [storedVersion < CURRENT_DATA_VERSION] and
    [storedVersion > CURRENT_DATA_VERSION] holds. A parsed number always
    compares; [null] and [false] convert to 0, [true] to 1, which is
    neither the number 1 nor below nor above it. A string, and an array
    or an object through its primitive value, compares when it converts
    to a number other than 1; the conversion of an object can throw. *)
Definition versionCompares (storedVersion : JSON.value) : result bool :=
  match storedVersion with
  | JSON.JNumber _ => Ok true
  | JSON.JNull => Ok true
  | JSON.JBool b => Ok (negb b)
  | JSON.JString s => Ok (differsFromCurrent s)
  | JSON.JArray _ | JSON.JObject _ =>
      bind (ToNumber.primitiveString storedVersion)
        (fun s => Ok (differsFromCurrent s))
  end.

Definition migrateData (data : JSON.value) : result JSON.value :=
  if negb (JSON.truthy (Some data)) then Ok (JSON.JArray [])
  else
    match data with
    | JSON.JArray _ => Ok data
    | JSON.JObject ms =>
        match JSON.lookup (lit "version") ms, JSON.lookup (lit "sessions") ms with
        | Some storedVersion, Some sessions =>
            bind (versionCompares storedVersion)
              (fun compares =>
                 if compares then Ok sessions else Ok (JSON.JArray []))
        | _, _ => Ok (JSON.JArray [])
        end
    | _ => Ok (JSON.JArray [])
    end.

(** [loadSessions()]: the sessions, and the store. What the [try] block
    throws, [JSON.parse] on a text that does not parse or [migrateData]
    on a version that has no primitive value, is caught, and the text,
    when it is not empty, is copied under a backup key. *)
Definition loadSessions (store : Storage) (now : Z)
  : list JSON.value * Storage :=
  match getItem store getStorageKey with
  | None => ([], store)
  | Some serializedSessions =>
      match bind (JSON.parse serializedSessions) migrateData with
      | Ok (JSON.JArray migratedSessions) => (migratedSessions, store)
      | Ok _ => ([], store)
      | Throw _ =>
          if JsString.truthy serializedSessions then
            ([], setItem store
                   (getStorageKey ++ lit "-backup-" ++ JSON.integerToString now)
                   serializedSessions)
          else ([], store)
      end
  end.

Definition saveSessions (store : Storage) (sessions : list StudySession.t)
  : Storage :=
  let dataToStore :=
    JSON.JObject
      [(lit "version", JSON.JNumber (JSON.Int CURRENT_DATA_VERSION));
       (lit "sessions", JSON.JArray (List.map StudySession.toValue sessions))] in
  setItem store getStorageKey (JSON.stringify dataToStore).

Definition createNewSession (now : Z) : StudySession.t :=
  StudySession.mk (JSON.integerToString now) (lit "New Study Session") now now
    [] [] (JSON.JString []) [] (JSON.JString []) [] (JSON.JString []) [] [].

(** *** The settings *)

Definition getProfileKey : jsstring := lit "study-gpt-profile".
Definition getThemeKey : jsstring := lit "study-gpt-theme".
Definition getVoiceKey : jsstring := lit "study-gpt-voice-uri".
Definition getLanguageKey : jsstring := lit "study-gpt-language".

(** [localStorage.getItem(key) || fallback] *)
Definition getItemOr (store : Storage) (key fallback : jsstring) : jsstring :=
  match getItem store key with
  | Some value => if JsString.truthy value then value else fallback
  | None => fallback
  end.

Definition loadStudyProfile (store : Storage) : jsstring :=
  getItemOr store getProfileKey [].

Definition saveStudyProfile (store : Storage) (profile : jsstring) : Storage :=
  setItem store getProfileKey profile.

Definition loadTheme (store : Storage) : jsstring :=
  getItemOr store getThemeKey (lit "indigo").

Definition saveTheme (store : Storage) (theme : jsstring) : Storage :=
  setItem store getThemeKey theme.

Definition loadVoiceURI (store : Storage) : jsstring :=
  getItemOr store getVoiceKey [].

Definition saveVoiceURI (store : Storage) (uri : jsstring) : Storage :=
  setItem store getVoiceKey uri.

Definition loadLanguage (store : Storage) : jsstring :=
  getItemOr store getLanguageKey (lit "en").

Definition saveLanguage (store : Storage) (language : jsstring) : Storage :=
  setItem store getLanguageKey language.

End sessionService.

(** ** App.tsx *)

Module App.

Inductive StudyMode : Type := Chat | Flashcards | Quiz | Slides.

Inductive NotificationType : Type := success | error | info.

Record Notification : Type := {
  n_id : Z;
  n_title : jsstring;
  n_message : jsstring;
  n_type : NotificationType
}.

(** The state of [AppContent] that the handlers below read and write. *)
Record State : Type := mkState {
  sessions : list StudySession.t;
  activeSessionId : option jsstring;
  studyMode : StudyMode;
  isLoading : bool;
  notifications : list Notification
}.

Definition setSessions (st : State) (l : list StudySession.t) : State :=
  mkState l (activeSessionId st) (studyMode st) (isLoading st)
    (notifications st).

Definition isId (sessionId : jsstring) (s : StudySession.t) : bool :=
  JsString.eqb (StudySession.id s) sessionId.

(** [/```json\s*([\s\S]*?)\s*```/] *)
Definition fence : RegExp.regex :=
  RegExp.Seq (RegExp.Lit (lit "```json"))
    (RegExp.Seq (RegExp.StarGreedy JsString.isWhiteSpace)
       (RegExp.Seq (RegExp.Group (RegExp.StarLazy RegExp.any))
          (RegExp.Seq (RegExp.StarGreedy JsString.isWhiteSpace)
             (RegExp.Lit (lit "```"))))).

(** *** processResponse *)

Definition placeholderMessage (now : Z) : Message.t :=
  Message.mk (Some assistant) [] None (Some []) (Some now) None.

Definition addPlaceholder (sessionId : jsstring) (now : Z)
    (prevSessions : list StudySession.t) : list StudySession.t :=
  List.map
    (fun s =>
       if isId sessionId s then
         StudySession.withMessages s
           (StudySession.messages s ++ [placeholderMessage now])
       else s)
    prevSessions.

(** The update that [onChunk] queues. [lastMessage.role] throws when
    the session has no message. *)
Definition appendChunk (sessionId chunkText : jsstring) (s : StudySession.t)
  : result StudySession.t :=
  if isId sessionId s then
    match lastOf (StudySession.messages s) with
    | None => Throw TypeError
    | Some lastMessage =>
        if Message.isAssistant lastMessage then
          let updatedMessage :=
            Message.mk (Message.role lastMessage)
              (Message.content lastMessage ++ chunkText)
              (Message.image lastMessage) (Message.sources lastMessage)
              (Message.timestamp lastMessage)
              (Message.useWebSearch lastMessage) in
          Ok (StudySession.withMessages s
                (removelast (StudySession.messages s) ++ [updatedMessage]))
        else Ok s
    end
  else Ok s.

Definition onChunk (sessionId chunkText : jsstring)
    (prevSessions : list StudySession.t) : result (list StudySession.t) :=
  mapM (appendChunk sessionId chunkText) prevSessions.

(** The local variables of [processResponse] after the extraction, and
    the last mode given to [setStudyMode], if any. *)
Record Extraction : Type := mkExtraction {
  finalText : jsstring;
  newFlashcards : list JSON.value;
  newQuizItems : list JSON.value;
  newSlides : list JSON.value;
  studyAidTitle : JSON.value;
  modeSet : option StudyMode
}.

(** [x && Array.isArray(x) && x.length > 0]: the array, or [[]]. *)
Definition nonEmptyArray (x : option JSON.value) : list JSON.value :=
  match x with
  | Some (JSON.JArray (e :: l)) => e :: l
  | _ => []
  end.

Definition isNonEmpty {A : Type} (l : list A) : bool :=
  match l with
  | [] => false
  | _ :: _ => true
  end.

(** [`I've created the "${studyAidTitle}" for you.`] *)
Definition fallbackText (studyAidTitle : JSON.value) : jsstring :=
  lit "I've created the " ++ [34%N] ++ JSON.toString studyAidTitle
    ++ [34%N] ++ lit " for you.".

(** The body of the inner [try], from [JSON.parse] on. Once the title
    has been read the value is not [null], and no later step throws. *)
Definition readStudyAids (fullText match0 match1 : jsstring)
  : result Extraction :=
  bind (JSON.parse match1) (fun parsedJson =>
  bind (JSON.get parsedJson (lit "title")) (fun title =>
  bind (JSON.get parsedJson (lit "quiz")) (fun quiz =>
  bind (JSON.get parsedJson (lit "flashcards")) (fun flashcards =>
  bind (JSON.get parsedJson (lit "slides")) (fun slides =>
    let studyAidTitle :=
      match title with
      | Some t => if JSON.truthy title then t else JSON.JString []
      | None => JSON.JString []
      end in
    let newQuizItems := nonEmptyArray quiz in
    let mode1 := if isNonEmpty newQuizItems then Some Quiz else None in
    let newFlashcards := nonEmptyArray flashcards in
    let mode2 := if isNonEmpty newFlashcards then Some Flashcards else mode1 in
    let newSlides := nonEmptyArray slides in
    let mode3 := if isNonEmpty newSlides then Some Slides else mode2 in
    let studyAidGenerated :=
      isNonEmpty newQuizItems || isNonEmpty newFlashcards
      || isNonEmpty newSlides in
    let finalText :=
      if studyAidGenerated then
        let stripped := JsString.trim (JsString.replace fullText match0 []) in
        if JsString.truthy stripped then stripped
        else fallbackText studyAidTitle
      else fullText in
    Ok (mkExtraction finalText newFlashcards newQuizItems newSlides
          studyAidTitle mode3)))))).

Definition noExtraction (fullText : jsstring) : Extraction :=
  mkExtraction fullText [] [] [] (JSON.JString []) None.

(** From [let finalText = fullText] to the end of the [if (jsonMatch
    ...)]: an exception of the inner [try] is logged and leaves the
    variables as they were. *)
Definition extractStudyAids (fullText : jsstring) : Extraction :=
  match RegExp.String_match fullText fence with
  | Some (match0, Some match1) =>
      if JsString.truthy match1 then
        match readStudyAids fullText match0 match1 with
        | Ok e => e
        | Throw _ => noExtraction fullText
        end
      else noExtraction fullText
  | _ => noExtraction fullText
  end.

(** The last update of the [try] block. *)
Definition reconcile (sessionId : jsstring) (e : Extraction)
    (sources : list Source.t) (now : Z) (s : StudySession.t)
  : StudySession.t :=
  if isId sessionId s then
    let finalMessage :=
      match lastOf (StudySession.messages s) with
      | Some lastMessage =>
          Message.mk (Message.role lastMessage) (finalText e)
            (Message.image lastMessage) (Some sources)
            (Message.timestamp lastMessage) (Message.useWebSearch lastMessage)
      | None => Message.mk None (finalText e) None (Some sources) None None
      end in
    StudySession.mk (StudySession.id s) (StudySession.title s)
      (StudySession.createdAt s) now
      (removelast (StudySession.messages s) ++ [finalMessage])
      (if isNonEmpty (newFlashcards e) then newFlashcards e
       else StudySession.flashcards s)
      (if isNonEmpty (newFlashcards e) then studyAidTitle e
       else StudySession.flashcardsTitle s)
      (if isNonEmpty (newQuizItems e) then newQuizItems e
       else StudySession.quizItems s)
      (if isNonEmpty (newQuizItems e) then studyAidTitle e
       else StudySession.quizTitle s)
      (if isNonEmpty (newSlides e) then newSlides e
       else StudySession.slides s)
      (if isNonEmpty (newSlides e) then studyAidTitle e
       else StudySession.slidesTitle s)
      (StudySession.documentContext s) (StudySession.documentSummary s)
  else s.

(** The update of the [catch] block. *)
Definition replaceWithError (sessionId content : jsstring) (now : Z)
    (s : StudySession.t) : StudySession.t :=
  if isId sessionId s then
    StudySession.withMessages s
      (removelast (StudySession.messages s)
       ++ [Message.mk (Some assistant) content None None (Some now) None])
  else s.

(** [processResponse]: [t0] is the time of the placeholder, [t1] the
    time of the last update. [Throw] is an exception of a queued state
    update. *)
Definition processResponse (sessionId : jsstring)
    (stream : geminiService.Stream) (t0 t1 : Z) (st : State) : result State :=
  let sessions1 := addPlaceholder sessionId t0 (sessions st) in
  bind (geminiService.getChatResponse (onChunk sessionId) stream sessions1)
    (fun r =>
       match r with
       | (geminiService.Resolved fullText sources, sessions2) =>
           let e := extractStudyAids fullText in
           Ok (mkState
                 (List.map (reconcile sessionId e sources t1) sessions2)
                 (activeSessionId st)
                 (match modeSet e with
                  | Some mode => mode
                  | None => studyMode st
                  end)
                 false (notifications st))
       | (geminiService.Rejected err, sessions2) =>
           let content :=
             match err with
             | geminiService.Error message => message
             | geminiService.NotAnError =>
                 lit "Sorry, I encountered an error. Please try again."
             end in
           Ok (mkState
                 (List.map (replaceWithError sessionId content t1) sessions2)
                 (activeSessionId st) (studyMode st) false
                 (notifications st
                  ++ [Build_Notification t1 (lit "Error") content error]))
       end).

(** *** The other updates of a session *)

(** [updateActiveSession]: a partial object or a transform. *)
Inductive Update : Type :=
| UpdateFields (update : StudySession.Partial)
| UpdateWith (update : StudySession.t -> StudySession.t).

Definition updateActiveSession (update : Update) (now : Z) (st : State)
  : State :=
  match activeSessionId st with
  | None => st
  | Some active =>
      if JsString.truthy active then
        setSessions st
          (List.map
             (fun s =>
                if isId active s then
                  let updatedSession :=
                    match update with
                    | UpdateWith f => f s
                    | UpdateFields u => StudySession.merge s u
                    end in
                  StudySession.withUpdatedAt updatedSession now
                else s)
             (sessions st))
      else st
  end.

(** The title of a session from its first prompt. *)
Definition sessionTitle (titleContent : jsstring) : jsstring :=
  if (40 <? List.length titleContent)%nat
  then firstn 40 titleContent ++ lit "..."
  else titleContent.

(** The update of [handleSendMessage] that appends the user message. *)
Definition addUserMessage (currentSessionId : jsstring)
    (userMessage : Message.t) (titleContent : jsstring)
    (prev : list StudySession.t) : list StudySession.t :=
  List.map
    (fun s =>
       if isId currentSessionId s then
         let isFirstMessage :=
           match StudySession.messages s with [] => true | _ :: _ => false end in
         StudySession.withTitle
           (StudySession.withMessages s
              (StudySession.messages s ++ [userMessage]))
           (if isFirstMessage then sessionTitle titleContent
            else StudySession.title s)
       else s)
    prev.

(** The update of [handleFileUpload] that stores the summary (or the
    message of the error). *)
Definition setDocumentSummary (sessionId summary : jsstring)
    (prev : list StudySession.t) : list StudySession.t :=
  List.map
    (fun s =>
       if isId sessionId s then StudySession.withDocumentSummary s summary
       else s)
    prev.

(** [handleExplainMessage] appends its user message, and
    [handleDeleteMessage] truncates the transcript, through
    [updateActiveSession]. *)
Definition explainUserMessage (userMessage : Message.t) : Update :=
  UpdateWith
    (fun s =>
       StudySession.withMessages s (StudySession.messages s ++ [userMessage])).

Definition handleDeleteMessage (messageIndex : nat) (now : Z) (st : State)
  : State :=
  updateActiveSession
    (UpdateWith
       (fun s =>
          StudySession.withMessages s
            (firstn messageIndex (StudySession.messages s))))
    now st.

(** [(a, b) => b.updatedAt - a.updatedAt] *)
Definition byUpdatedAtDescending (a b : StudySession.t) : Z :=
  (StudySession.updatedAt b - StudySession.updatedAt a)%Z.

Definition handleDeleteSession (sessionId : jsstring) (st : State) : State :=
  let remaining :=
    List.filter (fun s => negb (isId sessionId s)) (sessions st) in
  let active :=
    match activeSessionId st with
    | Some a =>
        if JsString.eqb a sessionId then
          match Array_sort byUpdatedAtDescending remaining with
          | latestSession :: _ => Some (StudySession.id latestSession)
          | [] => None
          end
        else activeSessionId st
    | None => None
    end in
  mkState remaining active (studyMode st) (isLoading st) (notifications st).

(** *** The other handlers *)

(** [sessions.find(s => s.id === activeSessionId) || null] *)
Definition activeSession (st : State) : option StudySession.t :=
  match activeSessionId st with
  | Some a => List.find (isId a) (sessions st)
  | None => None
  end.

(** The session that the effect of the first render makes active, from
    the sessions it loaded. *)
Definition initialActiveSessionId (loadedSessions : list StudySession.t)
  : option jsstring :=
  match loadedSessions with
  | [] => None
  | _ :: _ =>
      match Array_sort byUpdatedAtDescending loadedSessions with
      | latestSession :: _ => Some (StudySession.id latestSession)
      | [] => None
      end
  end.

(** [handleNewSession]; the web-search switch and the view, which it
    also resets, are not part of [State]. *)
Definition handleNewSession (now : Z) (st : State) : State :=
  let newSession := sessionService.createNewSession now in
  mkState (newSession :: sessions st) (Some (StudySession.id newSession)) Chat
    (isLoading st) (notifications st).

(** [handleSendMessage]: [year] is [new Date().getFullYear()], [now0]
    the time at which a session is created, [now1] the time of the user
    message; the web-search switch is an argument and the second
    component of the result. *)
Definition realTimeKeywords (year : Z) : list jsstring :=
  [lit "latest"; lit "recent"; lit "current"; lit "today"; lit "who is";
   lit "what is"; lit "news"; lit "trending"; JSON.integerToString year].

Definition isFactualQuestion (year : Z) (prompt : jsstring) : bool :=
  existsb (fun keyword => JsString.includes (JsString.toLowerCase prompt) keyword)
    (realTimeKeywords year).

Definition finalUseWebSearch (useWebSearch : bool) (year : Z)
    (prompt : jsstring) : bool :=
  if negb useWebSearch && isFactualQuestion year prompt then true
  else useWebSearch.

Definition titleContent (prompt : jsstring) (image : option jsstring)
  : jsstring :=
  if geminiService.truthyString image then
    if JsString.truthy prompt then prompt else lit "Image Analysis"
  else prompt.

Definition handleSendMessage (prompt : jsstring) (image : option jsstring)
    (year now0 now1 : Z) (stream : geminiService.Stream) (t0 t1 : Z)
    (useWebSearch : bool) (st : State) : result (State * bool) :=
  if negb (JsString.truthy (JsString.trim prompt))
     && negb (geminiService.truthyString image)
  then Ok (st, useWebSearch)
  else
    let final := finalUseWebSearch useWebSearch year prompt in
    let newSession :=
      StudySession.withTitle (sessionService.createNewSession now0)
        (sessionTitle (titleContent prompt image)) in
    let currentSessionId :=
      if geminiService.truthyString (activeSessionId st)
      then geminiService.orEmpty (activeSessionId st)
      else StudySession.id newSession in
    let sessions1 :=
      if geminiService.truthyString (activeSessionId st) then sessions st
      else newSession :: sessions st in
    let active1 :=
      if geminiService.truthyString (activeSessionId st)
      then activeSessionId st
      else Some (StudySession.id newSession) in
    let userMessage :=
      Message.mk (Some user) prompt image None (Some now1) (Some final) in
    bind (processResponse currentSessionId stream t0 t1
            (mkState
               (addUserMessage currentSessionId userMessage
                  (titleContent prompt image) sessions1)
               active1 Chat true (notifications st)))
      (fun st' => Ok (st', if final then true else useWebSearch)).

(** [messages.map(m => m.role).lastIndexOf('assistant')]; [None] is
    [-1]. *)
Fixpoint lastIndexOfAssistant (messages : list Message.t) : option nat :=
  match messages with
  | [] => None
  | m :: rest =>
      match lastIndexOfAssistant rest with
      | Some i => Some (S i)
      | None => if Message.isAssistant m then Some 0%nat else None
      end
  end.

(** [lastAssistantMessageInfo]: the content and the index. *)
Definition lastAssistantMessageInfo (st : State) : option (jsstring * nat) :=
  match activeSession st with
  | None => None
  | Some s =>
      match StudySession.messages s with
      | [] => None
      | _ :: _ =>
          match lastIndexOfAssistant (StudySession.messages s) with
          | None => None
          | Some lastIndex =>
              match List.nth_error (StudySession.messages s) lastIndex with
              | Some m => Some (Message.content m, lastIndex)
              | None => None
              end
          end
      end
  end.

End App.

(** ** hooks/useVoiceCommands.ts *)

Module useVoiceCommands.

Section Commands.
(** The actions of the tables are closures of the caller. *)
Context {Action DynamicAction : Type}.

(** [CommandMap]: the properties of the object, by name (the table's
    own properties; what an object inherits is not modelled). *)
Definition CommandMap : Type := list (jsstring * Action).

Record DynamicCommand : Type := {
  keywords : list jsstring;
  action : DynamicAction
}.

(** What [processTranscript] calls, in order. *)
Inductive Call : Type :=
| CallStatic (a : Action)
| CallDynamic (a : DynamicAction) (capturedText : jsstring)
| StopListening.

Fixpoint lookupCommand (staticCommands : CommandMap) (name : jsstring)
  : option Action :=
  match staticCommands with
  | [] => None
  | (k, a) :: rest =>
      if JsString.eqb k name then Some a else lookupCommand rest name
  end.

(** The inner loop: the first keyword of [command] that, followed by a
    space, starts the lower-case text. *)
Fixpoint matchKeyword (text lowerCaseText : jsstring) (a : DynamicAction)
    (kws : list jsstring) : option (list Call) :=
  match kws with
  | [] => None
  | keyword :: kws' =>
      let keywordWithSpace := keyword ++ lit " " in
      if JsString.startsWith lowerCaseText keywordWithSpace then
        let capturedText :=
          JsString.substring text (List.length keywordWithSpace) in
        Some [CallDynamic a capturedText; StopListening]
      else matchKeyword text lowerCaseText a kws'
  end.

(** The outer loop over the dynamic commands. *)
Fixpoint matchDynamic (text lowerCaseText : jsstring)
    (dynamicCommands : list DynamicCommand) : option (list Call) :=
  match dynamicCommands with
  | [] => None
  | command :: rest =>
      match matchKeyword text lowerCaseText (action command)
              (keywords command) with
      | Some calls => Some calls
      | None => matchDynamic text lowerCaseText rest
      end
  end.

Definition processTranscript (staticCommands : CommandMap)
    (dynamicCommands : list DynamicCommand) (text : jsstring) : list Call :=
  let lowerCaseText := JsString.trim (JsString.toLowerCase text) in
  match lookupCommand staticCommands lowerCaseText with
  | Some a => [CallStatic a; StopListening]
  | None =>
      match matchDynamic text lowerCaseText dynamicCommands with
      | Some calls => calls
      | None =>
          if JsString.eqb lowerCaseText (lit "stop listening")
             || JsString.eqb lowerCaseText (lit "cancel")
          then [StopListening]
          else []
      end
  end.

End Commands.

Arguments CommandMap : clear implicits.
Arguments DynamicCommand : clear implicits.
Arguments Call : clear implicits.

(** The listening state of the hook and [stopListening]. *)
Record Listening : Type := {
  recognition : bool;   (* recognitionRef.current is set *)
  isListening : bool
}.

Definition stopListening (l : Listening) : Listening :=
  if recognition l && isListening l
  then Build_Listening (recognition l) false
  else l.

End useVoiceCommands.

(** The tables that [App] gives to the hook. *)
Inductive VoiceAction : Type :=
| HandleNewSession
| ShowFlashcards
| OpenQuiz
| ViewSlides
| GoToChat
| Next
| Previous.

Inductive VoiceDynamicAction : Type := HandleSendMessage.

Definition voiceCommands : useVoiceCommands.CommandMap VoiceAction :=
  [(lit "new session", HandleNewSession);
   (lit "start new chat", HandleNewSession);
   (lit "start over", HandleNewSession);
   (lit "show flashcards", ShowFlashcards);
   (lit "open quiz", OpenQuiz);
   (lit "view slides", ViewSlides);
   (lit "show presentation", ViewSlides);
   (lit "go to chat", GoToChat);
   (lit "next", Next);
   (lit "next card", Next);
   (lit "next slide", Next);
   (lit "previous", Previous);
   (lit "previous card", Previous);
   (lit "previous slide", Previous)].

Definition dynamicVoiceCommands
  : list (useVoiceCommands.DynamicCommand VoiceDynamicAction) :=
  [useVoiceCommands.Build_DynamicCommand
     [lit "ask"; lit "say"; lit "tell me"; lit "search for"; lit "what is";
      lit "who is"; lit "explain"]
     HandleSendMessage].

(** ** components/InputPanel.tsx *)

Module InputPanel.

(** The effect that fetches the suggestions, once its timer has fired
    and the request has settled: [currentValue] is what the text area
    holds by then ([None] when there is no text area), [suggestions]
    the list shown so far. *)
Definition suggestionsEffect (prompt : jsstring) (isFocused : bool)
    (currentValue : option jsstring) (g : geminiService.Generated)
    (suggestions : list JSON.value) : list JSON.value :=
  let trimmedPrompt := JsString.trim prompt in
  if (5 <? List.length trimmedPrompt)%nat && isFocused then
    match currentValue with
    | Some v =>
        if JsString.eqb (JsString.trim v) trimmedPrompt
        then geminiService.getAutocompleteSuggestions g
        else suggestions
    | None => suggestions
    end
  else [].

End InputPanel.

(** ** components/FlashcardsView.tsx and components/SlidesView.tsx

    The index of the card or slide shown; [length] is the length of the
    deck. *)

Module FlashcardsView.

Definition goToPrevious (length prevIndex : Z) : Z :=
  if (prevIndex =? 0)%Z then (length - 1)%Z else (prevIndex - 1)%Z.

Definition goToNext (length prevIndex : Z) : Z :=
  if (prevIndex =? length - 1)%Z then 0%Z else (prevIndex + 1)%Z.

End FlashcardsView.

Module SlidesView.

Inductive Direction : Type := next | prev.

Definition handleNavigation (direction : Direction) (length currentIndex : Z)
  : Z :=
  match direction with
  | next =>
      if (currentIndex =? length - 1)%Z then 0%Z else (currentIndex + 1)%Z
  | prev =>
      if (currentIndex =? 0)%Z then (length - 1)%Z else (currentIndex + 1)%Z
  end.

End SlidesView.

(** ** components/SessionPanel.tsx *)

Module SessionPanel.

Section Search.
(** [String.prototype.toLowerCase]. The panel lower-cases titles in any
    script, where [JsString.toLowerCase] covers Latin-1 only; the list
    of the panel is defined, and its properties hold, for the
    lower-casing whatever it is. *)
Variable toLowerCase : jsstring -> jsstring.

Definition filteredSessions (sessions : list StudySession.t)
    (searchQuery : jsstring) : list StudySession.t :=
  List.filter
    (fun session =>
       JsString.includes (toLowerCase (StudySession.title session))
         (toLowerCase searchQuery))
    sessions.

Definition sortedSessions (sessions : list StudySession.t)
    (searchQuery : jsstring) : list StudySession.t :=
  Array_sort App.byUpdatedAtDescending (filteredSessions sessions searchQuery).

End Search.

End SessionPanel.

(** ** Auxiliary definitions of the statements *)

(** The sessions while a response streams into [sessionId]: the
    placeholder created at [t0] holds the text received so far. *)
Definition streaming (sessionId : jsstring) (t0 : Z) (received : jsstring)
    (ss : list StudySession.t) : list StudySession.t :=
  List.map
    (fun s =>
       if App.isId sessionId s then
         StudySession.withMessages s
           (StudySession.messages s
            ++ [Message.mk (Some assistant) received None (Some []) (Some t0) None])
       else s)
    ss.

(** The assistant message of a finished turn. *)
Definition assistantMessage (content : jsstring) (sources : list Source.t)
    (t0 : Z) : Message.t :=
  Message.mk (Some assistant) content None (Some sources) (Some t0) None.

(** A session after a turn whose extraction is [e], seen from the
    session before the turn. *)
Definition finished (sessionId : jsstring) (e : App.Extraction)
    (sources : list Source.t) (t0 t1 : Z) (s : StudySession.t)
  : StudySession.t :=
  if App.isId sessionId s then
    StudySession.mk (StudySession.id s) (StudySession.title s)
      (StudySession.createdAt s) t1
      (StudySession.messages s
       ++ [assistantMessage (App.finalText e) sources t0])
      (if App.isNonEmpty (App.newFlashcards e) then App.newFlashcards e
       else StudySession.flashcards s)
      (if App.isNonEmpty (App.newFlashcards e) then App.studyAidTitle e
       else StudySession.flashcardsTitle s)
      (if App.isNonEmpty (App.newQuizItems e) then App.newQuizItems e
       else StudySession.quizItems s)
      (if App.isNonEmpty (App.newQuizItems e) then App.studyAidTitle e
       else StudySession.quizTitle s)
      (if App.isNonEmpty (App.newSlides e) then App.newSlides e
       else StudySession.slides s)
      (if App.isNonEmpty (App.newSlides e) then App.studyAidTitle e
       else StudySession.slidesTitle s)
      (StudySession.documentContext s) (StudySession.documentSummary s)
  else s.

(** The stream of a response that completes. *)
Definition completes (cs : list geminiService.Chunk) : geminiService.Stream :=
  geminiService.Build_Stream cs None.

(** A text with no fenced json block: no opening fence is followed by a
    closing fence. *)
Definition noFencedJson (text : jsstring) : Prop :=
  forall before inner after,
    text <> before ++ lit "```json" ++ inner ++ lit "```" ++ after.

(** The six aid slots of [s'] are those of [s]. *)
Definition sameAids (s s' : StudySession.t) : Prop :=
  StudySession.flashcards s' = StudySession.flashcards s
  /\ StudySession.flashcardsTitle s' = StudySession.flashcardsTitle s
  /\ StudySession.quizItems s' = StudySession.quizItems s
  /\ StudySession.quizTitle s' = StudySession.quizTitle s
  /\ StudySession.slides s' = StudySession.slides s
  /\ StudySession.slidesTitle s' = StudySession.slidesTitle s.

(** The aid of a parsed object under [name]: its non-empty array, or
    [[]]; and the title the source takes from the object. *)
Definition aidOf (name : jsstring) (ms : list (jsstring * JSON.value))
  : list JSON.value :=
  App.nonEmptyArray (JSON.lookup name ms).

Definition titleOf (ms : list (jsstring * JSON.value)) : JSON.value :=
  match JSON.lookup (lit "title") ms with
  | Some t => if JSON.truthy (Some t) then t else JSON.JString []
  | None => JSON.JString []
  end.

(** The URIs of a sequence, each once, in the order in which they are
    first seen; and the last source of a sequence that has the URI [u]. *)
Fixpoint firstSeen (us : list jsstring) : list jsstring :=
  match us with
  | [] => []
  | u :: us' => u :: List.filter (fun x => negb (JsString.eqb u x)) (firstSeen us')
  end.

Fixpoint lastWith (u : jsstring) (l : list Source.t) : option Source.t :=
  match l with
  | [] => None
  | s :: l' =>
      match lastWith u l' with
      | Some s' => Some s'
      | None => if JsString.eqb (Source.uri s) u then Some s else None
      end
  end.

(** Two citations of one page under two titles. *)
Definition citedFirst : Source.t :=
  Source.mk (lit "https://example.org/cell") (lit "Cell") None.

Definition citedAgain : Source.t :=
  Source.mk (lit "https://example.org/cell") (lit "Cell (biology)") None.

(** A session with an empty transcript and empty aid slots. *)
Definition emptySession (id : jsstring) (updatedAt : Z) : StudySession.t :=
  StudySession.mk id (lit "Biology") 0 updatedAt [] [] (JSON.JString []) []
    (JSON.JString []) [] (JSON.JString []) [] [].

Definition stateOf (ss : list StudySession.t) (active : option jsstring)
  : App.State :=
  App.mkState ss active App.Chat false [].

(** A value whose numbers are all integers: what [JSON.stringify]
    writes for it is what JavaScript writes. *)
#[warnings="-register-all"]
Inductive integral : JSON.value -> Prop :=
| integral_null : integral JSON.JNull
| integral_bool b : integral (JSON.JBool b)
| integral_int z : integral (JSON.JNumber (JSON.Int z))
| integral_string s : integral (JSON.JString s)
| integral_array vs : Forall integral vs -> integral (JSON.JArray vs)
| integral_object ms :
    Forall (fun m => integral (snd m)) ms -> integral (JSON.JObject ms).

(** A session whose aid slots hold integral values. *)
Definition storable (s : StudySession.t) : Prop :=
  Forall integral (StudySession.flashcards s)
  /\ integral (StudySession.flashcardsTitle s)
  /\ Forall integral (StudySession.quizItems s)
  /\ integral (StudySession.quizTitle s)
  /\ Forall integral (StudySession.slides s)
  /\ integral (StudySession.slidesTitle s).

(** What may follow a value inside a text: nothing, a comma, or the end
    of an array or of an object. *)
Definition delimited (rest : jsstring) : Prop :=
  match rest with
  | [] => True
  | c :: _ => c = 44%N \/ c = 93%N \/ c = 125%N
  end.

(** The digits of an integer part: a single zero, or digits that do not
    start with a zero. *)
Definition leading (u : Decimal.uint) : Prop :=
  match u with
  | Decimal.Nil => False
  | Decimal.D0 Decimal.Nil => True
  | Decimal.D0 _ => False
  | _ => True
  end.

Definition noDigit (rest : jsstring) : Prop :=
  match rest with
  | [] => True
  | c :: _ => JSON.digitOf c = None
  end.

(** [JSON.parse] reads [v] back from what [JSON.stringify] wrote, with
    any fuel of at least the length written, whatever delimiter
    follows. *)
Definition readsBack (v : JSON.value) : Prop :=
  forall fuel rest,
    length (JSON.stringify v) <= fuel -> delimited rest ->
    JSON.parseValue fuel (JSON.stringify v ++ rest) = Some (v, rest).

(** The text of a member of an object. *)
Definition memberText (m : jsstring * JSON.value) : jsstring :=
  JSON.member JSON.stringify m.

(** The key under which [loadSessions] copies a text that it fails to
    load, and the four settings of a store. *)
Definition backupKey (now : Z) : jsstring :=
  sessionService.getStorageKey ++ lit "-backup-" ++ JSON.integerToString now.

Definition settings (store : sessionService.Storage)
  : jsstring * jsstring * jsstring * jsstring :=
  (sessionService.loadStudyProfile store, sessionService.loadTheme store,
   sessionService.loadVoiceURI store, sessionService.loadLanguage store).

(** The texts that [onChunk] is called with, in order; and a callback
    that records them. *)
Definition delivered (cs : list geminiService.Chunk) : list jsstring :=
  List.filter JsString.truthy
    (List.map (fun c => geminiService.orEmpty (geminiService.text c)) cs).

Definition record (chunkText : jsstring) (log : list jsstring)
  : result (list jsstring) :=
  Ok (log ++ [chunkText]).

(** The message that replaces the placeholder of a turn that failed,
    and a session after such a turn, seen from the session before it. *)
Definition errorMessage (content : jsstring) (t1 : Z) : Message.t :=
  Message.mk (Some assistant) content None None (Some t1) None.

Definition failed (sessionId content : jsstring) (t1 : Z) (s : StudySession.t)
  : StudySession.t :=
  if App.isId sessionId s then
    StudySession.withMessages s
      (StudySession.messages s ++ [errorMessage content t1])
  else s.

(** A session after [handleDeleteMessage] at [messageIndex], when
    [active] is the active session. *)
Definition truncated (active : jsstring) (messageIndex : nat) (now : Z)
    (s : StudySession.t) : StudySession.t :=
  if App.isId active s then
    StudySession.withUpdatedAt
      (StudySession.withMessages s
         (firstn messageIndex (StudySession.messages s)))
      now
  else s.

(** [a] is listed before [b]: it was not updated earlier. *)
Definition latestFirst (a b : StudySession.t) : Prop :=
  (StudySession.updatedAt b <= StudySession.updatedAt a)%Z.

(** A text of Basic Latin and Latin-1 units. On such a text
    [JsString.toLowerCase] is the lower-casing of JavaScript, unit for
    unit; beyond them JavaScript maps letters that the model keeps, and
    U+0130 to two units. *)
Definition isLatin1 (s : jsstring) : bool :=
  forallb (fun c => (c <? 256)%N) s.

(** ** Concrete inputs *)

(** The payload of the specification's example, the fenced block that
    holds it, and the block arriving in two fragments. *)
Definition flashcardsPayload : JSON.value :=
  JSON.JObject
    [(lit "title", JSON.JString (lit "T"));
     (lit "flashcards",
      JSON.JArray
        [JSON.JObject
           [(lit "question", JSON.JString (lit "Q"));
            (lit "answer", JSON.JString (lit "A"));
            (lit "context", JSON.JString (lit "C"))]])].

Definition fenced (payload : jsstring) : jsstring :=
  lit "```json" ++ [10%N] ++ payload ++ [10%N] ++ lit "```".

Definition textChunk (t : jsstring) : geminiService.Chunk :=
  geminiService.Build_Chunk (Some t) None.

Definition inTwoFragments (t : jsstring) : list geminiService.Chunk :=
  [textChunk (firstn 20 t); textChunk (skipn 20 t)].

(** A payload with the three aids at once. *)
Definition allAidsPayload : JSON.value :=
  JSON.JObject
    [(lit "title", JSON.JString (lit "Cells"));
     (lit "quiz",
      JSON.JArray [JSON.JObject [(lit "question", JSON.JString (lit "Q1"))]]);
     (lit "flashcards",
      JSON.JArray [JSON.JObject [(lit "question", JSON.JString (lit "Q2"))]]);
     (lit "slides",
      JSON.JArray [JSON.JObject [(lit "title", JSON.JString (lit "Intro"))]])].

(** A fenced block with a trailing comma, after some prose. *)
Definition malformedText : jsstring := lit "Here you go: ```json [1,] ```".

(** Three sessions; the second is the most recently updated. *)
Definition threeSessions : list StudySession.t :=
  [emptySession (lit "s1") 10; emptySession (lit "s2") 30;
   emptySession (lit "s3") 20].

(** The state after two new sessions in one millisecond, from the
    empty state; and a panel of three titles. *)
Definition twinSessions : App.State :=
  App.handleNewSession 1700000000000
    (App.handleNewSession 1700000000000 (stateOf [] None)).

Definition titledSessions : list StudySession.t :=
  [StudySession.withTitle (emptySession (lit "s1") 10) (lit "Cell Biology");
   StudySession.withTitle (emptySession (lit "s2") 30) (lit "History");
   StudySession.withTitle (emptySession (lit "s3") 20) (lit "MICROBIOLOGY")].

(** A session with a transcript, sources and flashcards. *)
Definition storedSession : StudySession.t :=
  StudySession.mk (lit "1700000000000") (lit "Cells") 1700000000000
    1700000000500
    [Message.mk (Some user) (lit "What is a cell?") None None
       (Some 1700000000100%Z) (Some true);
     Message.mk (Some assistant) (lit "The unit of life.") None
       (Some [citedFirst]) (Some 1700000000200%Z) None]
    [JSON.JObject [(lit "question", JSON.JString (lit "Q"))]]
    (JSON.JString (lit "T")) [] (JSON.JString []) [] (JSON.JString [])
    [] [].

(** A store whose sessions item does not parse. *)
Definition corruptedText : jsstring := lit "{oops".

Definition corruptedStore : sessionService.Storage :=
  [(sessionService.getStorageKey, corruptedText)].

(** The members of an envelope that a later version of the application
    wrote, with one stored value. *)
Definition storedValue : JSON.value :=
  JSON.JObject [(lit "id", JSON.JString (lit "s1"))].

Definition futureEnvelope : list (jsstring * JSON.value) :=
  [(lit "version", JSON.JNumber (JSON.Int 7));
   (lit "sessions", JSON.JArray [storedValue])].

(** An envelope whose version is the text of a number. *)
Definition textVersionEnvelope : list (jsstring * JSON.value) :=
  [(lit "version", JSON.JString (lit "2"));
   (lit "sessions", JSON.JArray [storedValue])].

(** A stream of two fragments; the second cites a page. *)
Definition citingStream : geminiService.Stream :=
  geminiService.Build_Stream
    [textChunk (lit "Cells ");
     geminiService.Build_Chunk (Some (lit "divide."))
       (Some
          [geminiService.Build_GroundingChunk None
             (Some
                (geminiService.Build_Web (Some (lit "https://example.org/cell"))
                   (Some (lit "Cell"))))])]
    None.

(** The type and the data of a data URL. *)
Definition pngType : jsstring := lit "image/png".
Definition pngData : jsstring := lit "iVBORw0KGgo=".


(** Seven suggestions, as the text of a response. *)
Definition sevenSuggestions : jsstring :=
  JSON.stringify
    (JSON.JArray
       (List.map (fun n => JSON.JNumber (JSON.Int n)) [1; 2; 3; 4; 5; 6; 7]%Z)).

(** * Properties *)

(** ** Strings and arrays *)

Lemma eqb_eq (a b : jsstring) : JsString.eqb a b = true <-> a = b.
Proof.
  revert b; induction a as [|x a IH]; intros [|y b]; simpl; split;
    try congruence; try reflexivity.
  - intros H. apply andb_true_iff in H as [Hx Ha].
    apply N.eqb_eq in Hx. apply IH in Ha. congruence.
  - intros H. injection H as -> ->. rewrite N.eqb_refl. simpl.
    now apply IH.
Qed.

Lemma eqb_refl (a : jsstring) : JsString.eqb a a = true.
Proof. now apply eqb_eq. Qed.

Lemma eqb_neq (a b : jsstring) : JsString.eqb a b = false <-> a <> b.
Proof.
  split.
  - intros H E. apply eqb_eq in E. congruence.
  - intros H. destruct (JsString.eqb a b) eqn:E; [|reflexivity].
    apply eqb_eq in E. contradiction.
Qed.

Lemma stripPrefix_Some (p s rest : jsstring) :
  JsString.stripPrefix p s = Some rest -> s = p ++ rest.
Proof.
  revert s; induction p as [|x p IH]; intros s; simpl.
  - congruence.
  - destruct s as [|y s]; [discriminate|].
    destruct (N.eqb x y) eqn:E; [|discriminate].
    apply N.eqb_eq in E. subst y. intros H. now rewrite (IH _ H).
Qed.

Lemma stripPrefix_app (p rest : jsstring) :
  JsString.stripPrefix p (p ++ rest) = Some rest.
Proof.
  induction p as [|x p IH]; simpl; [reflexivity|].
  now rewrite N.eqb_refl.
Qed.

Lemma lastOf_snoc {A : Type} (l : list A) (x : A) : lastOf (l ++ [x]) = Some x.
Proof.
  induction l as [|y l IH]; [reflexivity|].
  simpl. destruct (l ++ [x]) eqn:E; [|exact IH].
  destruct l; discriminate.
Qed.

Lemma consumed_app (m rest : jsstring) : RegExp.consumed (m ++ rest) rest = m.
Proof.
  unfold RegExp.consumed. rewrite length_app.
  replace (length m + length rest - length rest) with (length m) by lia.
  rewrite firstn_app, Nat.sub_diag, firstn_all. simpl. apply app_nil_r.
Qed.

(** ** The fence pattern *)

Lemma starGreedy_sound {R : Type} cls (s : jsstring) (k : jsstring -> option R) r :
  RegExp.starGreedy cls s k = Some r ->
  exists w rest, s = w ++ rest /\ k rest = Some r.
Proof.
  induction s as [|c s IH]; simpl; intros H.
  - exists [], []. auto.
  - destruct (cls c).
    + destruct (RegExp.starGreedy cls s k) eqn:E.
      * injection H as ->. destruct (IH eq_refl) as (w & rest & -> & Hk).
        exists (c :: w), rest. auto.
      * exists [], (c :: s). auto.
    + exists [], (c :: s). auto.
Qed.

Lemma starLazy_sound {R : Type} cls (s : jsstring) (k : jsstring -> option R) r :
  RegExp.starLazy cls s k = Some r ->
  exists w rest, s = w ++ rest /\ k rest = Some r.
Proof.
  induction s as [|c s IH]; simpl; intros H.
  - destruct (k []) eqn:E; [|discriminate]. exists [], []. split; [reflexivity|congruence].
  - destruct (k (c :: s)) eqn:E.
    + exists [], (c :: s). split; [reflexivity|congruence].
    + destruct (cls c); [|discriminate].
      destruct (IH H) as (w & rest & -> & Hk).
      exists (c :: w), rest. auto.
Qed.

(** A match of the fence pattern at the start of [s]: what it matched is
    an opening fence, a body and a closing fence. *)
Lemma matchAt_fence_sound (s m0 : jsstring) cap :
  RegExp.matchAt App.fence s = Some (m0, cap) ->
  exists inner rest,
    s = lit "```json" ++ inner ++ lit "```" ++ rest
    /\ m0 = lit "```json" ++ inner ++ lit "```".
Proof.
  unfold RegExp.matchAt, App.fence. cbn [RegExp.run].
  destruct (JsString.stripPrefix (lit "```json") s) as [s1|] eqn:E1; [|discriminate].
  apply stripPrefix_Some in E1. intros H.
  apply starGreedy_sound in H as (w1 & s2 & -> & H).
  apply starLazy_sound in H as (body & s3 & -> & H).
  apply starGreedy_sound in H as (w2 & s4 & -> & H).
  destruct (JsString.stripPrefix (lit "```") s4) as [rest|] eqn:E2; [|discriminate].
  apply stripPrefix_Some in E2. injection H as H _.
  exists (w1 ++ body ++ w2), rest. subst s4 s.
  assert (E : lit "```json" ++ w1 ++ body ++ w2 ++ lit "```" ++ rest
              = (lit "```json" ++ (w1 ++ body ++ w2) ++ lit "```") ++ rest)
    by (now rewrite <- !app_assoc).
  split.
  - now rewrite <- !app_assoc.
  - rewrite <- H, E. apply consumed_app.
Qed.

Lemma String_match_fence_sound (s m0 : jsstring) cap :
  RegExp.String_match s App.fence = Some (m0, cap) ->
  exists before inner after,
    s = before ++ lit "```json" ++ inner ++ lit "```" ++ after.
Proof.
  induction s as [|c s IH]; simpl.
  - destruct (RegExp.matchAt App.fence []) as [[m c']|] eqn:E; [|discriminate].
    intros _. apply matchAt_fence_sound in E as (inner & rest & E & _).
    exists [], inner, rest. exact E.
  - destruct (RegExp.matchAt App.fence (c :: s)) as [[m c']|] eqn:E.
    + intros _. apply matchAt_fence_sound in E as (inner & rest & E & _).
      exists [], inner, rest. exact E.
    + intros H. destruct (IH H) as (before & inner & after & ->).
      exists (c :: before), inner, after. reflexivity.
Qed.

(** The other direction, for a body without a backquote: a text that is
    an opening fence, white space, a body that neither starts nor ends
    with white space, white space and a closing fence is matched as a
    whole, and the capture is the body. *)

Lemma starGreedy_all {R : Type} cls (w s : jsstring)
    (k : jsstring -> option R) r :
  Forall (fun c => cls c = true) w ->
  match s with [] => True | c :: _ => cls c = false end ->
  k s = Some r ->
  RegExp.starGreedy cls (w ++ s) k = Some r.
Proof.
  intros Hw Hs Hk. induction Hw as [|c w Hc _ IH]; cbn [app].
  - destruct s as [|c s]; cbn [RegExp.starGreedy]; [exact Hk|].
    now rewrite Hs.
  - cbn [RegExp.starGreedy]. now rewrite Hc, IH.
Qed.

Lemma starGreedy_none {R : Type} cls (s : jsstring)
    (k : jsstring -> option R) :
  (forall w s', s = w ++ s' -> Forall (fun c => cls c = true) w ->
                k s' = None) ->
  RegExp.starGreedy cls s k = None.
Proof.
  induction s as [|c s IH]; intros H; cbn [RegExp.starGreedy].
  - now apply (H []).
  - assert (K : k (c :: s) = None) by now apply (H []).
    destruct (cls c) eqn:E; [|exact K].
    rewrite IH; [exact K|]. intros w s' -> Hw. apply (H (c :: w)); auto.
Qed.

Lemma starLazy_first {R : Type} (pre s : jsstring)
    (k : jsstring -> option R) r :
  (forall p1 c p2, pre = p1 ++ c :: p2 -> k ((c :: p2) ++ s) = None) ->
  k s = Some r ->
  RegExp.starLazy RegExp.any (pre ++ s) k = Some r.
Proof.
  induction pre as [|c pre IH]; intros Hn Hk; cbn [app].
  - destruct s; cbn [RegExp.starLazy]; now rewrite Hk.
  - cbn [RegExp.starLazy]. pose proof (Hn [] c pre eq_refl) as K.
    cbn [app] in K. rewrite K. cbn [RegExp.any].
    apply IH; [|exact Hk]. intros p1 c' p2 ->. now apply (Hn (c :: p1)).
Qed.

Lemma lastOf_app {A : Type} (p : list A) (x : A) (q : list A) :
  lastOf (p ++ x :: q) = lastOf (x :: q).
Proof.
  induction p as [|a p IH]; [reflexivity|]. cbn [app].
  change (lastOf (a :: p ++ x :: q))
    with (match p ++ x :: q with [] => Some a | _ :: _ => lastOf (p ++ x :: q) end).
  destruct (p ++ x :: q) eqn:E; [now destruct p|]. exact IH.
Qed.

Lemma lastOf_Some {A : Type} (q : list A) (d : A) :
  lastOf q = Some d -> exists q', q = q' ++ [d].
Proof.
  induction q as [|a q IH]; [discriminate|]. destruct q as [|b q].
  - intros [= ->]. now exists [].
  - intros H. destruct (IH H) as (q' & E). exists (a :: q'). cbn. now rewrite E.
Qed.

(** After white space, a text whose last unit before [rest] is not
    white space still has a unit of its own in front. *)
Lemma white_prefix_stops (cls : N -> bool) (w : jsstring) :
  forall q d rest s',
    w ++ s' = q ++ d :: rest ->
    Forall (fun c => cls c = true) w -> cls d = false ->
    exists y s'', s' = y :: s'' /\ In y (q ++ [d]).
Proof.
  induction w as [|a w IH]; intros q d rest s' E Hw Hd.
  - cbn in E. subst s'. destruct q as [|b q]; cbn.
    + exists d, rest. auto.
    + exists b, (q ++ d :: rest). auto.
  - inversion Hw as [|? ? Ha Hw']; subst. destruct q as [|b q]; cbn in E.
    + injection E as -> _. congruence.
    + injection E as -> E. destruct (IH _ _ _ _ E Hw' Hd) as (y & s'' & -> & Hin).
      exists y, s''. split; [reflexivity|now right].
Qed.

Lemma String_match_here (r : RegExp.regex) (s : jsstring) m :
  RegExp.matchAt r s = Some m -> RegExp.String_match s r = Some m.
Proof. intros H. destruct s; cbn [RegExp.String_match]; now rewrite H. Qed.

Lemma stripPrefix_backquote (c : N) (s : jsstring) :
  c <> 96%N -> JsString.stripPrefix (lit "```") (c :: s) = None.
Proof.
  intros H. change (lit "```") with [96%N; 96%N; 96%N].
  cbn [JsString.stripPrefix].
  assert (E : (96 =? c)%N = false) by (apply N.eqb_neq; congruence).
  now rewrite E.
Qed.

(** X24. A response that is exactly one fenced block, the opening
    fence, white space, a body without a backquote that neither starts
    nor ends with white space, white space and the closing fence, is
    matched as a whole by the pattern of [processResponse], and what
    the pattern captures is the body without the white space around
    it. *)
Lemma fenced_block_matches (ws1 body ws2 : jsstring) c body' d :
  Forall (fun x => JsString.isWhiteSpace x = true) ws1 ->
  Forall (fun x => JsString.isWhiteSpace x = true) ws2 ->
  body = c :: body' ->
  JsString.isWhiteSpace c = false ->
  lastOf body = Some d ->
  JsString.isWhiteSpace d = false ->
  ~ In 96%N body ->
  let text := lit "```json" ++ ws1 ++ body ++ ws2 ++ lit "```" in
  RegExp.String_match text App.fence = Some (text, Some body).
Proof.
  intros H1 H2 Eb Hc Hl Hd Hq text.
  assert (M : RegExp.matchAt App.fence text = Some (text, Some body)).
  { unfold RegExp.matchAt, App.fence, text. cbn [RegExp.run].
    rewrite stripPrefix_app.
    apply starGreedy_all; [exact H1|now rewrite Eb|].
    apply starLazy_first.
    - intros p1 x p2 E. apply starGreedy_none. intros w s' Es Hw.
      assert (L : lastOf (x :: p2) = Some d)
        by (rewrite <- Hl, E; symmetry; apply lastOf_app).
      apply lastOf_Some in L as (q & Eq). rewrite Eq, <- app_assoc in Es.
      cbn [app] in Es. symmetry in Es.
      destruct (white_prefix_stops _ _ _ _ _ _ Es Hw Hd) as (y & s'' & -> & Hy).
      rewrite stripPrefix_backquote; [reflexivity|].
      intros ->. apply Hq. rewrite E. rewrite <- Eq in Hy.
      apply in_or_app. now right.
    - apply starGreedy_all; [exact H2|reflexivity|].
      change (JsString.stripPrefix (lit "```") (lit "```"))
        with (Some (@nil N)).
      cbv iota. unfold RegExp.consumed at 1.
      cbn [length]. rewrite Nat.sub_0_r, firstn_all.
      now rewrite consumed_app. }
  now apply String_match_here.
Qed.

(** ** The chat turn *)

Lemma addPlaceholder_streaming sid t0 ss :
  App.addPlaceholder sid t0 ss = streaming sid t0 [] ss.
Proof. reflexivity. Qed.

Lemma onChunk_streaming sid t0 received chunkText ss :
  App.onChunk sid chunkText (streaming sid t0 received ss)
  = Ok (streaming sid t0 (received ++ chunkText) ss).
Proof.
  unfold App.onChunk. induction ss as [|s ss IH]; [reflexivity|].
  cbn [streaming List.map mapM]. fold (streaming sid t0 received ss).
  fold (streaming sid t0 (received ++ chunkText) ss). rewrite IH.
  unfold App.appendChunk.
  destruct (App.isId sid s) eqn:E.
  - replace (App.isId sid (StudySession.withMessages s _)) with true
      by (symmetry; exact E).
    cbn [StudySession.withMessages StudySession.messages].
    rewrite lastOf_snoc, removelast_last. reflexivity.
  - rewrite E. reflexivity.
Qed.

Lemma consume_streaming sid t0 cs : forall fullText allSources received ss,
  geminiService.consume (App.onChunk sid) cs fullText allSources
    (streaming sid t0 received ss)
  = Ok (fullText ++ geminiService.streamedText cs,
        allSources ++ geminiService.collectedSources cs,
        streaming sid t0 (received ++ geminiService.streamedText cs) ss).
Proof.
  induction cs as [|c cs IH]; intros fullText allSources received ss.
  - cbn. now rewrite !List.app_nil_r.
  - cbn [geminiService.consume geminiService.streamedText
         geminiService.collectedSources List.map List.concat List.flat_map].
    fold (geminiService.streamedText cs). fold (geminiService.collectedSources cs).
    destruct (geminiService.truthyString (geminiService.text c)) eqn:E.
    + rewrite onChunk_streaming. cbn [bind]. rewrite IH.
      now rewrite <- !app_assoc.
    + rewrite IH.
      assert (T : geminiService.orEmpty (geminiService.text c) = []).
      { destruct (geminiService.text c) as [[|u t]|]; simpl in *; congruence. }
      rewrite T. cbn [app]. now rewrite <- !app_assoc.
Qed.

Lemma reconcile_streaming sid e sources t0 t1 received ss :
  List.map (App.reconcile sid e sources t1) (streaming sid t0 received ss)
  = List.map (finished sid e sources t0 t1) ss.
Proof.
  unfold streaming. rewrite List.map_map. apply List.map_ext. intros s.
  unfold App.reconcile, finished. destruct (App.isId sid s) eqn:E.
  - replace (App.isId sid (StudySession.withMessages s _)) with true
      by (symmetry; exact E).
    cbn [StudySession.withMessages StudySession.messages StudySession.id
         StudySession.title StudySession.createdAt StudySession.flashcards
         StudySession.flashcardsTitle StudySession.quizItems
         StudySession.quizTitle StudySession.slides StudySession.slidesTitle
         StudySession.documentContext StudySession.documentSummary].
    rewrite lastOf_snoc, removelast_last. reflexivity.
  - rewrite E. reflexivity.
Qed.

(** A turn whose stream completes never throws; it leaves the sessions
    as [finished] describes, with the extraction of the whole text. *)
Lemma processResponse_completes sid cs t0 t1 st :
  let fullText := geminiService.streamedText cs in
  let e := App.extractStudyAids fullText in
  App.processResponse sid (completes cs) t0 t1 st
  = Ok (App.mkState
          (List.map
             (finished sid e
                (geminiService.dedupe (geminiService.collectedSources cs))
                t0 t1)
             (App.sessions st))
          (App.activeSessionId st)
          (match App.modeSet e with
           | Some mode => mode
           | None => App.studyMode st
           end)
          false (App.notifications st)).
Proof.
  intros fullText e. unfold App.processResponse, geminiService.getChatResponse.
  rewrite addPlaceholder_streaming, consume_streaming.
  cbn [bind completes geminiService.failure geminiService.chunks app].
  now rewrite reconcile_streaming.
Qed.

Lemma Forall2_map_r {A B : Type} (R : A -> B -> Prop) (f : A -> B) (l : list A) :
  (forall a, R a (f a)) -> Forall2 R l (List.map f l).
Proof. intros H. induction l; simpl; constructor; auto. Qed.

Lemma noFencedJson_extract (text : jsstring) :
  noFencedJson text -> App.extractStudyAids text = App.noExtraction text.
Proof.
  intros H. unfold App.extractStudyAids.
  destruct (RegExp.String_match text App.fence) as [[m0 cap]|] eqn:E;
    [|reflexivity].
  apply String_match_fence_sound in E as (before & inner & after & E).
  now apply H in E.
Qed.

Lemma parse_failure_extract (text m0 m1 : jsstring) (e : Exception) :
  RegExp.String_match text App.fence = Some (m0, Some m1) ->
  JSON.parse m1 = Throw e ->
  App.extractStudyAids text = App.noExtraction text.
Proof.
  intros Hm Hp. unfold App.extractStudyAids, App.readStudyAids.
  rewrite Hm, Hp. cbn [bind]. now destruct (JsString.truthy m1).
Qed.

(** A fence that holds [null] parses, reading its title throws, and the
    text is kept as well. *)
Lemma null_payload_extract (text m0 m1 : jsstring) :
  RegExp.String_match text App.fence = Some (m0, Some m1) ->
  JSON.parse m1 = Ok JSON.JNull ->
  App.extractStudyAids text = App.noExtraction text.
Proof.
  intros Hm Hp. unfold App.extractStudyAids, App.readStudyAids.
  rewrite Hm, Hp. cbn [bind JSON.get]. now destruct (JsString.truthy m1).
Qed.

(** What the extraction is when the fence holds an object. *)
Lemma object_extract (text m0 m1 : jsstring) ms :
  RegExp.String_match text App.fence = Some (m0, Some m1) ->
  JSON.parse m1 = Ok (JSON.JObject ms) ->
  let quiz := aidOf (lit "quiz") ms in
  let cards := aidOf (lit "flashcards") ms in
  let deck := aidOf (lit "slides") ms in
  App.extractStudyAids text
  = App.mkExtraction
      (if App.isNonEmpty quiz || App.isNonEmpty cards || App.isNonEmpty deck
       then
         if JsString.truthy (JsString.trim (JsString.replace text m0 []))
         then JsString.trim (JsString.replace text m0 [])
         else App.fallbackText (titleOf ms)
       else text)
      cards quiz deck (titleOf ms)
      (if App.isNonEmpty deck then Some App.Slides
       else if App.isNonEmpty cards then Some App.Flashcards
       else if App.isNonEmpty quiz then Some App.Quiz
       else None).
Proof.
  intros Hm Hp quiz cards deck. unfold App.extractStudyAids, App.readStudyAids.
  rewrite Hm. destruct m1 as [|c m1]; [discriminate Hp|].
  cbn [JsString.truthy]. rewrite Hp. cbn [bind JSON.get].
  unfold titleOf. subst quiz cards deck. unfold aidOf.
  destruct (JSON.lookup (lit "title") ms); reflexivity.
Qed.

Lemma replace_self (s : jsstring) : JsString.replace s s [] = [].
Proof.
  assert (H : JsString.stripPrefix s s = Some []).
  { rewrite <- (List.app_nil_r s) at 2. apply stripPrefix_app. }
  destruct s as [|c s]; [reflexivity|].
  cbn [JsString.replace]. now rewrite H.
Qed.

(** C2. When the concatenation of the fragments of a stream holds no
    fenced json block, the turn ends with the assistant message whose
    content is exactly that concatenation, in the order of arrival; the
    aid slots of the session, the other sessions and the display mode
    are as before. *)
Theorem plain_stream_is_concatenated sid cs t0 t1 st :
  noFencedJson (geminiService.streamedText cs) ->
  exists st',
    App.processResponse sid (completes cs) t0 t1 st = Ok st'
    /\ App.studyMode st' = App.studyMode st
    /\ Forall2
         (fun s s' =>
            if App.isId sid s then
              StudySession.messages s'
              = StudySession.messages s
                ++ [assistantMessage (geminiService.streamedText cs)
                      (geminiService.dedupe (geminiService.collectedSources cs))
                      t0]
              /\ sameAids s s'
            else s' = s)
         (App.sessions st) (App.sessions st').
Proof.
  intros H. eexists. split; [apply processResponse_completes|].
  rewrite (noFencedJson_extract _ H). cbn. split; [reflexivity|].
  apply Forall2_map_r. intros s. unfold finished.
  destruct (App.isId sid s); [|reflexivity].
  cbn. repeat split.
Qed.

(** C3. When the fenced block of the accumulated text does not parse,
    the final message holds the whole text, fence included; no aid slot
    and no other session changes, the display mode is kept and no
    notification is raised. *)
Theorem malformed_json_is_kept_as_text sid cs t0 t1 st m0 m1 e :
  RegExp.String_match (geminiService.streamedText cs) App.fence
  = Some (m0, Some m1) ->
  JSON.parse m1 = Throw e ->
  exists st',
    App.processResponse sid (completes cs) t0 t1 st = Ok st'
    /\ App.studyMode st' = App.studyMode st
    /\ App.notifications st' = App.notifications st
    /\ Forall2
         (fun s s' =>
            if App.isId sid s then
              StudySession.messages s'
              = StudySession.messages s
                ++ [assistantMessage (geminiService.streamedText cs)
                      (geminiService.dedupe (geminiService.collectedSources cs))
                      t0]
              /\ sameAids s s'
            else s' = s)
         (App.sessions st) (App.sessions st').
Proof.
  intros Hm Hp. eexists. split; [apply processResponse_completes|].
  rewrite (parse_failure_extract _ _ _ _ Hm Hp). cbn.
  split; [reflexivity|]. split; [reflexivity|].
  apply Forall2_map_r. intros s. unfold finished.
  destruct (App.isId sid s); [|reflexivity].
  cbn. repeat split.
Qed.

(** C1. When the accumulated text is exactly one fenced block (the
    pattern matches the whole text; by [fenced_block_matches] every
    fenced body without a backquote is such a text) whose contents
    parse to an object with the title [T] and a non-empty [flashcards]
    array (and no slides), the session gets that title and that array
    in its flashcards slot, the display mode becomes flashcards, and
    the visible message is the sentence made from the title. *)
Theorem flashcards_block_is_extracted sid cs t0 t1 st body ms T card cards :
  RegExp.String_match (geminiService.streamedText cs) App.fence
  = Some (geminiService.streamedText cs, Some body) ->
  JSON.parse body = Ok (JSON.JObject ms) ->
  JSON.lookup (lit "title") ms = Some (JSON.JString T) ->
  JSON.lookup (lit "flashcards") ms = Some (JSON.JArray (card :: cards)) ->
  aidOf (lit "slides") ms = [] ->
  exists st',
    App.processResponse sid (completes cs) t0 t1 st = Ok st'
    /\ App.studyMode st' = App.Flashcards
    /\ Forall2
         (fun s s' =>
            if App.isId sid s then
              StudySession.flashcardsTitle s' = JSON.JString T
              /\ StudySession.flashcards s' = card :: cards
              /\ StudySession.messages s'
                 = StudySession.messages s
                   ++ [assistantMessage
                         (lit "I've created the " ++ [34%N] ++ T ++ [34%N]
                          ++ lit " for you.")
                         (geminiService.dedupe
                            (geminiService.collectedSources cs))
                         t0]
            else s' = s)
         (App.sessions st) (App.sessions st').
Proof.
  intros Hm Hp Ht Hf Hs. eexists. split; [apply processResponse_completes|].
  rewrite (object_extract _ _ _ _ Hm Hp). unfold aidOf in *.
  rewrite Hf, Hs. unfold titleOf. rewrite Ht.
  assert (E : (if JSON.truthy (Some (JSON.JString T)) then JSON.JString T
               else JSON.JString []) = JSON.JString T) by now destruct T.
  rewrite E. rewrite replace_self.
  destruct (App.nonEmptyArray (JSON.lookup (lit "quiz") ms)) as [|q quiz].
  all: cbn [App.nonEmptyArray App.isNonEmpty orb JsString.trim JsString.trimStart
       JsString.trimEnd rev JsString.truthy App.modeSet App.studyMode
       App.sessions].
  all: split; [reflexivity|].
  all: apply Forall2_map_r; intros s; unfold finished.
  all: destruct (App.isId sid s); [|reflexivity].
  all: cbn; repeat split.
Qed.

(** C4. When the fenced block parses to an object, every aid among
    quiz, flashcards and slides that is a non-empty array replaces its
    slot of the session and its title, and the display mode is the one
    set last in the order quiz, flashcards, slides. *)
Theorem every_present_aid_is_stored sid cs t0 t1 st m0 m1 ms :
  RegExp.String_match (geminiService.streamedText cs) App.fence
  = Some (m0, Some m1) ->
  JSON.parse m1 = Ok (JSON.JObject ms) ->
  let quiz := aidOf (lit "quiz") ms in
  let cards := aidOf (lit "flashcards") ms in
  let deck := aidOf (lit "slides") ms in
  exists st',
    App.processResponse sid (completes cs) t0 t1 st = Ok st'
    /\ App.studyMode st'
       = (if App.isNonEmpty deck then App.Slides
          else if App.isNonEmpty cards then App.Flashcards
          else if App.isNonEmpty quiz then App.Quiz
          else App.studyMode st)
    /\ Forall2
         (fun s s' =>
            if App.isId sid s then
              (quiz <> [] ->
               StudySession.quizItems s' = quiz
               /\ StudySession.quizTitle s' = titleOf ms)
              /\ (cards <> [] ->
                  StudySession.flashcards s' = cards
                  /\ StudySession.flashcardsTitle s' = titleOf ms)
              /\ (deck <> [] ->
                  StudySession.slides s' = deck
                  /\ StudySession.slidesTitle s' = titleOf ms)
            else s' = s)
         (App.sessions st) (App.sessions st').
Proof.
  intros Hm Hp quiz cards deck. eexists.
  split; [apply processResponse_completes|].
  rewrite (object_extract _ _ _ _ Hm Hp).
  fold quiz cards deck. cbn [App.modeSet App.studyMode App.sessions].
  split.
  - destruct deck, cards, quiz; reflexivity.
  - apply Forall2_map_r. intros s. unfold finished.
    destruct (App.isId sid s); [|reflexivity].
    cbn. repeat split; destruct quiz, cards, deck; cbn; congruence.
Qed.

(** ** De-duplication of the sources *)

Section MapFacts.
Context {V : Type}.

Lemma ofEntries_snoc (l : list (jsstring * V)) (e : jsstring * V) :
  JsMap.ofEntries (l ++ [e]) = JsMap.set (fst e) (snd e) (JsMap.ofEntries l).
Proof. unfold JsMap.ofEntries. now rewrite fold_left_app. Qed.

Lemma set_keys (k : jsstring) (v : V) (m : list (jsstring * V)) :
  List.map fst (JsMap.set k v m)
  = if existsb (fun x => JsString.eqb x k) (List.map fst m)
    then List.map fst m
    else List.map fst m ++ [k].
Proof.
  induction m as [|[k' v'] m IH]; [reflexivity|].
  cbn [JsMap.set List.map fst existsb].
  destruct (JsString.eqb k' k); [reflexivity|].
  cbn [List.map fst orb]. rewrite IH.
  now destruct (existsb (fun x => JsString.eqb x k) (List.map fst m)).
Qed.

Lemma get_set (u k : jsstring) (v : V) (m : list (jsstring * V)) :
  JsMap.get u (JsMap.set k v m)
  = if JsString.eqb k u then Some v else JsMap.get u m.
Proof.
  induction m as [|[k' v'] m IH].
  - reflexivity.
  - cbn [JsMap.set]. destruct (JsString.eqb k' k) eqn:E.
    + apply eqb_eq in E. subst k'. cbn [JsMap.get].
      now destruct (JsString.eqb k u).
    + cbn [JsMap.get]. rewrite IH.
      destruct (JsString.eqb k' u) eqn:E'; [|reflexivity].
      apply eqb_eq in E'. subst k'.
      destruct (JsString.eqb k u) eqn:E2; [|reflexivity].
      apply eqb_eq in E2. subst k. now rewrite eqb_refl in E.
Qed.

Lemma get_NoDup (m : list (jsstring * V)) :
  NoDup (List.map fst m) ->
  Forall (fun e => JsMap.get (fst e) m = Some (snd e)) m.
Proof.
  induction m as [|[k v] m IH]; intros H; constructor.
  - cbn. now rewrite eqb_refl.
  - inversion H as [|? ? Hk Hm]; subst.
    eapply Forall_impl; [|apply Forall_and; [apply (IH Hm)|apply Forall_forall; intros e He; exact He]].
    intros [k' v'] [Hf Hin]. cbn [JsMap.get fst snd] in *.
    destruct (JsString.eqb k k') eqn:E; [|exact Hf].
    apply eqb_eq in E. subst k'. exfalso. apply Hk.
    change k with (fst (k, v')). now apply in_map.
Qed.

End MapFacts.

Lemma firstSeen_snoc (us : list jsstring) (u : jsstring) :
  firstSeen (us ++ [u])
  = if existsb (fun x => JsString.eqb x u) us then firstSeen us
    else firstSeen us ++ [u].
Proof.
  induction us as [|a us IH]; [reflexivity|].
  cbn [app firstSeen existsb]. rewrite IH.
  destruct (existsb (fun x => JsString.eqb x u) us).
  - now rewrite Bool.orb_true_r.
  - rewrite Bool.orb_false_r, filter_app. cbn [List.filter].
    destruct (JsString.eqb a u); cbn [negb]; [|reflexivity].
    now rewrite List.app_nil_r.
Qed.

Lemma firstSeen_incl (us : list jsstring) (x : jsstring) :
  In x (firstSeen us) -> In x us.
Proof.
  induction us as [|a us IH]; [easy|]. cbn [firstSeen].
  intros [->|H]; [now left|]. apply filter_In in H as [H _]. right. auto.
Qed.

Lemma firstSeen_NoDup (us : list jsstring) : NoDup (firstSeen us).
Proof.
  induction us as [|a us IH]; cbn [firstSeen]; constructor.
  - intros H. apply filter_In in H as [_ H]. now rewrite eqb_refl in H.
  - now apply NoDup_filter.
Qed.

Lemma lastWith_snoc (u : jsstring) (l : list Source.t) (s : Source.t) :
  lastWith u (l ++ [s])
  = if JsString.eqb (Source.uri s) u then Some s else lastWith u l.
Proof.
  induction l as [|a l IH]; cbn [app lastWith].
  - now destruct (JsString.eqb (Source.uri s) u).
  - rewrite IH. now destruct (JsString.eqb (Source.uri s) u).
Qed.

Lemma sourceEntries_keys (l : list Source.t) :
  List.map fst (JsMap.ofEntries (List.map (fun s => (Source.uri s, s)) l))
  = firstSeen (List.map Source.uri l).
Proof.
  induction l as [|s l IH] using rev_ind; [reflexivity|].
  rewrite !map_app. cbn [List.map].
  rewrite ofEntries_snoc, set_keys, firstSeen_snoc, IH. cbn [fst].
  assert (E : forall us,
             existsb (fun x => JsString.eqb x (Source.uri s)) (firstSeen us)
             = existsb (fun x => JsString.eqb x (Source.uri s)) us).
  { intros us. apply Bool.eq_true_iff_eq. rewrite !existsb_exists. split.
    - intros (x & Hin & Hx). exists x. split; [now apply firstSeen_incl|exact Hx].
    - intros (x & Hin & Hx). apply eqb_eq in Hx. subst x.
      exists (Source.uri s). split; [|apply eqb_refl].
      clear -Hin. induction us as [|a us IHus]; [easy|]. cbn [firstSeen].
      destruct (JsString.eqb a (Source.uri s)) eqn:Ea.
      + apply eqb_eq in Ea. now left.
      + right. apply filter_In. rewrite Ea. split; [|reflexivity].
        destruct Hin as [->|Hin]; [now rewrite eqb_refl in Ea|auto]. }
  now rewrite E.
Qed.

Lemma sourceEntries_find (l : list Source.t) (u : jsstring) :
  JsMap.get u (JsMap.ofEntries (List.map (fun s => (Source.uri s, s)) l)) = lastWith u l.
Proof.
  induction l as [|s l IH] using rev_ind; [reflexivity|].
  rewrite map_app. cbn [List.map].
  rewrite ofEntries_snoc, get_set, lastWith_snoc, IH. reflexivity.
Qed.

Lemma sourceEntries_values (l : list Source.t) :
  Forall (fun e => Source.uri (snd e) = fst e)
    (JsMap.ofEntries (List.map (fun s => (Source.uri s, s)) l)).
Proof.
  induction l as [|s l IH] using rev_ind; [constructor|].
  rewrite map_app. cbn [List.map].
  rewrite ofEntries_snoc. cbn [fst snd].
  induction (JsMap.ofEntries (List.map (fun s0 => (Source.uri s0, s0)) l))
    as [|[k v] m IHm].
  - now constructor.
  - cbn [JsMap.set]. inversion IH; subst.
    destruct (JsString.eqb k (Source.uri s)) eqn:E.
    + apply eqb_eq in E. constructor; [now cbn|assumption].
    + constructor; [assumption|auto].
Qed.

Lemma set_fresh {V : Type} (k : jsstring) (v : V) (m : list (jsstring * V)) :
  existsb (fun x => JsString.eqb x k) (List.map fst m) = false ->
  JsMap.set k v m = m ++ [(k, v)].
Proof.
  induction m as [|[k' v'] m IH]; [reflexivity|].
  cbn [List.map fst existsb JsMap.set app]. intros H.
  apply Bool.orb_false_iff in H as [H1 H2]. rewrite H1. now rewrite IH.
Qed.

(** Sources whose URIs are all distinct pass unchanged. *)
Lemma dedupe_distinct (l : list Source.t) :
  NoDup (List.map Source.uri l) -> geminiService.dedupe l = l.
Proof.
  unfold geminiService.dedupe, JsMap.values.
  induction l as [|s l IH] using rev_ind; [reflexivity|].
  rewrite !map_app. cbn [List.map]. intros H.
  apply NoDup_remove in H as [Hl Hs]. rewrite List.app_nil_r in Hl, Hs.
  rewrite ofEntries_snoc. cbn [fst snd]. rewrite set_fresh.
  - rewrite map_app, (IH Hl). reflexivity.
  - rewrite sourceEntries_keys.
    destruct (existsb (fun x => JsString.eqb x (Source.uri s))
                (firstSeen (List.map Source.uri l))) eqn:E; [|reflexivity].
    apply existsb_exists in E as (x & Hin & Hx). apply eqb_eq in Hx. subst x.
    now apply firstSeen_incl in Hin.
Qed.

(** C5, as the code has it. De-duplication leaves one source per URI, in
    the order in which the URIs were first seen, and the source kept
    for a URI is the last one seen with it. *)
Theorem dedupe_keeps_last_seen (l : list Source.t) :
  List.map Source.uri (geminiService.dedupe l)
  = firstSeen (List.map Source.uri l)
  /\ NoDup (List.map Source.uri (geminiService.dedupe l))
  /\ Forall (fun s => lastWith (Source.uri s) l = Some s)
       (geminiService.dedupe l).
Proof.
  unfold geminiService.dedupe, JsMap.values.
  pose proof (sourceEntries_keys l) as K.
  pose proof (sourceEntries_values l) as U.
  set (m := JsMap.ofEntries (List.map (fun s => (Source.uri s, s)) l)) in *.
  assert (E : List.map Source.uri (List.map snd m) = List.map fst m).
  { rewrite List.map_map. apply List.map_ext_Forall.
    eapply Forall_impl; [|exact U]. now intros e He. }
  split; [now rewrite E|]. split.
  - rewrite E, K. apply firstSeen_NoDup.
  - apply Forall_map.
    pose proof (get_NoDup m) as G. rewrite K in G.
    specialize (G (firstSeen_NoDup _)).
    apply Forall_forall. intros e He.
    rewrite Forall_forall in G, U.
    rewrite (U e He). subst m. rewrite <- sourceEntries_find. now apply G.
Qed.

(** C5, as the claim has it, fails: of two citations of one URI the
    second is kept, with its title, where the first was seen first. *)
Lemma dedupe_drops_first_seen_title :
  geminiService.dedupe [citedFirst; citedAgain] = [citedAgain]
  /\ List.find (fun s => JsString.eqb (Source.uri s) (Source.uri citedAgain))
       [citedFirst; citedAgain] = Some citedFirst
  /\ Source.title citedAgain <> Source.title citedFirst.
Proof.
  split; [reflexivity|]. split; [reflexivity|]. discriminate.
Qed.

(** ** Deleting a session *)

Lemma insertSorted_not_nil {A : Type} (compare : A -> A -> Z) x (l : list A) :
  insertSorted compare x l <> [].
Proof. destruct l; simpl; [|destruct (_ <=? _)%Z]; discriminate. Qed.

Lemma Array_sort_nil {A : Type} (compare : A -> A -> Z) (l : list A) :
  Array_sort compare l = [] -> l = [].
Proof.
  destruct l as [|x l]; [reflexivity|]. cbn. intros H.
  now apply insertSorted_not_nil in H.
Qed.

(** The head of the sorted sessions is the first session of the list
    that no other session exceeds in [updatedAt]. *)
Lemma sort_head_latest (l : list StudySession.t) s rest :
  Array_sort App.byUpdatedAtDescending l = s :: rest ->
  exists l1 l2,
    l = l1 ++ s :: l2
    /\ (forall s', In s' l1 ->
          (StudySession.updatedAt s' < StudySession.updatedAt s)%Z)
    /\ (forall s', In s' l2 ->
          (StudySession.updatedAt s' <= StudySession.updatedAt s)%Z).
Proof.
  revert s rest. induction l as [|x l IH]; intros s rest; [discriminate|].
  cbn [Array_sort fold_right]. fold (Array_sort App.byUpdatedAtDescending l).
  destruct (Array_sort App.byUpdatedAtDescending l) as [|y r] eqn:E.
  - apply Array_sort_nil in E. subst l. cbn. intros H. injection H as <- _.
    exists [], []. repeat split; intros s' [].
  - destruct (IH y r eq_refl) as (l1 & l2 & -> & H1 & H2).
    cbn [insertSorted]. unfold App.byUpdatedAtDescending at 1.
    destruct (_ <=? 0)%Z eqn:C; intros H; injection H as <- _.
    + apply Z.leb_le in C. exists [], (l1 ++ y :: l2).
      repeat split; [intros s' []|].
      intros s' Hin. apply in_app_or in Hin as [Hin|[<-|Hin]].
      * specialize (H1 _ Hin). lia.
      * lia.
      * specialize (H2 _ Hin). lia.
    + apply Z.leb_gt in C. exists (x :: l1), l2. repeat split; [|exact H2].
      intros s' [<-|Hin]; [lia|auto].
Qed.

Lemma filter_other_ids sid (l1 l2 : list StudySession.t) s :
  StudySession.id s = sid ->
  NoDup (List.map StudySession.id (l1 ++ s :: l2)) ->
  List.filter (fun x => negb (App.isId sid x)) (l1 ++ s :: l2) = l1 ++ l2.
Proof.
  intros Hs Hn. rewrite map_app in Hn. cbn [List.map] in Hn.
  pose proof (NoDup_remove_2 _ _ _ Hn) as Hnot.
  rewrite filter_app. cbn [List.filter]. unfold App.isId at 2.
  rewrite Hs, eqb_refl. cbn [negb].
  assert (K : forall l, ~ In sid (List.map StudySession.id l) ->
                        List.filter (fun x => negb (App.isId sid x)) l = l).
  { induction l as [|a l IHl]; [reflexivity|]. cbn [List.map List.filter In].
    intros Hl. unfold App.isId at 1.
    destruct (JsString.eqb (StudySession.id a) sid) eqn:E.
    - apply eqb_eq in E. exfalso. apply Hl. now left.
    - cbn [negb]. f_equal. apply IHl. intros Hin. apply Hl. now right. }
  rewrite Hs in Hnot.
  rewrite !K; [reflexivity| |]; intros Hin; apply Hnot, in_or_app; auto.
Qed.

(** C7, as the code has it. Deleting a session removes every session
    of that id and keeps the sessions with another id, in their order;
    with distinct ids this removes exactly the deleted session. If the
    deleted session was the active one, the new active session is a
    remaining session that none exceeds in [updatedAt], or none when no
    session remains; of two sessions with different ids the other
    becomes active. Otherwise the active session is kept. *)
Theorem delete_session_activates_latest sid st :
  let st' := App.handleDeleteSession sid st in
  App.sessions st'
  = List.filter (fun s => negb (App.isId sid s)) (App.sessions st)
  /\ (forall l1 s l2,
        App.sessions st = l1 ++ s :: l2 -> StudySession.id s = sid ->
        NoDup (List.map StudySession.id (App.sessions st)) ->
        App.sessions st' = l1 ++ l2)
  /\ (App.activeSessionId st = Some sid ->
      match App.sessions st' with
      | [] => App.activeSessionId st' = None
      | _ :: _ =>
          exists s,
            In s (App.sessions st')
            /\ App.activeSessionId st' = Some (StudySession.id s)
            /\ forall s', In s' (App.sessions st') ->
                 (StudySession.updatedAt s' <= StudySession.updatedAt s)%Z
      end)
  /\ (forall a b,
        App.activeSessionId st = Some sid ->
        StudySession.id a <> StudySession.id b ->
        (App.sessions st = [a; b] /\ StudySession.id a = sid
         \/ App.sessions st = [b; a] /\ StudySession.id a = sid) ->
        App.activeSessionId st' = Some (StudySession.id b))
  /\ (App.activeSessionId st <> Some sid ->
      App.activeSessionId st' = App.activeSessionId st).
Proof.
  cbn zeta. unfold App.handleDeleteSession. cbn [App.sessions App.activeSessionId].
  split; [reflexivity|]. split; [|split; [|split]].
  - intros l1 s l2 E Hs Hn. rewrite E in *. now apply filter_other_ids.
  - intros ->. rewrite eqb_refl.
    destruct (Array_sort _ _) as [|s r] eqn:E.
    + apply Array_sort_nil in E. now rewrite E.
    + destruct (sort_head_latest _ _ _ E) as (l1 & l2 & -> & H1 & H2).
      destruct (l1 ++ s :: l2) eqn:E'; [now destruct l1|]. rewrite <- E'.
      exists s. repeat split; [apply in_or_app; right; now left|].
      intros s' Hin. apply in_app_or in Hin as [Hin|[<-|Hin]].
      * specialize (H1 _ Hin). lia.
      * lia.
      * auto.
  - intros a b -> Hab [[-> Ha]|[-> Ha]]; rewrite eqb_refl;
      cbn [List.filter]; unfold App.isId; rewrite Ha, eqb_refl;
      (assert (Eb : JsString.eqb (StudySession.id b) sid = false)
         by (apply eqb_neq; congruence));
      rewrite Eb; reflexivity.
  - intros H. destruct (App.activeSessionId st) as [a|]; [|reflexivity].
    destruct (JsString.eqb a sid) eqn:E; [|reflexivity].
    apply eqb_eq in E. congruence.
Qed.

(** C7, as the claim has it, fails: two sessions created in the same
    millisecond have one id, and deleting the active one of the two
    removes both, where exactly that session was to go and the other
    to become active. *)
Lemma delete_session_removes_every_session_of_the_id :
  App.sessions twinSessions
  = [sessionService.createNewSession 1700000000000;
     sessionService.createNewSession 1700000000000]
  /\ App.activeSessionId twinSessions = Some (lit "1700000000000")
  /\ App.sessions (App.handleDeleteSession (lit "1700000000000") twinSessions)
     = []
  /\ App.activeSessionId
       (App.handleDeleteSession (lit "1700000000000") twinSessions)
     = None.
Proof. repeat split. Qed.

(** ** The timestamp of a session *)

Lemma mapM_Forall2 {A B : Type} (R : A -> B -> Prop) (f : A -> result B)
    (l : list A) (l' : list B) :
  (forall a b, f a = Ok b -> R a b) -> mapM f l = Ok l' -> Forall2 R l l'.
Proof.
  intros Hf. revert l'. induction l as [|a l IH]; intros l'; cbn [mapM].
  - intros H. injection H as <-. constructor.
  - destruct (f a) as [b|e] eqn:E; [|discriminate]. cbn [bind].
    destruct (mapM f l) as [bs|e]; [|discriminate]. cbn [bind].
    intros H. injection H as <-. constructor; auto.
Qed.

(** C8, as the code has it. The last update of a turn and every update
    through [updateActiveSession], with fields or with a transform, set
    [updatedAt] of the session they change to the current time. The
    updates that append the user message of [handleSendMessage], that
    append a fragment of the stream and that store the summary of a
    document leave [updatedAt] as it was. *)
Theorem updatedAt_is_stamped_by_reconcile_and_update now :
  (forall sid e sources s,
     StudySession.updatedAt (App.reconcile sid e sources now s)
     = if App.isId sid s then now else StudySession.updatedAt s)
  /\ (forall update st,
        match App.activeSessionId st with
        | Some (c :: active) =>
            Forall2
              (fun s s' =>
                 if App.isId (c :: active) s
                 then StudySession.updatedAt s' = now
                 else s' = s)
              (App.sessions st)
              (App.sessions (App.updateActiveSession update now st))
        | _ => App.updateActiveSession update now st = st
        end)
  /\ (forall sid userMessage titleContent prev,
        List.map StudySession.updatedAt
          (App.addUserMessage sid userMessage titleContent prev)
        = List.map StudySession.updatedAt prev)
  /\ (forall sid chunkText prev,
        match App.onChunk sid chunkText prev with
        | Ok next =>
            List.map StudySession.updatedAt next
            = List.map StudySession.updatedAt prev
        | Throw _ => True
        end)
  /\ (forall sid summary prev,
        List.map StudySession.updatedAt
          (App.setDocumentSummary sid summary prev)
        = List.map StudySession.updatedAt prev).
Proof.
  split; [|split; [|split; [|split]]].
  - intros sid e sources s. unfold App.reconcile.
    now destruct (App.isId sid s).
  - intros update st. unfold App.updateActiveSession.
    destruct (App.activeSessionId st) as [[|c active]|]; try reflexivity.
    cbn [JsString.truthy App.setSessions App.sessions].
    apply Forall2_map_r. intros s.
    now destruct (App.isId (c :: active) s).
  - intros sid userMessage titleContent prev. unfold App.addUserMessage.
    rewrite List.map_map. apply List.map_ext. intros s.
    now destruct (App.isId sid s).
  - intros sid chunkText prev.
    destruct (App.onChunk sid chunkText prev) as [next|e] eqn:E; [|exact I].
    assert (F : Forall2
                  (fun s s' => StudySession.updatedAt s' = StudySession.updatedAt s)
                  prev next).
    { eapply mapM_Forall2; [|exact E]. intros s s'. unfold App.appendChunk.
      destruct (App.isId sid s); [|now intros [= <-]].
      destruct (lastOf (StudySession.messages s)) as [m|]; [|discriminate].
      destruct (Message.isAssistant m); now intros [= <-]. }
    clear E. induction F; cbn [List.map]; congruence.
  - intros sid summary prev. unfold App.setDocumentSummary.
    rewrite List.map_map. apply List.map_ext. intros s.
    now destruct (App.isId sid s).
Qed.

(** C8, as the claim has it, fails: the user message that
    [handleSendMessage] appends at time 200 leaves the session with
    its earlier [updatedAt]. *)
Lemma user_message_does_not_stamp_updatedAt :
  List.map StudySession.updatedAt
    (App.addUserMessage (lit "s1")
       (Message.mk (Some user) (lit "What is DNA?") None None (Some 200%Z)
          (Some false))
       (lit "What is DNA?") [emptySession (lit "s1") 100])
  = [100%Z]
  /\ 100%Z <> 200%Z.
Proof. split; [reflexivity|discriminate]. Qed.

(** ** A fragment that arrives late *)

(** A fragment for a session that is no longer in the list changes
    nothing. *)
Lemma onChunk_unknown_session sid chunkText (prev : list StudySession.t) :
  Forall (fun s => StudySession.id s <> sid) prev ->
  App.onChunk sid chunkText prev = Ok prev.
Proof.
  unfold App.onChunk. induction 1 as [|s l Hs _ IH]; [reflexivity|].
  cbn [mapM]. rewrite IH. unfold App.appendChunk, App.isId.
  apply eqb_neq in Hs. now rewrite Hs.
Qed.

(** A fragment for a session whose last message is not the
    assistant's changes nothing. *)
Lemma appendChunk_not_assistant sid chunkText s m :
  lastOf (StudySession.messages s) = Some m ->
  Message.isAssistant m = false ->
  App.appendChunk sid chunkText s = Ok s.
Proof.
  intros H1 H2. unfold App.appendChunk. rewrite H1, H2.
  now destruct (App.isId sid s).
Qed.

(** C9 fails on the code. While a response streams into the active
    session (its placeholder is the only message), the user deletes
    from the first message on; the next fragment finds no last message
    and the update throws. *)
Theorem chunk_after_deleting_all_messages_throws :
  let streamingState :=
    stateOf (App.addPlaceholder (lit "s1") 100 [emptySession (lit "s1") 50])
      (Some (lit "s1")) in
  let afterDelete := App.handleDeleteMessage 0 150 streamingState in
  List.map StudySession.messages (App.sessions afterDelete) = [[]]
  /\ App.onChunk (lit "s1") (lit "Hello") (App.sessions afterDelete)
     = Throw TypeError.
Proof. split; reflexivity. Qed.

(** ** Voice commands *)

(** A phrase of the static table wins over every dynamic rule. *)
Lemma static_command_first {A D : Type}
    (staticCommands : useVoiceCommands.CommandMap A)
    (dynamicCommands : list (useVoiceCommands.DynamicCommand D)) text a :
  useVoiceCommands.lookupCommand staticCommands
    (JsString.trim (JsString.toLowerCase text)) = Some a ->
  useVoiceCommands.processTranscript staticCommands dynamicCommands text
  = [useVoiceCommands.CallStatic a; useVoiceCommands.StopListening].
Proof. intros H. unfold useVoiceCommands.processTranscript. now rewrite H. Qed.

(** X26. A phrase that is [stop listening] or [cancel], in any case
    and with any white space around it, always stops the listening,
    whatever the tables hold, also when a table has a rule for it. *)
Lemma stop_phrase_stops {A D : Type}
    (staticCommands : useVoiceCommands.CommandMap A)
    (dynamicCommands : list (useVoiceCommands.DynamicCommand D)) text :
  JsString.trim (JsString.toLowerCase text) = lit "stop listening"
  \/ JsString.trim (JsString.toLowerCase text) = lit "cancel" ->
  In useVoiceCommands.StopListening
    (useVoiceCommands.processTranscript staticCommands dynamicCommands text).
Proof.
  intros H. unfold useVoiceCommands.processTranscript.
  destruct (useVoiceCommands.lookupCommand _ _); [right; now left|].
  destruct (useVoiceCommands.matchDynamic _ _ _) as [calls|] eqn:E.
  - revert E. generalize (JsString.trim (JsString.toLowerCase text)).
    intros lower. induction dynamicCommands as [|c cs IH]; [discriminate|].
    cbn [useVoiceCommands.matchDynamic].
    destruct (useVoiceCommands.matchKeyword _ _ _ _) as [calls'|] eqn:K; [|exact IH].
    intros [= <-]. revert K.
    induction (useVoiceCommands.keywords c) as [|k ks IHk]; [discriminate|].
    cbn [useVoiceCommands.matchKeyword].
    destruct (JsString.startsWith _ _); [|exact IHk].
    intros [= <-]. right. now left.
  - destruct H as [-> | ->]; now left.
Qed.

(** A transcript that matches no rule and is not a stop phrase calls
    nothing. *)
Lemma no_rule_no_call {A D : Type}
    (staticCommands : useVoiceCommands.CommandMap A)
    (dynamicCommands : list (useVoiceCommands.DynamicCommand D)) text :
  let lowerCaseText := JsString.trim (JsString.toLowerCase text) in
  useVoiceCommands.lookupCommand staticCommands lowerCaseText = None ->
  useVoiceCommands.matchDynamic (Action := A) text lowerCaseText
    dynamicCommands = None ->
  lowerCaseText <> lit "stop listening" ->
  lowerCaseText <> lit "cancel" ->
  useVoiceCommands.processTranscript staticCommands dynamicCommands text = [].
Proof.
  intros lower H1 H2 H3 H4. unfold useVoiceCommands.processTranscript.
  fold lower. rewrite H1, H2.
  apply eqb_neq in H3, H4. now rewrite H3, H4.
Qed.

Lemma trimStart_suffix (s : jsstring) :
  exists w, s = w ++ JsString.trimStart s.
Proof.
  induction s as [|c s (w & IH)]; [now exists []|]. cbn [JsString.trimStart].
  destruct (JsString.isWhiteSpace c).
  - exists (c :: w). cbn. now rewrite <- IH.
  - now exists [].
Qed.

Lemma trimEnd_prefix (s : jsstring) : exists w, s = JsString.trimEnd s ++ w.
Proof.
  unfold JsString.trimEnd. destruct (trimStart_suffix (rev s)) as (w & E).
  exists (rev w). rewrite <- rev_app_distr, <- E. now rewrite rev_involutive.
Qed.

(** When the lower-case text has no leading white space, the argument
    of a dynamic rule is the rest of the utterance after the spoken
    keyword and its space. *)
Lemma captured_text_without_leading_space {D : Type} (a : D) text kws calls :
  JsString.trimStart (JsString.toLowerCase text) = JsString.toLowerCase text ->
  useVoiceCommands.matchKeyword (Action := unit) text
    (JsString.trim (JsString.toLowerCase text)) a kws = Some calls ->
  exists keyword spoken capturedText,
    In keyword kws
    /\ text = spoken ++ capturedText
    /\ JsString.toLowerCase spoken = keyword ++ lit " "
    /\ calls = [useVoiceCommands.CallDynamic a capturedText;
                useVoiceCommands.StopListening].
Proof.
  intros Hlead. unfold JsString.trim. rewrite Hlead.
  induction kws as [|keyword kws IH]; [discriminate|].
  cbn [useVoiceCommands.matchKeyword].
  destruct (JsString.startsWith _ _) eqn:E.
  - intros [= <-]. unfold JsString.startsWith in E.
    destruct (JsString.stripPrefix _ _) as [r|] eqn:P; [|discriminate].
    apply stripPrefix_Some in P.
    destruct (trimEnd_prefix (JsString.toLowerCase text)) as (w & T).
    rewrite P in T.
    exists keyword, (firstn (length (keyword ++ lit " ")) text),
      (skipn (length (keyword ++ lit " ")) text).
    split; [now left|]. split; [now rewrite firstn_skipn|]. split; [|reflexivity].
    unfold JsString.toLowerCase in *. rewrite <- firstn_map, T.
    rewrite <- app_assoc, firstn_app, Nat.sub_diag, firstn_all. cbn [firstn].
    apply List.app_nil_r.
  - intros H. destruct (IH H) as (k & sp & cap & Hin & rest).
    exists k, sp, cap. split; [now right|exact rest].
Qed.

(** C10 fails on the code. The final transcript of a continuous
    recognition can start with white space; the keyword is found in the
    trimmed text and its length is cut from the text that is not
    trimmed, so the argument is not the rest of the utterance: with one
    leading space the space stays in front of the argument, with two
    the last letter of the keyword comes with it. *)
Theorem captured_text_is_shifted_by_leading_space :
  useVoiceCommands.processTranscript voiceCommands dynamicVoiceCommands
    (lit "  ask what is DNA")
  = [useVoiceCommands.CallDynamic HandleSendMessage (lit "k what is DNA");
     useVoiceCommands.StopListening]
  /\ useVoiceCommands.processTranscript voiceCommands dynamicVoiceCommands
       (lit " ask what is DNA")
     = [useVoiceCommands.CallDynamic HandleSendMessage (lit " what is DNA");
        useVoiceCommands.StopListening]
  /\ useVoiceCommands.processTranscript voiceCommands dynamicVoiceCommands
       (lit "ask what is DNA")
     = [useVoiceCommands.CallDynamic HandleSendMessage (lit "what is DNA");
        useVoiceCommands.StopListening].
Proof. repeat split. Qed.

(** ** [JSON.parse] reads back what [JSON.stringify] writes *)

Section ValueInduction.
Variable P : JSON.value -> Prop.
Hypothesis HNull : P JSON.JNull.
Hypothesis HBool : forall b, P (JSON.JBool b).
Hypothesis HNumber : forall n, P (JSON.JNumber n).
Hypothesis HString : forall s, P (JSON.JString s).
Hypothesis HArray : forall vs, Forall P vs -> P (JSON.JArray vs).
Hypothesis HObject :
  forall ms, Forall (fun m => P (snd m)) ms -> P (JSON.JObject ms).

Fixpoint value_induction (v : JSON.value) : P v :=
  match v with
  | JSON.JNull => HNull
  | JSON.JBool b => HBool b
  | JSON.JNumber n => HNumber n
  | JSON.JString s => HString s
  | JSON.JArray vs =>
      HArray vs
        ((fix all (l : list JSON.value) : Forall P l :=
            match l with
            | [] => Forall_nil P
            | x :: l' => Forall_cons x (value_induction x) (all l')
            end) vs)
  | JSON.JObject ms =>
      HObject ms
        ((fix all (l : list (jsstring * JSON.value))
            : Forall (fun m => P (snd m)) l :=
            match l with
            | [] => Forall_nil _
            | m :: l' => Forall_cons m (value_induction (snd m)) (all l')
            end) ms)
  end.
End ValueInduction.

Lemma hexValue_hexDigit (n : N) :
  (n < 16)%N -> JSON.hexValue (JSON.hexDigit n) = Some n.
Proof.
  intros H.
  destruct n as [|p]; [reflexivity|].
  do 4 (try destruct p as [p|p|]); try reflexivity; exfalso; lia.
Qed.

Lemma hex_digits_value (c : N) :
  (c < 65536)%N ->
  ((((c / 4096) * 16 + (c / 256) mod 16) * 16 + (c / 16) mod 16) * 16
   + c mod 16 = c)%N.
Proof.
  intros H. zify. Z.to_euclidean_division_equations. lia.
Qed.

Lemma parse_unicodeEscape (c : N) (tail : jsstring) :
  (c < 65536)%N ->
  JSON.parseChars (JSON.unicodeEscape c ++ tail)
  = JSON.consUnit c (JSON.parseChars tail).
Proof.
  intros H. unfold JSON.unicodeEscape. cbn [app JSON.parseChars].
  change (92 =? 34)%N with false. change (92 =? 92)%N with true.
  change (117 =? 117)%N with true. cbv iota.
  assert (H1 : (c / 4096 < 16)%N)
    by (apply N.Div0.div_lt_upper_bound; lia).
  rewrite !hexValue_hexDigit;
    try (apply N.mod_upper_bound; discriminate); try exact H1.
  now rewrite hex_digits_value.
Qed.

Lemma parse_verbatim (c : N) (tail : jsstring) :
  (32 <= c)%N -> c <> 34%N -> c <> 92%N ->
  JSON.parseChars (c :: tail) = JSON.consUnit c (JSON.parseChars tail).
Proof.
  intros H1 H2 H3. cbn [JSON.parseChars].
  apply N.eqb_neq in H2, H3. rewrite H2, H3.
  assert (H : (c <? 32)%N = false) by (apply N.ltb_ge; exact H1).
  now rewrite H.
Qed.

Lemma parse_quoteUnit (c : N) (tail : jsstring) :
  JSON.parseChars (JSON.quoteUnit c ++ tail)
  = JSON.consUnit c (JSON.parseChars tail).
Proof.
  unfold JSON.quoteUnit.
  destruct (c =? 8)%N eqn:E1; [apply N.eqb_eq in E1; now subst|].
  destruct (c =? 9)%N eqn:E2; [apply N.eqb_eq in E2; now subst|].
  destruct (c =? 10)%N eqn:E3; [apply N.eqb_eq in E3; now subst|].
  destruct (c =? 12)%N eqn:E4; [apply N.eqb_eq in E4; now subst|].
  destruct (c =? 13)%N eqn:E5; [apply N.eqb_eq in E5; now subst|].
  destruct (c =? 34)%N eqn:E6; [apply N.eqb_eq in E6; now subst|].
  destruct (c =? 92)%N eqn:E7; [apply N.eqb_eq in E7; now subst|].
  destruct ((c <? 32)%N || JSON.isHighSurrogate c || JSON.isLowSurrogate c)
    eqn:E.
  - apply parse_unicodeEscape.
    unfold JSON.isHighSurrogate, JSON.isLowSurrogate in E.
    repeat (apply Bool.orb_true_iff in E as [E|E]).
    + apply N.ltb_lt in E. lia.
    + apply andb_true_iff in E as [_ E]. apply N.leb_le in E. lia.
    + apply andb_true_iff in E as [_ E]. apply N.leb_le in E. lia.
  - apply Bool.orb_false_iff in E as [E _].
    apply Bool.orb_false_iff in E as [E _]. apply N.ltb_ge in E.
    apply N.eqb_neq in E6, E7. now apply parse_verbatim.
Qed.

Lemma quoteUnits_cons2 (c d : N) (s : jsstring) :
  JSON.quoteUnits (c :: d :: s)
  = if JSON.isHighSurrogate c && JSON.isLowSurrogate d
    then c :: d :: JSON.quoteUnits s
    else JSON.quoteUnit c ++ JSON.quoteUnits (d :: s).
Proof. reflexivity. Qed.

Lemma parse_quoteUnits_bounded (n : nat) : forall (s rest : jsstring),
  length s <= n ->
  JSON.parseChars (JSON.quoteUnits s ++ 34%N :: rest) = Some (s, rest).
Proof.
  induction n as [|n IH]; intros s rest Hn.
  - destruct s; [reflexivity|cbn in Hn; lia].
  - destruct s as [|c [|d s]]; [reflexivity| |].
    + cbn [JSON.quoteUnits]. rewrite parse_quoteUnit. reflexivity.
    + rewrite quoteUnits_cons2.
      destruct (JSON.isHighSurrogate c && JSON.isLowSurrogate d) eqn:E.
      * apply andb_true_iff in E as [Ec Ed].
        unfold JSON.isHighSurrogate in Ec. unfold JSON.isLowSurrogate in Ed.
        apply andb_true_iff in Ec as [Ec _]. apply andb_true_iff in Ed as [Ed _].
        apply N.leb_le in Ec, Ed. cbn [app].
        rewrite !parse_verbatim by lia.
        assert (Hs : length s <= n) by (cbn in Hn; lia).
        now rewrite (IH s rest Hs).
      * rewrite <- app_assoc, parse_quoteUnit.
        assert (Hs : length (d :: s) <= n) by (cbn in Hn |- *; lia).
        now rewrite (IH (d :: s) rest Hs).
Qed.

Lemma parse_quoteUnits (s rest : jsstring) :
  JSON.parseChars (JSON.quoteUnits s ++ 34%N :: rest) = Some (s, rest).
Proof. now apply (parse_quoteUnits_bounded (length s)). Qed.

Lemma delimited_noDigit (rest : jsstring) : delimited rest -> noDigit rest.
Proof. destruct rest as [|c r]; [easy|]. now intros [->|[->| ->]]. Qed.

Lemma digits_uintUnits (u : Decimal.uint) (rest : jsstring) :
  noDigit rest -> JSON.digits (JSON.uintUnits u ++ rest) = (u, rest).
Proof.
  intros H. induction u as [|u IH|u IH|u IH|u IH|u IH|u IH|u IH|u IH|u IH|u IH];
    cbn [JSON.uintUnits app JSON.digits].
  - destruct rest as [|c r]; [reflexivity|]. cbn [JSON.digits].
    cbn in H. now rewrite H.
  - change (JSON.digitOf 48) with (Some Decimal.D0). now rewrite IH.
  - change (JSON.digitOf 49) with (Some Decimal.D1). now rewrite IH.
  - change (JSON.digitOf 50) with (Some Decimal.D2). now rewrite IH.
  - change (JSON.digitOf 51) with (Some Decimal.D3). now rewrite IH.
  - change (JSON.digitOf 52) with (Some Decimal.D4). now rewrite IH.
  - change (JSON.digitOf 53) with (Some Decimal.D5). now rewrite IH.
  - change (JSON.digitOf 54) with (Some Decimal.D6). now rewrite IH.
  - change (JSON.digitOf 55) with (Some Decimal.D7). now rewrite IH.
  - change (JSON.digitOf 56) with (Some Decimal.D8). now rewrite IH.
  - change (JSON.digitOf 57) with (Some Decimal.D9). now rewrite IH.
Qed.

Lemma nzhead_not_D0 (u u' : Decimal.uint) :
  Decimal.nzhead u <> Decimal.D0 u'.
Proof. induction u; cbn; try discriminate. exact IHu. Qed.

Lemma to_uint_leading (n : N) : leading (N.to_uint n).
Proof.
  pose proof (DecimalN.Unsigned.to_of (N.to_uint n)) as H.
  rewrite DecimalN.Unsigned.of_to in H.
  unfold Decimal.unorm in H.
  destruct (N.to_uint n) as [|u|u|u|u|u|u|u|u|u|u]; cbn [leading]; try exact I.
  - cbn in H. discriminate.
  - cbn [Decimal.nzhead] in H. destruct u; try exact I; exfalso.
    all: destruct (Decimal.nzhead _) eqn:E in H; try discriminate H.
    all: injection H as H; subst; now apply nzhead_not_D0 in E.
Qed.

Lemma parseInt_uintUnits (u : Decimal.uint) (rest : jsstring) :
  leading u -> noDigit rest ->
  JSON.parseInt (JSON.uintUnits u ++ rest) = Some (u, rest).
Proof.
  intros L H.
  destruct u as [|u|u|u|u|u|u|u|u|u|u]; cbn [leading] in L; try contradiction;
    cbn [JSON.uintUnits app JSON.parseInt].
  - destruct u; try contradiction. reflexivity.
  - change (49 =? 48)%N with false. change (JSON.digitOf 49) with (Some Decimal.D1).
    cbv iota. now rewrite digits_uintUnits.
  - change (50 =? 48)%N with false. change (JSON.digitOf 50) with (Some Decimal.D2).
    cbv iota. now rewrite digits_uintUnits.
  - change (51 =? 48)%N with false. change (JSON.digitOf 51) with (Some Decimal.D3).
    cbv iota. now rewrite digits_uintUnits.
  - change (52 =? 48)%N with false. change (JSON.digitOf 52) with (Some Decimal.D4).
    cbv iota. now rewrite digits_uintUnits.
  - change (53 =? 48)%N with false. change (JSON.digitOf 53) with (Some Decimal.D5).
    cbv iota. now rewrite digits_uintUnits.
  - change (54 =? 48)%N with false. change (JSON.digitOf 54) with (Some Decimal.D6).
    cbv iota. now rewrite digits_uintUnits.
  - change (55 =? 48)%N with false. change (JSON.digitOf 55) with (Some Decimal.D7).
    cbv iota. now rewrite digits_uintUnits.
  - change (56 =? 48)%N with false. change (JSON.digitOf 56) with (Some Decimal.D8).
    cbv iota. now rewrite digits_uintUnits.
  - change (57 =? 48)%N with false. change (JSON.digitOf 57) with (Some Decimal.D9).
    cbv iota. now rewrite digits_uintUnits.
Qed.

(** The first unit of an integer part is a digit. *)
Lemma uintUnits_head (u : Decimal.uint) :
  leading u ->
  exists c tail, JSON.uintUnits u = c :: tail /\ (48 <= c <= 57)%N.
Proof.
  destruct u; cbn [leading JSON.uintUnits]; try contradiction; intros _;
    eexists; eexists; (split; [reflexivity|lia]).
Qed.

Lemma parseFraction_delimited (rest : jsstring) :
  delimited rest -> JSON.parseFraction rest = Some (false, rest).
Proof. destruct rest as [|c r]; [easy|]. now intros [->|[->| ->]]. Qed.

Lemma parseExponent_delimited (rest : jsstring) :
  delimited rest -> JSON.parseExponent rest = Some (false, rest).
Proof. destruct rest as [|c r]; [easy|]. now intros [->|[->| ->]]. Qed.

Lemma parseNumber_integer (z : Z) (rest : jsstring) :
  delimited rest ->
  JSON.parseNumber (JSON.integerToString z ++ rest)
  = Some (JSON.Int z, rest).
Proof.
  intros H. unfold JSON.integerToString, JSON.parseNumber.
  pose proof (to_uint_leading (Z.abs_N z)) as L.
  pose proof (DecimalN.Unsigned.of_to (Z.abs_N z)) as V.
  destruct (z <? 0)%Z eqn:E.
  - cbn [app JSON.expect]. change (45 =? 45)%N with true. cbv iota.
    rewrite parseInt_uintUnits by auto using delimited_noDigit.
    rewrite parseFraction_delimited, parseExponent_delimited by exact H.
    cbn [orb]. rewrite V. apply Z.ltb_lt in E. do 2 f_equal. f_equal. lia.
  - cbn [app].
    destruct (uintUnits_head _ L) as (c & tail & Eu & Hc).
    assert (X : JSON.expect 45 (JSON.uintUnits (N.to_uint (Z.abs_N z)) ++ rest)
                = None).
    { rewrite Eu. cbn [app JSON.expect].
      assert (Y : (c =? 45)%N = false) by (apply N.eqb_neq; lia).
      now rewrite Y. }
    rewrite X. rewrite parseInt_uintUnits by auto using delimited_noDigit.
    rewrite parseFraction_delimited, parseExponent_delimited by exact H.
    cbn [orb]. rewrite V. apply Z.ltb_ge in E. do 2 f_equal. f_equal. lia.
Qed.

(** A text that starts with a minus sign or a digit is read as a
    number. *)
Lemma parseValue_number (fuel : nat) (c : N) (s1 : jsstring) :
  c = 45%N \/ (48 <= c <= 57)%N ->
  JSON.parseValue (S fuel) (c :: s1)
  = match JSON.parseNumber (c :: s1) with
    | Some (n, rest) => Some (JSON.JNumber n, rest)
    | None => None
    end.
Proof.
  intros H. cbn [JSON.parseValue].
  assert (E1 : (c =? 123)%N = false) by (apply N.eqb_neq; lia).
  assert (E2 : (c =? 91)%N = false) by (apply N.eqb_neq; lia).
  assert (E3 : (c =? 34)%N = false) by (apply N.eqb_neq; lia).
  assert (E4 : (c =? 116)%N = false) by (apply N.eqb_neq; lia).
  assert (E5 : (c =? 102)%N = false) by (apply N.eqb_neq; lia).
  assert (E6 : (c =? 110)%N = false) by (apply N.eqb_neq; lia).
  now rewrite E1, E2, E3, E4, E5, E6.
Qed.

Lemma integerToString_head (z : Z) :
  exists c tail,
    JSON.integerToString z = c :: tail /\ (c = 45%N \/ (48 <= c <= 57)%N).
Proof.
  unfold JSON.integerToString.
  destruct (uintUnits_head _ (to_uint_leading (Z.abs_N z))) as (c & tail & E & H).
  destruct (z <? 0)%Z; cbn [app].
  - eexists; eexists; split; [reflexivity|now left].
  - exists c, tail. split; [exact E|now right].
Qed.

Lemma stringify_head (v : JSON.value) :
  integral v ->
  exists c tail,
    JSON.stringify v = c :: tail
    /\ (c = 34 \/ c = 45 \/ (48 <= c <= 57) \/ c = 91 \/ c = 102 \/ c = 110
        \/ c = 116 \/ c = 123)%N.
Proof.
  intros H. destruct H as [|[|]|z|s|vs _|ms _]; cbn [JSON.stringify].
  - exists 110%N, (lit "ull"). split; [reflexivity|lia].
  - exists 116%N, (lit "rue"). split; [reflexivity|lia].
  - exists 102%N, (lit "alse"). split; [reflexivity|lia].
  - destruct (integerToString_head z) as (c & tail & E & Hc).
    exists c, tail. split; [exact E|lia].
  - eexists; eexists; split; [reflexivity|lia].
  - eexists; eexists; split; [reflexivity|lia].
  - eexists; eexists; split; [reflexivity|lia].
Qed.

Lemma skipWs_stringify (v : JSON.value) (x : jsstring) :
  integral v -> JSON.skipWs (JSON.stringify v ++ x) = JSON.stringify v ++ x.
Proof.
  intros H. destruct (stringify_head v H) as (c & tail & -> & Hc).
  cbn [app JSON.skipWs]. unfold JSON.isJsonWhiteSpace.
  assert (E1 : (c =? 9)%N = false) by (apply N.eqb_neq; lia).
  assert (E2 : (c =? 10)%N = false) by (apply N.eqb_neq; lia).
  assert (E3 : (c =? 13)%N = false) by (apply N.eqb_neq; lia).
  assert (E4 : (c =? 32)%N = false) by (apply N.eqb_neq; lia).
  now rewrite E1, E2, E3, E4.
Qed.

Lemma expect_stringify (v : JSON.value) (x : jsstring) :
  integral v -> JSON.expect 93 (JSON.stringify v ++ x) = None.
Proof.
  intros H. destruct (stringify_head v H) as (c & tail & -> & Hc).
  cbn [app JSON.expect].
  assert (E : (c =? 93)%N = false) by (apply N.eqb_neq; lia).
  now rewrite E.
Qed.

Lemma join_cons2 (sep p q : jsstring) (rest : list jsstring) :
  JSON.join sep (p :: q :: rest) = p ++ sep ++ JSON.join sep (q :: rest).
Proof. reflexivity. Qed.

Lemma stringify_nonempty (v : JSON.value) :
  integral v -> 1 <= length (JSON.stringify v).
Proof.
  intros H. destruct (stringify_head v H) as (c & tail & -> & _). cbn. lia.
Qed.

Lemma skipWs_comma (s : jsstring) : JSON.skipWs (44%N :: s) = 44%N :: s.
Proof. reflexivity. Qed.

Lemma skipWs_colon (s : jsstring) : JSON.skipWs (58%N :: s) = 58%N :: s.
Proof. reflexivity. Qed.

Lemma expect_here (c : N) (s : jsstring) : JSON.expect c (c :: s) = Some s.
Proof. cbn. now rewrite N.eqb_refl. Qed.

Lemma parseElements_join (vs : list JSON.value) :
  vs <> [] -> Forall readsBack vs -> Forall integral vs ->
  forall fuel rest,
    S (length (JSON.join [44%N] (List.map JSON.stringify vs))) <= fuel ->
    JSON.parseElements fuel
      (JSON.join [44%N] (List.map JSON.stringify vs) ++ 93%N :: rest)
    = Some (vs, rest).
Proof.
  induction vs as [|v vs IH]; [contradiction|]. intros _ HQ HI fuel rest Hf.
  inversion HQ as [|? ? Qv Qvs]; subst. inversion HI as [|? ? Iv Ivs]; subst.
  destruct fuel as [|fuel]; [lia|]. apply le_S_n in Hf.
  destruct vs as [|w vs].
  - cbn [List.map JSON.join] in *. cbn [JSON.parseElements].
    rewrite (Qv fuel (93%N :: rest) Hf) by (cbn; auto). reflexivity.
  - cbn [List.map] in *. rewrite join_cons2 in *.
    rewrite !length_app in Hf. cbn [length] in Hf.
    rewrite <- !app_assoc. cbn [app JSON.parseElements].
    rewrite (Qv fuel) by (cbn; auto; lia).
    rewrite skipWs_comma, expect_here.
    assert (S : JSON.skipWs
                  (JSON.join [44%N]
                     (JSON.stringify w :: List.map JSON.stringify vs)
                   ++ 93%N :: rest)
                = JSON.join [44%N]
                    (JSON.stringify w :: List.map JSON.stringify vs)
                  ++ 93%N :: rest).
    { inversion Ivs; subst. destruct vs as [|w' vs].
      - cbn [List.map JSON.join]. now apply skipWs_stringify.
      - cbn [List.map]. rewrite join_cons2, <- !app_assoc.
        now apply skipWs_stringify. }
    rewrite S. rewrite IH; [reflexivity|discriminate|assumption|assumption|].
    cbn [List.map]. lia.
Qed.

Lemma memberText_app (k : jsstring) (v : JSON.value) (x : jsstring) :
  memberText (k, v) ++ x
  = 34%N :: JSON.quoteUnits k ++ 34%N :: 58%N :: JSON.stringify v ++ x.
Proof.
  unfold memberText, JSON.member, JSON.quote. cbn [fst snd app].
  now rewrite <- !app_assoc.
Qed.

Lemma parseMembers_join (ms : list (jsstring * JSON.value)) :
  ms <> [] ->
  Forall (fun m => readsBack (snd m)) ms ->
  Forall (fun m => integral (snd m)) ms ->
  forall fuel rest,
    S (length (JSON.join [44%N] (List.map memberText ms))) <= fuel ->
    JSON.parseMembers fuel
      (JSON.join [44%N] (List.map memberText ms) ++ 125%N :: rest)
    = Some (ms, rest).
Proof.
  induction ms as [|[k v] ms IH]; [contradiction|]. intros _ HQ HI fuel rest Hf.
  inversion HQ as [|? ? Qv Qms]; subst. inversion HI as [|? ? Iv Ivs]; subst.
  cbn [snd] in Qv, Iv.
  destruct fuel as [|fuel]; [lia|]. apply le_S_n in Hf.
  assert (Lm : length (JSON.stringify v) <= length (memberText (k, v))).
  { unfold memberText, JSON.member. rewrite length_app. cbn [length snd]. lia. }
  destruct ms as [|m ms].
  - cbn [List.map JSON.join] in *. rewrite memberText_app.
    cbn [JSON.parseMembers]. rewrite expect_here, parse_quoteUnits.
    rewrite skipWs_colon, expect_here, skipWs_stringify by exact Iv.
    rewrite (Qv fuel (125%N :: rest)) by (cbn; auto; lia). reflexivity.
  - cbn [List.map] in *. rewrite join_cons2 in *.
    rewrite !length_app in Hf. cbn [length] in Hf.
    rewrite <- !app_assoc. rewrite memberText_app.
    cbn [JSON.parseMembers]. rewrite expect_here, parse_quoteUnits.
    rewrite skipWs_colon, expect_here, skipWs_stringify by exact Iv.
    cbn [app]. rewrite (Qv fuel) by (cbn; auto; lia).
    rewrite skipWs_comma, expect_here.
    assert (S : JSON.skipWs
                  (JSON.join [44%N] (memberText m :: List.map memberText ms)
                   ++ 125%N :: rest)
                = JSON.join [44%N] (memberText m :: List.map memberText ms)
                  ++ 125%N :: rest).
    { destruct m as [k' v']. destruct ms as [|m' ms].
      - cbn [List.map JSON.join]. now rewrite memberText_app.
      - cbn [List.map]. rewrite join_cons2, <- !app_assoc.
        now rewrite memberText_app. }
    rewrite S. rewrite IH; [reflexivity|discriminate|assumption|assumption|].
    cbn [List.map]. lia.
Qed.

Lemma stringify_readsBack (v : JSON.value) : integral v -> readsBack v.
Proof.
  induction v as [|b|n|s|vs IH|ms IH] using value_induction;
    intros Hint fuel rest Hf Hd.
  - destruct fuel; [cbn in Hf; lia|reflexivity].
  - destruct fuel; [destruct b; cbn in Hf; lia|]. now destruct b.
  - inversion Hint as [| |z| | |]; subst. cbn [JSON.stringify JSON.numberToString] in *.
    destruct (integerToString_head z) as (c & tail & E & Hc).
    destruct fuel; [rewrite E in Hf; cbn in Hf; lia|].
    rewrite E. cbn [app]. rewrite parseValue_number by exact Hc.
    change (c :: tail ++ rest) with ((c :: tail) ++ rest). rewrite <- E.
    now rewrite parseNumber_integer.
  - destruct fuel; [cbn in Hf; lia|].
    cbn [JSON.stringify JSON.quote app JSON.parseValue].
    change (34 =? 123)%N with false. change (34 =? 91)%N with false.
    change (34 =? 34)%N with true. cbv iota.
    rewrite <- app_assoc. cbn [app]. now rewrite parse_quoteUnits.
  - inversion Hint as [| | | |? Hvs|]; subst.
    destruct fuel; [cbn in Hf; lia|].
    cbn [JSON.stringify app length] in *. apply le_S_n in Hf.
    rewrite length_app in Hf. cbn [length] in Hf.
    destruct vs as [|v vs]; [reflexivity|].
    cbn [JSON.parseValue]. change (91 =? 123)%N with false.
    change (91 =? 91)%N with true. cbv iota.
    rewrite <- app_assoc. cbn [app].
    assert (IHall : Forall readsBack (v :: vs)).
    { rewrite Forall_forall in *. intros x Hx. apply IH; auto. }
    assert (S : JSON.skipWs
                  (JSON.join [44%N] (List.map JSON.stringify (v :: vs))
                   ++ 93%N :: rest)
                = JSON.join [44%N] (List.map JSON.stringify (v :: vs))
                  ++ 93%N :: rest).
    { inversion Hvs; subst. destruct vs as [|w vs].
      - cbn [List.map JSON.join]. now apply skipWs_stringify.
      - cbn [List.map]. rewrite join_cons2, <- !app_assoc.
        now apply skipWs_stringify. }
    rewrite S.
    assert (X : JSON.expect 93
                  (JSON.join [44%N] (List.map JSON.stringify (v :: vs))
                   ++ 93%N :: rest) = None).
    { inversion Hvs; subst. destruct vs as [|w vs].
      - cbn [List.map JSON.join]. now apply expect_stringify.
      - cbn [List.map]. rewrite join_cons2, <- !app_assoc.
        now apply expect_stringify. }
    rewrite X.
    rewrite parseElements_join; [reflexivity|discriminate|assumption|assumption|lia].
  - inversion Hint as [| | | | |? Hms]; subst.
    destruct fuel; [cbn in Hf; lia|].
    cbn [JSON.stringify app length] in *. apply le_S_n in Hf.
    rewrite length_app in Hf. cbn [length] in Hf.
    destruct ms as [|[k v] ms]; [reflexivity|].
    cbn [JSON.parseValue]. change (123 =? 123)%N with true. cbv iota.
    rewrite <- app_assoc. cbn [app].
    change (JSON.member JSON.stringify) with memberText in *.
    assert (IHall : Forall (fun m => readsBack (snd m)) ((k, v) :: ms)).
    { rewrite Forall_forall in *. intros x Hx. apply IH; auto. }
    assert (S : JSON.skipWs
                  (JSON.join [44%N] (List.map memberText ((k, v) :: ms))
                   ++ 125%N :: rest)
                = JSON.join [44%N] (List.map memberText ((k, v) :: ms))
                  ++ 125%N :: rest).
    { destruct ms as [|m' ms].
      - cbn [List.map JSON.join]. now rewrite memberText_app.
      - cbn [List.map]. rewrite join_cons2, <- !app_assoc.
        now rewrite memberText_app. }
    rewrite S.
    assert (X : JSON.expect 125
                  (JSON.join [44%N] (List.map memberText ((k, v) :: ms))
                   ++ 125%N :: rest) = None).
    { destruct ms as [|m' ms].
      - cbn [List.map JSON.join]. now rewrite memberText_app.
      - cbn [List.map]. rewrite join_cons2, <- !app_assoc.
        now rewrite memberText_app. }
    rewrite X.
    rewrite parseMembers_join; [reflexivity|discriminate|assumption|assumption|lia].
Qed.

(** [JSON.parse(JSON.stringify(v))] is [v] for every integral value. *)
Lemma parse_stringify (v : JSON.value) :
  integral v -> JSON.parse (JSON.stringify v) = Ok v.
Proof.
  intros H. unfold JSON.parse.
  rewrite <- (List.app_nil_r (JSON.stringify v)) at 2.
  rewrite skipWs_stringify by exact H.
  rewrite (stringify_readsBack v H) by (cbn; auto). reflexivity.
Qed.

(** ** The fuel of the reader

    Every step that spends fuel reads at least one unit: a reading that
    succeeds with some fuel succeeds with the number of units it read,
    so [JSON.parse] never fails for lack of fuel. *)

Lemma skipWs_length (s : jsstring) : length (JSON.skipWs s) <= length s.
Proof.
  induction s as [|c s IH]; cbn [JSON.skipWs]; [lia|].
  destruct (JSON.isJsonWhiteSpace c); cbn [length]; lia.
Qed.

Lemma expect_length (c : N) (s r : jsstring) :
  JSON.expect c s = Some r -> length s = S (length r).
Proof.
  destruct s as [|x s]; cbn; [discriminate|].
  destruct (x =? c)%N; [|discriminate]. now intros [= ->].
Qed.

Lemma stripPrefix_length (p s r : jsstring) :
  JsString.stripPrefix p s = Some r -> length r <= length s.
Proof.
  intros H. apply stripPrefix_Some in H. subst s. rewrite length_app. lia.
Qed.

Lemma consUnit_length c x (str r : jsstring) (bound : nat) :
  JSON.consUnit c x = Some (str, r) ->
  (forall str' r', x = Some (str', r') -> length r' < bound) ->
  length r < bound.
Proof.
  destruct x as [[str' r']|]; cbn; [|discriminate].
  intros [= <- <-] H. now apply (H str').
Qed.

Lemma parseChars_length (s : jsstring) : forall str r,
  JSON.parseChars s = Some (str, r) -> length r < S (length s).
Proof.
  induction s as [s IH] using (well_founded_induction
                                 (Wf_nat.well_founded_ltof _ (@length N))).
  unfold Wf_nat.ltof in IH. intros str r H.
  destruct s as [|c s1]; [discriminate|]. cbn [JSON.parseChars] in H.
  destruct (c =? 34)%N.
  { injection H as <- <-. cbn. lia. }
  destruct (c =? 92)%N.
  { destruct s1 as [|e s2]; [discriminate|].
    destruct (e =? 117)%N.
    - destruct s2 as [|h1 [|h2 [|h3 [|h4 s3]]]]; try discriminate.
      destruct (JSON.hexValue h1), (JSON.hexValue h2), (JSON.hexValue h3),
        (JSON.hexValue h4); try discriminate.
      eapply consUnit_length in H; [exact H|]. intros str' r' E.
      apply IH in E; cbn [length] in *; lia.
    - destruct (JSON.escapeUnit e); [|discriminate].
      eapply consUnit_length in H; [exact H|]. intros str' r' E.
      apply IH in E; cbn [length] in *; lia. }
  destruct (c <? 32)%N; [discriminate|].
  eapply consUnit_length in H; [exact H|]. intros str' r' E.
  apply IH in E; cbn [length] in *; lia.
Qed.

Lemma digits_length (s : jsstring) : forall u r,
  JSON.digits s = (u, r) -> length r <= length s.
Proof.
  induction s as [|c s IH]; intros u r; cbn [JSON.digits].
  - intros [= <- <-]. lia.
  - destruct (JSON.digitOf c).
    + destruct (JSON.digits s) as [u' r'] eqn:E. intros [= <- <-].
      specialize (IH _ _ eq_refl). cbn. lia.
    + intros [= <- <-]. lia.
Qed.

Lemma parseInt_length (s : jsstring) u r :
  JSON.parseInt s = Some (u, r) -> length r < length s.
Proof.
  unfold JSON.parseInt. destruct s as [|c s']; [discriminate|].
  destruct (c =? 48)%N; [intros [= <- <-]; cbn; lia|].
  destruct (JSON.digitOf c); [|discriminate].
  destruct (JSON.digits s') as [u' r'] eqn:D. apply digits_length in D.
  intros [= <- <-]. cbn. lia.
Qed.

Lemma parseFraction_length (s : jsstring) b r :
  JSON.parseFraction s = Some (b, r) -> length r <= length s.
Proof.
  unfold JSON.parseFraction. destruct (JSON.expect 46 s) as [s'|] eqn:X.
  - apply expect_length in X.
    destruct (JSON.digits s') as [u' r'] eqn:D. apply digits_length in D.
    destruct u'; try discriminate; intros [= <- <-]; lia.
  - intros [= <- <-]. lia.
Qed.

Lemma parseExponent_length (s : jsstring) b r :
  JSON.parseExponent s = Some (b, r) -> length r <= length s.
Proof.
  unfold JSON.parseExponent. destruct s as [|c s1]; [intros [= <- <-]; lia|].
  destruct ((c =? 101) || (c =? 69))%N; [|intros [= <- <-]; lia].
  destruct (JSON.digits _) as [u' r'] eqn:D. apply digits_length in D.
  assert (length r' <= length s1).
  { destruct s1 as [|g s']; [exact D|].
    destruct ((g =? 43) || (g =? 45))%N; cbn [length] in *; lia. }
  destruct u'; try discriminate; intros [= <- <-]; cbn [length]; lia.
Qed.

Lemma parseNumber_length (s : jsstring) n r :
  JSON.parseNumber s = Some (n, r) -> length r < length s.
Proof.
  unfold JSON.parseNumber.
  destruct (JSON.expect 45 s) as [s'|] eqn:X.
  - apply expect_length in X.
    destruct (JSON.parseInt s') as [[u s2]|] eqn:E1; [|discriminate].
    apply parseInt_length in E1.
    destruct (JSON.parseFraction s2) as [[b s3]|] eqn:E2; [|discriminate].
    apply parseFraction_length in E2.
    destruct (JSON.parseExponent s3) as [[b' s4]|] eqn:E3; [|discriminate].
    apply parseExponent_length in E3.
    destruct (b || b'); intros [= <- <-]; lia.
  - destruct (JSON.parseInt s) as [[u s2]|] eqn:E1; [|discriminate].
    apply parseInt_length in E1.
    destruct (JSON.parseFraction s2) as [[b s3]|] eqn:E2; [|discriminate].
    apply parseFraction_length in E2.
    destruct (JSON.parseExponent s3) as [[b' s4]|] eqn:E3; [|discriminate].
    apply parseExponent_length in E3.
    destruct (b || b'); intros [= <- <-]; lia.
Qed.

Definition fuelIndependent {A : Type}
    (read : nat -> jsstring -> option (A * jsstring)) (n : nat) : Prop :=
  forall s a r,
    read n s = Some (a, r) ->
    length r < length s
    /\ forall m, length s - length r <= m -> read m s = Some (a, r).

Lemma reader_fuel (n : nat) :
  fuelIndependent JSON.parseValue n
  /\ fuelIndependent JSON.parseElements n
  /\ fuelIndependent JSON.parseMembers n.
Proof.
  induction n as [|n (IHv & IHe & IHm)].
  { repeat split; intros; discriminate. }
  split; [|split]; intros s a r H.
  - (* a value *)
    destruct s as [|c s1]; [discriminate|]. cbn [JSON.parseValue] in H.
    pose proof (skipWs_length s1) as W.
    destruct (c =? 123)%N eqn:E1.
    { destruct (JSON.expect 125 (JSON.skipWs s1)) as [s2|] eqn:E2.
      - injection H as <- <-. apply expect_length in E2 as L.
        split; [cbn [length]; lia|]. intros [|m] Hm; [cbn [length] in Hm; lia|].
        cbn [JSON.parseValue]. now rewrite E1, E2.
      - destruct (JSON.parseMembers n (JSON.skipWs s1)) as [[ms r']|] eqn:E3;
          [|discriminate].
        injection H as <- <-. destruct (IHm _ _ _ E3) as [L F].
        split; [cbn [length]; lia|]. intros [|m] Hm; [cbn [length] in Hm; lia|].
        cbn [JSON.parseValue]. rewrite E1, E2, F; [reflexivity|].
        cbn [length] in Hm. lia. }
    destruct (c =? 91)%N eqn:E2'.
    { destruct (JSON.expect 93 (JSON.skipWs s1)) as [s2|] eqn:E2.
      - injection H as <- <-. apply expect_length in E2 as L.
        split; [cbn [length]; lia|]. intros [|m] Hm; [cbn [length] in Hm; lia|].
        cbn [JSON.parseValue]. now rewrite E1, E2', E2.
      - destruct (JSON.parseElements n (JSON.skipWs s1)) as [[vs r']|] eqn:E3;
          [|discriminate].
        injection H as <- <-. destruct (IHe _ _ _ E3) as [L F].
        split; [cbn [length]; lia|]. intros [|m] Hm; [cbn [length] in Hm; lia|].
        cbn [JSON.parseValue]. rewrite E1, E2', E2, F; [reflexivity|].
        cbn [length] in Hm. lia. }
    assert (K : forall m, length (c :: s1) - length r <= m ->
                length r < length (c :: s1) ->
                JSON.parseValue m (c :: s1) = JSON.parseValue (S n) (c :: s1)).
    { intros [|m] Hm Hl; [lia|]. cbn [JSON.parseValue]. now rewrite E1, E2'. }
    assert (L : length r < length (c :: s1)).
    { cbn [length].
      destruct (c =? 34)%N.
      { destruct (JSON.parseChars s1) as [[str r']|] eqn:E; [|discriminate].
        injection H as <- <-. now apply parseChars_length in E. }
      destruct (c =? 116)%N.
      { destruct (JsString.stripPrefix (lit "rue") s1) eqn:E; [|discriminate].
        injection H as <- <-. apply stripPrefix_length in E. lia. }
      destruct (c =? 102)%N.
      { destruct (JsString.stripPrefix (lit "alse") s1) eqn:E; [|discriminate].
        injection H as <- <-. apply stripPrefix_length in E. lia. }
      destruct (c =? 110)%N.
      { destruct (JsString.stripPrefix (lit "ull") s1) eqn:E; [|discriminate].
        injection H as <- <-. apply stripPrefix_length in E. lia. }
      destruct (JSON.parseNumber (c :: s1)) as [[x r']|] eqn:E; [|discriminate].
      injection H as <- <-. apply parseNumber_length in E. cbn [length] in E. lia. }
    split; [exact L|]. intros m Hm. rewrite (K m Hm L).
    cbn [JSON.parseValue]. rewrite E1, E2'. exact H.
  - (* the elements of an array *)
    cbn [JSON.parseElements] in H.
    destruct (JSON.parseValue n s) as [[v r0]|] eqn:E; [|discriminate].
    destruct (IHv _ _ _ E) as [L F].
    pose proof (skipWs_length r0) as W.
    destruct (JSON.expect 44 (JSON.skipWs r0)) as [r1|] eqn:E1.
    + apply expect_length in E1 as L1. pose proof (skipWs_length r1) as W1.
      destruct (JSON.parseElements n (JSON.skipWs r1)) as [[vs r2]|] eqn:E2;
        [|discriminate].
      injection H as <- <-. destruct (IHe _ _ _ E2) as [L2 F2].
      split; [lia|]. intros [|m] Hm; [lia|]. cbn [JSON.parseElements].
      rewrite F by lia. rewrite E1, F2 by lia. reflexivity.
    + destruct (JSON.expect 93 (JSON.skipWs r0)) as [r1|] eqn:E2; [|discriminate].
      injection H as <- <-. apply expect_length in E2 as L1.
      split; [lia|]. intros [|m] Hm; [lia|]. cbn [JSON.parseElements].
      rewrite F by lia. now rewrite E1, E2.
  - (* the members of an object *)
    cbn [JSON.parseMembers] in H.
    destruct (JSON.expect 34 s) as [s1|] eqn:E0; [|discriminate].
    apply expect_length in E0 as L0.
    destruct (JSON.parseChars s1) as [[key r0]|] eqn:E; [|discriminate].
    apply parseChars_length in E as Lk. pose proof (skipWs_length r0) as W0.
    destruct (JSON.expect 58 (JSON.skipWs r0)) as [r1|] eqn:E1; [|discriminate].
    apply expect_length in E1 as L1. pose proof (skipWs_length r1) as W1.
    destruct (JSON.parseValue n (JSON.skipWs r1)) as [[v r2]|] eqn:E2;
      [|discriminate].
    destruct (IHv _ _ _ E2) as [L2 F2]. pose proof (skipWs_length r2) as W2.
    destruct (JSON.expect 44 (JSON.skipWs r2)) as [r3|] eqn:E3.
    + apply expect_length in E3 as L3. pose proof (skipWs_length r3) as W3.
      destruct (JSON.parseMembers n (JSON.skipWs r3)) as [[ms r4]|] eqn:E4;
        [|discriminate].
      injection H as <- <-. destruct (IHm _ _ _ E4) as [L4 F4].
      split; [lia|]. intros [|m] Hm; [lia|]. cbn [JSON.parseMembers].
      rewrite E0, E, E1, F2 by lia. rewrite E3, F4 by lia. reflexivity.
    + destruct (JSON.expect 125 (JSON.skipWs r2)) as [r3|] eqn:E4; [|discriminate].
      injection H as <- <-. apply expect_length in E4 as L3.
      split; [lia|]. intros [|m] Hm; [lia|]. cbn [JSON.parseMembers].
      rewrite E0, E, E1, F2 by lia. now rewrite E3, E4.
Qed.

(** A text that some fuel reads as one value is parsed by
    [JSON.parse]: its [SyntaxError] is never a lack of fuel. *)
Lemma parse_complete (text : jsstring) (fuel : nat) v rest :
  JSON.parseValue fuel (JSON.skipWs text) = Some (v, rest) ->
  JSON.skipWs rest = [] ->
  JSON.parse text = Ok v.
Proof.
  intros H E. destruct (reader_fuel fuel) as (F & _ & _).
  destruct (F _ _ _ H) as [L K]. unfold JSON.parse.
  pose proof (skipWs_length text) as W.
  rewrite K by lia. now rewrite E.
Qed.

(** ** The session store *)

Lemma integral_source (s : Source.t) : integral (Source.toValue s).
Proof. destruct s as [u t [c|]]; repeat constructor. Qed.

Lemma integral_optional {A : Type} name (f : A -> JSON.value) (x : option A) :
  (forall a, integral (f a)) ->
  Forall (fun m => integral (snd m)) (Message.optional name f x).
Proof. intros H. destruct x; repeat constructor. apply H. Qed.

Lemma integral_message (m : Message.t) : integral (Message.toValue m).
Proof.
  unfold Message.toValue. constructor.
  repeat (apply Forall_app; split); try apply integral_optional.
  - intros []; constructor.
  - repeat constructor.
  - constructor.
  - intros l. constructor. apply Forall_map, Forall_forall.
    intros s _. apply integral_source.
  - constructor.
  - constructor.
Qed.

Lemma integral_session (s : StudySession.t) :
  storable s -> integral (StudySession.toValue s).
Proof.
  intros (H1 & H2 & H3 & H4 & H5 & H6). unfold StudySession.toValue.
  constructor. repeat constructor; cbn [snd]; try assumption.
  apply Forall_map, Forall_forall. intros m _. apply integral_message.
Qed.

Lemma getItem_setItem (store : sessionService.Storage) (key value : jsstring) :
  sessionService.getItem (sessionService.setItem store key value) key
  = Some value.
Proof.
  unfold sessionService.getItem, sessionService.setItem.
  now rewrite get_set, eqb_refl.
Qed.



(** The JavaScript value of a session determines the session, field for
    field. *)
Lemma map_injective {A B : Type} (f : A -> B) :
  (forall a b, f a = f b -> a = b) ->
  forall l l', List.map f l = List.map f l' -> l = l'.
Proof.
  intros Hf. induction l as [|a l IH]; intros [|b l']; cbn; try congruence.
  intros H. injection H as H1 H2. f_equal; auto.
Qed.

Lemma Source_toValue_injective (a b : Source.t) :
  Source.toValue a = Source.toValue b -> a = b.
Proof.
  destruct a as [u t [c|]], b as [u' t' [c'|]]; unfold Source.toValue; cbn;
    congruence.
Qed.

Lemma Message_toValue_injective (a b : Message.t) :
  Message.toValue a = Message.toValue b -> a = b.
Proof.
  destruct a as [r c i s t w], b as [r' c' i' s' t' w'].
  unfold Message.toValue. cbn [Message.role Message.content Message.image
    Message.sources Message.timestamp Message.useWebSearch].
  destruct r as [[|]|], r' as [[|]|]; cbn; intros H; try congruence; revert H.
  all: destruct i, i'; cbn; intros H; try congruence; revert H.
  all: destruct s as [l|], s' as [l'|]; cbn; intros H; try congruence; revert H.
  all: destruct t, t'; cbn; intros H; try congruence; revert H.
  all: destruct w, w'; cbn; intros H; try congruence.
  all: assert (l = l')
         by (apply (map_injective _ Source_toValue_injective); congruence).
  all: congruence.
Qed.

Lemma StudySession_toValue_injective (a b : StudySession.t) :
  StudySession.toValue a = StudySession.toValue b -> a = b.
Proof.
  destruct a, b. unfold StudySession.toValue. cbn. intros H.
  assert (messages = messages0)
    by (apply (map_injective _ Message_toValue_injective); congruence).
  congruence.
Qed.

(** C6. Whatever the store held and however many sessions there are,
    loading after saving returns the saved sessions, value for value
    (for sessions whose aid slots hold integral values); and the saved
    list is the only list of sessions that the loaded values denote. *)
Theorem save_then_load_round_trip store (sessions : list StudySession.t) now :
  Forall storable sessions ->
  let loaded :=
    fst (sessionService.loadSessions
           (sessionService.saveSessions store sessions) now) in
  loaded = List.map StudySession.toValue sessions
  /\ forall sessions',
       List.map StudySession.toValue sessions' = loaded ->
       sessions' = sessions.
Proof.
  intros H loaded.
  assert (E : loaded = List.map StudySession.toValue sessions).
  { subst loaded.
    unfold sessionService.loadSessions, sessionService.saveSessions.
    rewrite getItem_setItem, parse_stringify.
    - reflexivity.
    - repeat constructor. cbn [snd]. apply Forall_map.
      eapply Forall_impl; [|exact H]. intros s. apply integral_session. }
  split; [exact E|]. intros sessions' H'. rewrite E in H'.
  now apply (map_injective _ StudySession_toValue_injective).
Qed.

(** ** The theorems at concrete inputs *)

Lemma no_backtick_noFencedJson (text : jsstring) :
  existsb (N.eqb 96) text = false -> noFencedJson text.
Proof.
  intros H before inner after E.
  assert (X : existsb (N.eqb 96) text = true).
  { apply existsb_exists. exists 96%N. split; [|reflexivity].
    rewrite E. apply in_or_app. right. now left. }
  congruence.
Qed.

Lemma plain_stream_witness :
  noFencedJson
    (geminiService.streamedText
       [textChunk (lit "Mitochondria make "); textChunk (lit "ATP.")])
  /\ exists st',
       App.processResponse (lit "s2")
         (completes
            [textChunk (lit "Mitochondria make "); textChunk (lit "ATP.")])
         100 200 (stateOf threeSessions (Some (lit "s2")))
       = Ok st'
       /\ App.studyMode st' = App.Chat.
Proof.
  assert (H : noFencedJson
                (geminiService.streamedText
                   [textChunk (lit "Mitochondria make ");
                    textChunk (lit "ATP.")]))
    by (apply no_backtick_noFencedJson; reflexivity).
  split; [exact H|].
  destruct (plain_stream_is_concatenated (lit "s2") _ 100 200
              (stateOf threeSessions (Some (lit "s2"))) H)
    as (st' & E & M & _).
  exists st'. split; [exact E|exact M].
Defined.

Lemma malformed_json_witness :
  RegExp.String_match
    (geminiService.streamedText (inTwoFragments malformedText)) App.fence
  = Some (lit "```json [1,] ```", Some (lit "[1,]"))
  /\ JSON.parse (lit "[1,]") = Throw SyntaxError
  /\ exists st',
       App.processResponse (lit "s2")
         (completes (inTwoFragments malformedText)) 100 200
         (stateOf threeSessions (Some (lit "s2")))
       = Ok st'
       /\ App.studyMode st' = App.Chat
       /\ App.notifications st' = [].
Proof.
  assert (Hm : RegExp.String_match
                 (geminiService.streamedText (inTwoFragments malformedText))
                 App.fence
               = Some (lit "```json [1,] ```", Some (lit "[1,]")))
    by reflexivity.
  assert (Hp : JSON.parse (lit "[1,]") = Throw SyntaxError) by reflexivity.
  split; [exact Hm|]. split; [exact Hp|].
  destruct (malformed_json_is_kept_as_text (lit "s2") _ 100 200
              (stateOf threeSessions (Some (lit "s2"))) _ _ _ Hm Hp)
    as (st' & E & M & N & _).
  exists st'. repeat split; assumption.
Defined.

Lemma flashcards_block_witness :
  let cs := inTwoFragments (fenced (JSON.stringify flashcardsPayload)) in
  RegExp.String_match (geminiService.streamedText cs) App.fence
  = Some (geminiService.streamedText cs,
          Some (JSON.stringify flashcardsPayload))
  /\ JSON.parse (JSON.stringify flashcardsPayload) = Ok flashcardsPayload
  /\ exists st',
       App.processResponse (lit "s2") (completes cs) 100 200
         (stateOf threeSessions (Some (lit "s2")))
       = Ok st'
       /\ App.studyMode st' = App.Flashcards.
Proof.
  cbv zeta.
  assert (Hm : RegExp.String_match
                 (geminiService.streamedText
                    (inTwoFragments (fenced (JSON.stringify flashcardsPayload))))
                 App.fence
               = Some (geminiService.streamedText
                         (inTwoFragments
                            (fenced (JSON.stringify flashcardsPayload))),
                       Some (JSON.stringify flashcardsPayload)))
    by (vm_compute; reflexivity).
  assert (Hp : JSON.parse (JSON.stringify flashcardsPayload)
               = Ok flashcardsPayload) by (vm_compute; reflexivity).
  split; [exact Hm|]. split; [exact Hp|].
  destruct (flashcards_block_is_extracted (lit "s2") _ 100 200
              (stateOf threeSessions (Some (lit "s2"))) _ _ (lit "T") _ _
              Hm Hp eq_refl eq_refl eq_refl)
    as (st' & E & M & _).
  exists st'. split; assumption.
Defined.

Lemma every_present_aid_witness :
  let cs := inTwoFragments (fenced (JSON.stringify allAidsPayload)) in
  RegExp.String_match (geminiService.streamedText cs) App.fence
  = Some (geminiService.streamedText cs, Some (JSON.stringify allAidsPayload))
  /\ JSON.parse (JSON.stringify allAidsPayload) = Ok allAidsPayload
  /\ exists st',
       App.processResponse (lit "s2") (completes cs) 100 200
         (stateOf threeSessions (Some (lit "s2")))
       = Ok st'
       /\ App.studyMode st' = App.Slides.
Proof.
  cbv zeta.
  assert (Hm : RegExp.String_match
                 (geminiService.streamedText
                    (inTwoFragments (fenced (JSON.stringify allAidsPayload))))
                 App.fence
               = Some (geminiService.streamedText
                         (inTwoFragments
                            (fenced (JSON.stringify allAidsPayload))),
                       Some (JSON.stringify allAidsPayload)))
    by (vm_compute; reflexivity).
  assert (Hp : JSON.parse (JSON.stringify allAidsPayload) = Ok allAidsPayload)
    by (vm_compute; reflexivity).
  split; [exact Hm|]. split; [exact Hp|].
  destruct (every_present_aid_is_stored (lit "s2") _ 100 200
              (stateOf threeSessions (Some (lit "s2"))) _ _ _ Hm Hp)
    as (st' & E & M & _).
  exists st'. split; [exact E|exact M].
Defined.

Lemma storedSession_storable : storable storedSession.
Proof. repeat split; repeat constructor. Qed.

Lemma save_then_load_witness :
  Forall storable [storedSession; emptySession (lit "s2") 30]
  /\ fst (sessionService.loadSessions
            (sessionService.saveSessions []
               [storedSession; emptySession (lit "s2") 30])
            1700000001000)
     = List.map StudySession.toValue
         [storedSession; emptySession (lit "s2") 30].
Proof.
  assert (H : Forall storable [storedSession; emptySession (lit "s2") 30]).
  { repeat constructor. }
  split; [exact H|].
  exact (proj1 (save_then_load_round_trip [] _ 1700000001000 H)).
Defined.

Lemma delete_session_witness :
  App.sessions
    (App.handleDeleteSession (lit "s1")
       (stateOf threeSessions (Some (lit "s1"))))
  = [emptySession (lit "s2") 30; emptySession (lit "s3") 20]
  /\ exists s,
       App.activeSessionId
         (App.handleDeleteSession (lit "s1")
            (stateOf threeSessions (Some (lit "s1"))))
       = Some (StudySession.id s)
       /\ forall s',
            In s' [emptySession (lit "s2") 30; emptySession (lit "s3") 20] ->
            (StudySession.updatedAt s' <= StudySession.updatedAt s)%Z.
Proof.
  destruct (delete_session_activates_latest (lit "s1")
              (stateOf threeSessions (Some (lit "s1"))))
    as (E & _ & A & _).
  split; [exact E|].
  destruct (A eq_refl) as (s & _ & Hs & Hmax).
  exists s. split; [exact Hs|exact Hmax].
Defined.

(** * Further properties of the code *)

(** ** The store: loading, versions and settings *)

Lemma backupKey_storage now :
  JsString.eqb (backupKey now) sessionService.getStorageKey = false.
Proof. reflexivity. Qed.

(** [loadSessions] writes to the store only when loading the sessions
    item throws, and then only the backup. *)
Lemma loadSessions_store store now :
  snd (sessionService.loadSessions store now) = store
  \/ exists text e,
       sessionService.getItem store sessionService.getStorageKey = Some text
       /\ text <> []
       /\ bind (JSON.parse text) sessionService.migrateData = Throw e
       /\ snd (sessionService.loadSessions store now)
          = sessionService.setItem store (backupKey now) text.
Proof.
  unfold sessionService.loadSessions.
  destruct (sessionService.getItem store sessionService.getStorageKey)
    as [text|]; [|now left].
  destruct (bind (JSON.parse text) sessionService.migrateData)
    as [migrated|e] eqn:P.
  - left. now destruct migrated.
  - destruct text as [|c text]; [now left|].
    right. exists (c :: text), e. repeat split; congruence.
Qed.

(** X1. When the sessions item of the store is a text that is not
    empty and does not parse, [loadSessions] returns no session, copies
    the text under the backup key made from the current time, and
    leaves the item itself as it was. *)
Theorem corrupted_sessions_are_backed_up store now text e :
  sessionService.getItem store sessionService.getStorageKey = Some text ->
  text <> [] ->
  JSON.parse text = Throw e ->
  fst (sessionService.loadSessions store now) = []
  /\ sessionService.getItem (snd (sessionService.loadSessions store now))
       (backupKey now) = Some text
  /\ sessionService.getItem (snd (sessionService.loadSessions store now))
       sessionService.getStorageKey = Some text.
Proof.
  intros G T P. unfold sessionService.loadSessions. rewrite G, P.
  cbn [bind].
  destruct text as [|c text]; [contradiction|]. cbn [JsString.truthy fst snd].
  split; [reflexivity|]. split.
  - apply getItem_setItem.
  - unfold sessionService.getItem, sessionService.setItem.
    rewrite get_set. fold (backupKey now). now rewrite backupKey_storage.
Qed.

(** X2. Loading never changes an item of the store, the backup key of
    the current time apart: whatever the store holds, every other key
    reads after [loadSessions] what it read before. *)
Theorem loading_keeps_the_stored_items store now key :
  key <> backupKey now ->
  sessionService.getItem (snd (sessionService.loadSessions store now)) key
  = sessionService.getItem store key.
Proof.
  intros H.
  destruct (loadSessions_store store now)
    as [-> | (text & e & _ & _ & _ & ->)]; [reflexivity|].
  unfold sessionService.getItem, sessionService.setItem. rewrite get_set.
  assert (E : JsString.eqb (backupKey now) key = false)
    by (apply eqb_neq; congruence).
  now rewrite E.
Qed.

(** X3. The version number of a stored envelope does not matter: an
    object with a numeric [version], older, current or newer, and an
    array under [sessions] loads exactly that array, whatever other
    members it has, and the store keeps what was written. *)
Theorem envelope_of_any_version_loads store now ms n vs :
  integral (JSON.JObject ms) ->
  JSON.lookup (lit "version") ms = Some (JSON.JNumber n) ->
  JSON.lookup (lit "sessions") ms = Some (JSON.JArray vs) ->
  let stored :=
    sessionService.setItem store sessionService.getStorageKey
      (JSON.stringify (JSON.JObject ms)) in
  sessionService.loadSessions stored now = (vs, stored).
Proof.
  intros H Hv Hs stored. unfold sessionService.loadSessions. subst stored.
  rewrite getItem_setItem, parse_stringify by exact H.
  cbn [bind sessionService.migrateData JSON.truthy negb]. rewrite Hv, Hs.
  reflexivity.
Qed.

(** X4. The legacy format loads as it is: a stored plain array of
    sessions, with no envelope, is returned element for element. *)
Theorem legacy_array_loads store now vs :
  Forall integral vs ->
  let stored :=
    sessionService.setItem store sessionService.getStorageKey
      (JSON.stringify (JSON.JArray vs)) in
  sessionService.loadSessions stored now = (vs, stored).
Proof.
  intros H stored. unfold sessionService.loadSessions. subst stored.
  rewrite getItem_setItem, parse_stringify by now constructor.
  reflexivity.
Qed.

(** X5. Whatever [loadSessions] returns was stored: a result that is
    not empty is the array that the sessions item parses to, or the
    array under [sessions] of the object it parses to, and that object
    has a [version] that compares with the current one: a number, or a
    value that converts to a number other than 1, as the string [2]
    and the empty array do. *)
Theorem loaded_sessions_were_stored store now s l :
  fst (sessionService.loadSessions store now) = s :: l ->
  exists text data,
    sessionService.getItem store sessionService.getStorageKey = Some text
    /\ JSON.parse text = Ok data
    /\ (data = JSON.JArray (s :: l)
        \/ exists ms v,
             data = JSON.JObject ms
             /\ JSON.lookup (lit "version") ms = Some v
             /\ sessionService.versionCompares v = Ok true
             /\ JSON.lookup (lit "sessions") ms = Some (JSON.JArray (s :: l))).
Proof.
  unfold sessionService.loadSessions.
  destruct (sessionService.getItem store sessionService.getStorageKey)
    as [text|]; [|discriminate].
  destruct (JSON.parse text) as [data|e] eqn:P; cbn [bind].
  - intros H. exists text, data. split; [reflexivity|]. split; [exact P|].
    unfold sessionService.migrateData in H.
    destruct (negb (JSON.truthy (Some data))); [discriminate|].
    destruct data as [| | | |vs|ms]; try discriminate.
    + left. cbn in H. now subst.
    + right.
      destruct (JSON.lookup (lit "version") ms) as [v|] eqn:V; [|discriminate].
      destruct (JSON.lookup (lit "sessions") ms) as [ss|] eqn:S; [|discriminate].
      destruct (sessionService.versionCompares v) as [[|]|e] eqn:C;
        cbn [bind] in H; [|discriminate|now destruct (JsString.truthy text)].
      exists ms, v. repeat split; try assumption.
      destruct ss; try discriminate. cbn in H. now subst.
  - now destruct (JsString.truthy text).
Qed.

Lemma getItemOr_setItem store key value fallback :
  sessionService.getItemOr (sessionService.setItem store key value) key fallback
  = if JsString.truthy value then value else fallback.
Proof. unfold sessionService.getItemOr. now rewrite getItem_setItem. Qed.

(** X6. A saved setting loads back, except that an empty theme loads
    as [indigo] and an empty language as [en]: the loaders take the
    default for an empty item as for a missing one. *)
Theorem saved_settings_load_back store value :
  sessionService.loadStudyProfile (sessionService.saveStudyProfile store value)
  = value
  /\ sessionService.loadTheme (sessionService.saveTheme store value)
     = (if JsString.truthy value then value else lit "indigo")
  /\ sessionService.loadVoiceURI (sessionService.saveVoiceURI store value)
     = value
  /\ sessionService.loadLanguage (sessionService.saveLanguage store value)
     = (if JsString.truthy value then value else lit "en").
Proof.
  unfold sessionService.loadStudyProfile, sessionService.saveStudyProfile,
    sessionService.loadTheme, sessionService.saveTheme,
    sessionService.loadVoiceURI, sessionService.saveVoiceURI,
    sessionService.loadLanguage, sessionService.saveLanguage.
  rewrite !getItemOr_setItem. now destruct value.
Qed.

Lemma getItem_other store key key' value :
  JsString.eqb key key' = false ->
  sessionService.getItem (sessionService.setItem store key value) key'
  = sessionService.getItem store key'.
Proof.
  intros H. unfold sessionService.getItem, sessionService.setItem.
  now rewrite get_set, H.
Qed.

Lemma settings_other store key value :
  JsString.eqb key sessionService.getProfileKey = false ->
  JsString.eqb key sessionService.getThemeKey = false ->
  JsString.eqb key sessionService.getVoiceKey = false ->
  JsString.eqb key sessionService.getLanguageKey = false ->
  settings (sessionService.setItem store key value) = settings store.
Proof.
  intros H1 H2 H3 H4.
  unfold settings, sessionService.loadStudyProfile, sessionService.loadTheme,
    sessionService.loadVoiceURI, sessionService.loadLanguage,
    sessionService.getItemOr.
  now rewrite !getItem_other by assumption.
Qed.

Lemma loadSessions_other store key value now :
  JsString.eqb key sessionService.getStorageKey = false ->
  fst (sessionService.loadSessions (sessionService.setItem store key value) now)
  = fst (sessionService.loadSessions store now).
Proof.
  intros H. unfold sessionService.loadSessions.
  rewrite getItem_other by exact H.
  destruct (sessionService.getItem store sessionService.getStorageKey)
    as [text|]; [|reflexivity].
  destruct (bind (JSON.parse text) sessionService.migrateData) as [migrated|e].
  - now destruct migrated.
  - now destruct (JsString.truthy text).
Qed.

(** X7. Sessions and settings do not interfere: saving the sessions,
    and the backup that a failed load writes, leave the four settings
    as they were; saving a setting leaves the loaded sessions as they
    were. *)
Theorem sessions_and_settings_do_not_interfere store sessions value now :
  settings (sessionService.saveSessions store sessions) = settings store
  /\ settings (snd (sessionService.loadSessions store now)) = settings store
  /\ fst (sessionService.loadSessions
            (sessionService.saveStudyProfile store value) now)
     = fst (sessionService.loadSessions store now)
  /\ fst (sessionService.loadSessions (sessionService.saveTheme store value) now)
     = fst (sessionService.loadSessions store now)
  /\ fst (sessionService.loadSessions
            (sessionService.saveVoiceURI store value) now)
     = fst (sessionService.loadSessions store now)
  /\ fst (sessionService.loadSessions
            (sessionService.saveLanguage store value) now)
     = fst (sessionService.loadSessions store now).
Proof.
  split; [now apply settings_other|]. split.
  - destruct (loadSessions_store store now)
      as [-> | (text & e & _ & _ & _ & ->)]; [reflexivity|].
    now apply settings_other.
  - repeat split; now apply loadSessions_other.
Qed.

Lemma integerToString_injective a b :
  JSON.integerToString a = JSON.integerToString b -> a = b.
Proof.
  intros H.
  pose proof (parseNumber_integer a [] I) as Pa.
  pose proof (parseNumber_integer b [] I) as Pb.
  rewrite H in Pa. congruence.
Qed.

(** X8. The id of a new session is its creation time: two new sessions
    have the same id exactly when they are created in the same
    millisecond. *)
Theorem new_session_ids_follow_the_clock a b :
  StudySession.id (sessionService.createNewSession a)
  = StudySession.id (sessionService.createNewSession b) <-> a = b.
Proof.
  split.
  - intros H. now apply integerToString_injective.
  - intros ->. reflexivity.
Qed.

(** ** The generation service *)

Lemma handleApiError_cases (message : jsstring) :
  let r := geminiService.handleApiError (geminiService.Error message) in
  r = geminiService.Error
        (lit "The provided API key is not valid. Please check your configuration.")
  \/ r = geminiService.Error
           (lit "You've sent too many requests. Please wait a moment and try again.")
  \/ r = geminiService.Error
           (lit "There was a problem with the request. Please check your input and try again.")
  \/ r = geminiService.Error
           (lit "The AI service is currently unavailable. Please try again later.")
  \/ r = geminiService.Error message.
Proof.
  cbv zeta. unfold geminiService.handleApiError.
  destruct (JsString.includes _ (lit "api key not valid")); [now left|].
  destruct (JsString.includes _ (lit "rate limit")
            || JsString.includes _ (lit "429")); [right; now left|].
  destruct (JsString.includes _ (lit "[400]")); [right; right; now left|].
  destruct (JsString.includes _ (lit "[5")); [right; right; right; now left|].
  now repeat right.
Qed.

Lemma handleApiError_Error err :
  exists content, geminiService.handleApiError err = geminiService.Error content.
Proof.
  destruct err as [message|]; [|eexists; reflexivity].
  destruct (handleApiError_cases message) as [C|[C|[C|[C|C]]]];
    rewrite C; eexists; reflexivity.
Qed.

(** X9. [handleApiError] always returns an [Error], and what it returns
    it would return again: none of its own messages falls under one of
    its categories, so an error that passes through it twice reads as
    after the first pass. *)
Theorem handleApiError_settles (error : geminiService.Thrown) :
  (exists message,
     geminiService.handleApiError error = geminiService.Error message)
  /\ geminiService.handleApiError (geminiService.handleApiError error)
     = geminiService.handleApiError error.
Proof.
  destruct error as [message|].
  - destruct (handleApiError_cases message) as [C|[C|[C|[C|C]]]];
      rewrite C; (split; [eexists; reflexivity|]); try reflexivity.
    exact C.
  - split; [eexists; reflexivity|reflexivity].
Qed.

Section Consume.
Context {St : Type}.
Variable onChunk : jsstring -> St -> result St.

(** Whatever the callback does, a traversal that ends has joined the
    texts and collected the sources of its chunks. *)
Lemma consume_result (cs : list geminiService.Chunk) :
  forall fullText allSources st fullText' allSources' st',
    geminiService.consume onChunk cs fullText allSources st
    = Ok (fullText', allSources', st') ->
    fullText' = fullText ++ geminiService.streamedText cs
    /\ allSources' = allSources ++ geminiService.collectedSources cs.
Proof.
  induction cs as [|c cs IH];
    intros fullText allSources st fullText' allSources' st'.
  - cbn. intros [= <- <- <-]. now rewrite !List.app_nil_r.
  - cbn [geminiService.consume geminiService.streamedText
         geminiService.collectedSources List.map List.concat List.flat_map].
    fold (geminiService.streamedText cs).
    fold (geminiService.collectedSources cs).
    destruct (geminiService.truthyString (geminiService.text c)) eqn:E.
    + destruct (onChunk _ st) as [st1|e]; [|discriminate]. cbn [bind].
      intros H. apply IH in H as [-> ->]. now rewrite <- !app_assoc.
    + intros H. apply IH in H as [-> ->].
      assert (T : geminiService.orEmpty (geminiService.text c) = []).
      { destruct (geminiService.text c) as [[|u t]|]; simpl in *; congruence. }
      rewrite T. cbn [app]. now rewrite <- !app_assoc.
Qed.

End Consume.

Lemma toSource_uri gc s :
  geminiService.toSource gc = Some s -> Source.uri s <> [].
Proof.
  unfold geminiService.toSource, geminiService.fromWeb.
  destruct (geminiService.retrievedContext gc) as [rc|].
  - destruct (geminiService.truthyString (geminiService.rc_uri rc)) eqn:E.
    + intros [= <-]. cbn.
      destruct (geminiService.rc_uri rc) as [[|c u]|]; now cbn in *.
    + destruct (geminiService.web gc) as [w|]; [|discriminate].
      destruct (geminiService.truthyString (geminiService.web_uri w)) eqn:E';
        [|discriminate].
      intros [= <-]. cbn.
      destruct (geminiService.web_uri w) as [[|c u]|]; now cbn in *.
  - destruct (geminiService.web gc) as [w|]; [|discriminate].
    destruct (geminiService.truthyString (geminiService.web_uri w)) eqn:E';
      [|discriminate].
    intros [= <-]. cbn.
    destruct (geminiService.web_uri w) as [[|c u]|]; now cbn in *.
Qed.

Lemma filterNull_In {A : Type} (l : list (option A)) (a : A) :
  In a (geminiService.filterNull l) <-> In (Some a) l.
Proof.
  induction l as [|[x|] l IH]; cbn; [tauto| |].
  - rewrite IH. split; intros [H|H]; auto; left; congruence.
  - rewrite IH. split; [auto|]. intros [H|H]; [discriminate|exact H].
Qed.

Lemma collectedSources_In cs s :
  In s (geminiService.collectedSources cs) ->
  exists c gcs gc,
    In c cs /\ geminiService.groundingChunks c = Some gcs /\ In gc gcs
    /\ geminiService.toSource gc = Some s.
Proof.
  unfold geminiService.collectedSources. rewrite in_flat_map.
  intros (c & Hc & Hs). unfold geminiService.chunkSources in Hs.
  destruct (geminiService.groundingChunks c) as [gcs|] eqn:G; [|contradiction].
  apply filterNull_In, in_map_iff in Hs as (gc & E & Hgc).
  now exists c, gcs, gc.
Qed.

Lemma set_In {V : Type} (k : jsstring) (v : V) (m : list (jsstring * V)) e :
  In e (JsMap.set k v m) -> snd e = v \/ In e m.
Proof.
  induction m as [|[k' v'] m IH]; cbn [JsMap.set].
  - intros [<-|[]]. now left.
  - destruct (JsString.eqb k' k).
    + intros [<-|H]; [now left|right; now right].
    + intros [<-|H]; [right; now left|].
      destruct (IH H); [now left|right; now right].
Qed.

Lemma dedupe_In (l : list Source.t) s :
  In s (geminiService.dedupe l) -> In s l.
Proof.
  unfold geminiService.dedupe, JsMap.values.
  induction l as [|x l IH] using rev_ind; [easy|].
  rewrite map_app. cbn [List.map]. rewrite ofEntries_snoc. cbn [fst snd].
  rewrite in_map_iff. intros (e & <- & He). apply in_or_app.
  apply set_In in He as [->|He]; [right; now left|].
  left. apply IH. now apply in_map.
Qed.

(** X10. Whatever the callback does with the fragments, when
    [getChatResponse] resolves, its text is the concatenation of the
    texts of the chunks, and every source it returns has a URI that is
    not empty and was made from a grounding chunk of the stream. *)
Theorem resolved_sources_come_from_the_stream {St : Type}
    (onChunk : jsstring -> St -> result St) stream st fullText sources st' :
  geminiService.getChatResponse onChunk stream st
  = Ok (geminiService.Resolved fullText sources, st') ->
  fullText = geminiService.streamedText (geminiService.chunks stream)
  /\ Forall
       (fun s =>
          Source.uri s <> []
          /\ exists c gcs gc,
               In c (geminiService.chunks stream)
               /\ geminiService.groundingChunks c = Some gcs
               /\ In gc gcs
               /\ geminiService.toSource gc = Some s)
       sources.
Proof.
  unfold geminiService.getChatResponse.
  destruct (geminiService.consume onChunk _ [] [] st)
    as [[[ft srcs] st1]|e] eqn:C; [|discriminate].
  cbn [bind]. apply consume_result in C as [-> ->].
  destruct (geminiService.failure stream); [discriminate|].
  intros [= <- <- <-]. split; [reflexivity|].
  apply Forall_forall. intros s Hs. apply dedupe_In in Hs. cbn [app] in Hs.
  destruct (collectedSources_In _ _ Hs) as (c & gcs & gc & H1 & H2 & H3 & H4).
  split; [now apply toSource_uri in H4|]. now exists c, gcs, gc.
Qed.

Lemma consume_record cs : forall fullText allSources log,
  geminiService.consume record cs fullText allSources log
  = Ok (fullText ++ List.concat (delivered cs),
        allSources ++ geminiService.collectedSources cs,
        log ++ delivered cs).
Proof.
  induction cs as [|c cs IH]; intros fullText allSources log.
  - cbn. now rewrite !List.app_nil_r.
  - cbn [geminiService.consume geminiService.collectedSources List.flat_map].
    fold (geminiService.collectedSources cs).
    unfold delivered. cbn [List.map List.filter]. fold (delivered cs).
    destruct (geminiService.text c) as [[|u t]|];
      cbn [geminiService.truthyString geminiService.orEmpty JsString.truthy
           record bind List.concat];
      rewrite IH; now rewrite <- ?app_assoc.
Qed.

(** X11. [onChunk] is called once for each chunk whose text is not
    empty, in the order of arrival, and never with an empty text; the
    text of the response is the concatenation of what it was called
    with. A stream that fails has delivered its fragments before the
    promise is rejected. *)
Theorem onChunk_gets_each_non_empty_fragment stream :
  let cs := geminiService.chunks stream in
  Forall (fun t => t <> []) (delivered cs)
  /\ List.concat (delivered cs) = geminiService.streamedText cs
  /\ geminiService.getChatResponse record stream []
     = Ok (match geminiService.failure stream with
           | Some error =>
               geminiService.Rejected (geminiService.handleApiError error)
           | None =>
               geminiService.Resolved (List.concat (delivered cs))
                 (geminiService.dedupe (geminiService.collectedSources cs))
           end,
           delivered cs).
Proof.
  intros cs. split; [|split].
  - apply Forall_forall. intros t H. apply filter_In in H as [_ H].
    now destruct t.
  - unfold delivered, geminiService.streamedText.
    induction cs as [|c l IH]; [reflexivity|].
    cbn [List.map List.filter List.concat].
    destruct (geminiService.orEmpty (geminiService.text c)) as [|u t];
      cbn [JsString.truthy List.concat app]; now rewrite IH.
  - unfold geminiService.getChatResponse. fold cs. rewrite consume_record.
    cbn [bind app]. now destruct (geminiService.failure stream).
Qed.

Lemma getAutocompleteSuggestions_length g :
  length (geminiService.getAutocompleteSuggestions g) <= 5.
Proof.
  unfold geminiService.getAutocompleteSuggestions.
  destruct g as [[t|]|]; cbn [length]; try lia.
  destruct (JSON.parse _) as [[| | | |vs|]|]; cbn [length]; try lia.
  rewrite length_firstn. lia.
Qed.

(** X12. The input panel never shows more than five suggestions: the
    effect that fetches them leaves a list of at most five entries with
    at most five entries, whatever the service answers; a prompt of
    five characters or fewer (white space at the ends not counted)
    clears the list, and a request that fails leaves the list as it
    was or clears it. *)
Theorem at_most_five_suggestions_are_shown
    prompt isFocused currentValue g suggestions :
  length suggestions <= 5 ->
  let shown :=
    InputPanel.suggestionsEffect prompt isFocused currentValue g suggestions in
  length shown <= 5
  /\ (length (JsString.trim prompt) <= 5 -> shown = [])
  /\ (forall error,
        g = geminiService.Failed error -> shown = suggestions \/ shown = []).
Proof.
  intros H shown. subst shown. unfold InputPanel.suggestionsEffect.
  split; [|split].
  - destruct (_ && _); [|cbn; lia].
    destruct currentValue as [v|]; [|exact H].
    destruct (JsString.eqb _ _);
      [apply getAutocompleteSuggestions_length|exact H].
  - intros L. apply Nat.ltb_ge in L. now rewrite L.
  - intros error ->. destruct (_ && _); [|now right].
    destruct currentValue as [v|]; [|now left].
    destruct (JsString.eqb _ _); [now right|now left].
Qed.

(** *** The pieces of [split] *)

Lemma splitFrom_skip sep p : forall b cur,
  JsString.splitFrom sep (p ++ b) (length p) cur
  = JsString.splitFrom sep b 0 cur.
Proof.
  induction p as [|c p IH]; intros b cur; [reflexivity|].
  cbn [app length JsString.splitFrom]. apply IH.
Qed.

Lemma stripPrefix_head x sep c s :
  c <> x -> JsString.stripPrefix (x :: sep) (c :: s) = None.
Proof.
  intros H. cbn [JsString.stripPrefix].
  assert (E : (x =? c)%N = false) by (apply N.eqb_neq; congruence).
  now rewrite E.
Qed.

(** A text without the first unit of the separator is one piece. *)
Lemma splitFrom_none x sep a : forall cur,
  ~ In x a ->
  JsString.splitFrom (x :: sep) a 0 cur = [rev cur ++ a].
Proof.
  induction a as [|c a IH]; intros cur H.
  - cbn. now rewrite List.app_nil_r.
  - cbn [JsString.splitFrom].
    rewrite stripPrefix_head by (intros ->; apply H; now left).
    rewrite IH by (intros Hin; apply H; now right).
    cbn [rev]. now rewrite <- app_assoc.
Qed.

(** The first piece ends where the separator first stands. *)
Lemma splitFrom_first x sep a b : forall cur,
  ~ In x a ->
  JsString.splitFrom (x :: sep) (a ++ (x :: sep) ++ b) 0 cur
  = (rev cur ++ a) :: JsString.splitFrom (x :: sep) b 0 [].
Proof.
  induction a as [|c a IH]; intros cur H.
  - cbn [app]. cbn [JsString.splitFrom].
    change (x :: sep ++ b) with ((x :: sep) ++ b). rewrite stripPrefix_app.
    rewrite List.app_nil_r. f_equal.
    replace (length (x :: sep) - 1) with (length sep) by (cbn [length]; lia).
    apply splitFrom_skip.
  - cbn [app JsString.splitFrom].
    rewrite stripPrefix_head by (intros ->; apply H; now left).
    rewrite IH by (intros Hin; apply H; now right).
    cbn [rev]. now rewrite <- app_assoc.
Qed.

(** X13. An image that is a data URL, [data:] then a media type, then
    [;base64,] and the data (no semicolon in the type or in the data,
    no colon in the type), is sent with exactly that type and that
    data; the content of the prompt is the last of the request, from
    the user, the image part before the text. *)
Theorem data_url_gives_type_and_data mime payload prompt history :
  ~ In 59%N mime -> ~ In 58%N mime -> ~ In 59%N payload ->
  let image := lit "data:" ++ mime ++ lit ";base64," ++ payload in
  let sent := {| geminiService.mimeType := Some mime;
                 geminiService.data := Some payload |} in
  geminiService.inlineData image = sent
  /\ lastOf (geminiService.requestContents prompt history (Some image))
     = Some {| geminiService.role := geminiService.RoleUser;
               geminiService.parts :=
                 [geminiService.InlineDataPart sent;
                  geminiService.TextPart prompt] |}.
Proof.
  intros H1 H2 H3 image sent.
  assert (E : geminiService.inlineData image = sent).
  { unfold geminiService.inlineData, image, JsString.split.
    change (lit ";base64,") with (59%N :: lit "base64,").
    rewrite (app_assoc (lit "data:") mime).
    rewrite splitFrom_first.
    2:{ intros Hin. apply in_app_or in Hin as [Hin|Hin]; [|auto].
        cbn in Hin. repeat destruct Hin as [Hin|Hin]; try discriminate; auto. }
    rewrite splitFrom_none by exact H3.
    cbn [rev app List.hd List.nth_error].
    change (lit ":") with [58%N].
    change (lit "data:" ++ mime) with (lit "data" ++ [58%N] ++ mime).
    rewrite splitFrom_first.
    2:{ intros Hin. cbn in Hin.
        repeat destruct Hin as [Hin|Hin]; try discriminate; auto. }
    rewrite splitFrom_none by exact H2. reflexivity. }
  split; [exact E|].
  unfold geminiService.requestContents. rewrite lastOf_snoc.
  unfold geminiService.imagePart.
  assert (T : geminiService.truthyString (Some image) = true) by reflexivity.
  rewrite T. cbn [geminiService.orEmpty]. now rewrite E.
Qed.

(** ** The chat turn, further *)

Lemma replaceWithError_streaming sid content t0 t1 received ss :
  List.map (App.replaceWithError sid content t1) (streaming sid t0 received ss)
  = List.map (failed sid content t1) ss.
Proof.
  unfold streaming. rewrite List.map_map. apply List.map_ext. intros s.
  unfold App.replaceWithError, failed. destruct (App.isId sid s) eqn:E.
  - replace (App.isId sid (StudySession.withMessages s _)) with true
      by (symmetry; exact E).
    cbn [StudySession.withMessages StudySession.messages StudySession.id
         StudySession.title StudySession.createdAt StudySession.updatedAt
         StudySession.flashcards
         StudySession.flashcardsTitle StudySession.quizItems
         StudySession.quizTitle StudySession.slides StudySession.slidesTitle
         StudySession.documentContext StudySession.documentSummary].
    rewrite removelast_last. reflexivity.
  - rewrite E. reflexivity.
Qed.

(** A turn whose stream fails never throws either. *)
Lemma processResponse_fails sid cs err content t0 t1 st :
  geminiService.handleApiError err = geminiService.Error content ->
  App.processResponse sid (geminiService.Build_Stream cs (Some err)) t0 t1 st
  = Ok (App.mkState (List.map (failed sid content t1) (App.sessions st))
          (App.activeSessionId st) (App.studyMode st) false
          (App.notifications st
           ++ [App.Build_Notification t1 (lit "Error") content App.error])).
Proof.
  intros H. unfold App.processResponse, geminiService.getChatResponse.
  rewrite addPlaceholder_streaming, consume_streaming.
  cbn [bind geminiService.failure geminiService.chunks app]. rewrite H.
  now rewrite replaceWithError_streaming.
Qed.

(** X14. When the stream fails, after any number of fragments, the
    turn ends with one assistant message in place of the placeholder:
    its content is the message that [handleApiError] made of the
    failure (never the fallback sentence of [processResponse]), it has
    no sources, and the text received so far is gone. One error
    notification with the same message is added, loading is off, and
    the mode, the active session, the other sessions and the other
    fields of the session, [updatedAt] included, are as before. *)
Theorem failed_stream_leaves_an_error_message sid cs err t0 t1 st :
  exists content st',
    geminiService.handleApiError err = geminiService.Error content
    /\ App.processResponse sid (geminiService.Build_Stream cs (Some err))
         t0 t1 st = Ok st'
    /\ App.isLoading st' = false
    /\ App.studyMode st' = App.studyMode st
    /\ App.activeSessionId st' = App.activeSessionId st
    /\ App.notifications st'
       = App.notifications st
         ++ [App.Build_Notification t1 (lit "Error") content App.error]
    /\ Forall2
         (fun s s' =>
            if App.isId sid s then
              s' = StudySession.withMessages s
                     (StudySession.messages s ++ [errorMessage content t1])
            else s' = s)
         (App.sessions st) (App.sessions st').
Proof.
  destruct (handleApiError_Error err) as (content & H).
  exists content. eexists. split; [exact H|].
  split; [apply (processResponse_fails _ _ _ content); exact H|].
  cbn [App.isLoading App.studyMode App.activeSessionId App.notifications
       App.sessions].
  repeat (split; [reflexivity|]).
  apply Forall2_map_r. intros s. unfold failed. now destruct (App.isId sid s).
Qed.

Lemma map_other_ids (f : StudySession.t -> StudySession.t) sid l :
  (forall s, App.isId sid s = false -> f s = s) ->
  Forall (fun s => StudySession.id s <> sid) l ->
  List.map f l = l.
Proof.
  intros Hf H. induction H as [|s l Hs _ IH]; [reflexivity|].
  cbn [List.map]. rewrite IH. f_equal. apply Hf. now apply eqb_neq.
Qed.

Lemma finished_other sid e sources t0 t1 s :
  App.isId sid s = false -> finished sid e sources t0 t1 s = s.
Proof. intros H. unfold finished. now rewrite H. Qed.

Lemma failed_other sid content t1 s :
  App.isId sid s = false -> failed sid content t1 s = s.
Proof. intros H. unfold failed. now rewrite H. Qed.

(** X15. A response for a session that is not in the list (it was
    deleted before the turn or while it ran) never throws and changes
    no session, whether the stream completes or fails; loading is
    switched off, and the display mode still follows the aids found in
    a completed response, although no session stores them. *)
Theorem response_for_a_missing_session_changes_no_session
    sid stream t0 t1 st :
  Forall (fun s => StudySession.id s <> sid) (App.sessions st) ->
  exists st',
    App.processResponse sid stream t0 t1 st = Ok st'
    /\ App.sessions st' = App.sessions st
    /\ App.isLoading st' = false
    /\ (geminiService.failure stream = None ->
        App.studyMode st'
        = match App.modeSet
                  (App.extractStudyAids
                     (geminiService.streamedText (geminiService.chunks stream)))
          with
          | Some mode => mode
          | None => App.studyMode st
          end).
Proof.
  intros H. destruct stream as [cs [err|]].
  - destruct (handleApiError_Error err) as (content & E).
    eexists. split; [apply (processResponse_fails _ _ _ content); exact E|].
    cbn. split; [|split; [reflexivity|discriminate]].
    apply (map_other_ids _ sid); [apply failed_other|exact H].
  - eexists. split; [apply (processResponse_completes sid cs)|].
    cbn. split; [|split; reflexivity].
    apply (map_other_ids _ sid); [apply finished_other|exact H].
Qed.

(** X16. The first render activates the latest session: with no
    loaded session none is active; otherwise the active one is the
    first of the loaded sessions that none exceeds in [updatedAt]. *)
Theorem first_render_activates_the_latest_session x l :
  App.initialActiveSessionId [] = None
  /\ exists s l1 l2,
       App.initialActiveSessionId (x :: l) = Some (StudySession.id s)
       /\ x :: l = l1 ++ s :: l2
       /\ (forall s', In s' l1 ->
             (StudySession.updatedAt s' < StudySession.updatedAt s)%Z)
       /\ (forall s', In s' l2 ->
             (StudySession.updatedAt s' <= StudySession.updatedAt s)%Z).
Proof.
  split; [reflexivity|]. unfold App.initialActiveSessionId.
  destruct (Array_sort App.byUpdatedAtDescending (x :: l)) as [|s rest] eqn:E.
  - now apply Array_sort_nil in E.
  - destruct (sort_head_latest _ _ _ E) as (l1 & l2 & E' & H1 & H2).
    now exists s, l1, l2.
Qed.

(** ** The handlers of a session, further *)

Lemma find_map_id (f : StudySession.t -> StudySession.t) a l :
  (forall s, StudySession.id (f s) = StudySession.id s) ->
  List.find (App.isId a) (List.map f l)
  = option_map f (List.find (App.isId a) l).
Proof.
  intros Hf. induction l as [|s l IH]; [reflexivity|].
  cbn [List.map List.find]. unfold App.isId at 1 3. rewrite Hf.
  destruct (JsString.eqb (StudySession.id s) a); [reflexivity|exact IH].
Qed.

Lemma handleDeleteMessage_sessions i now st a :
  App.activeSessionId st = Some a ->
  a <> [] ->
  App.handleDeleteMessage i now st
  = App.setSessions st (List.map (truncated a i now) (App.sessions st)).
Proof.
  intros Ha Hne. unfold App.handleDeleteMessage, App.updateActiveSession.
  rewrite Ha. destruct a as [|c a]; [contradiction|]. reflexivity.
Qed.

Lemma truncated_id a i now s :
  StudySession.id (truncated a i now s) = StudySession.id s.
Proof. unfold truncated. now destruct (App.isId a s). Qed.

(** X17. Deleting from a message on leaves the active session with
    exactly the messages before that index, so with at most that many;
    and deleting from [i] and then from [j] is deleting once from the
    smaller of the two indices. *)
Theorem deleting_from_a_message_truncates i j t1 t2 st a s :
  App.activeSessionId st = Some a ->
  a <> [] ->
  App.activeSession st = Some s ->
  (exists s',
     App.activeSession (App.handleDeleteMessage i t1 st) = Some s'
     /\ StudySession.messages s' = firstn i (StudySession.messages s)
     /\ length (StudySession.messages s') <= i)
  /\ App.handleDeleteMessage j t2 (App.handleDeleteMessage i t1 st)
     = App.handleDeleteMessage (Nat.min j i) t2 st.
Proof.
  intros Ha Hne Hs.
  rewrite (handleDeleteMessage_sessions i t1 st a Ha Hne).
  rewrite (handleDeleteMessage_sessions j t2 (App.setSessions st _) a Ha Hne).
  rewrite (handleDeleteMessage_sessions _ t2 st a Ha Hne).
  unfold App.activeSession in *.
  cbn [App.setSessions App.activeSessionId App.sessions App.studyMode
       App.isLoading App.notifications].
  rewrite Ha in *. split.
  - rewrite (find_map_id _ _ _ (truncated_id a i t1)), Hs. cbn [option_map].
    eexists. split; [reflexivity|].
    apply find_some in Hs as [_ Hs]. unfold truncated. rewrite Hs.
    cbn [StudySession.withUpdatedAt StudySession.withMessages
         StudySession.messages].
    split; [reflexivity|]. rewrite length_firstn. lia.
  - unfold App.setSessions.
    cbn [App.activeSessionId App.sessions App.studyMode App.isLoading
         App.notifications].
    f_equal. rewrite List.map_map. apply List.map_ext. intros s0.
    unfold truncated at 1 3.
    unfold App.isId at 1. rewrite truncated_id. fold (App.isId a s0).
    unfold truncated.
    destruct (App.isId a s0); [|reflexivity].
    cbn [StudySession.withUpdatedAt StudySession.withMessages
         StudySession.messages StudySession.id StudySession.title
         StudySession.createdAt StudySession.flashcards
         StudySession.flashcardsTitle StudySession.quizItems
         StudySession.quizTitle StudySession.slides StudySession.slidesTitle
         StudySession.documentContext StudySession.documentSummary].
    now rewrite firstn_firstn.
Qed.

Lemma mapId_ext (f : StudySession.t -> StudySession.t) l :
  (forall s, StudySession.id (f s) = StudySession.id s) ->
  List.map StudySession.id (List.map f l) = List.map StudySession.id l.
Proof. intros H. rewrite List.map_map. now apply List.map_ext. Qed.

Lemma NoDup_map_filter {A B : Type} (f : A -> B) (p : A -> bool) l :
  NoDup (List.map f l) -> NoDup (List.map f (List.filter p l)).
Proof.
  induction l as [|x l IH]; [easy|]. cbn [List.map List.filter].
  intros H. inversion H as [|? ? Hx Hl]; subst.
  destruct (p x); [|auto]. cbn [List.map]. constructor; [|auto].
  intros Hin. apply Hx. apply in_map_iff in Hin as (y & E & Hy).
  apply filter_In in Hy as [Hy _]. rewrite <- E. now apply in_map.
Qed.

Lemma finished_id sid e sources t0 t1 s :
  StudySession.id (finished sid e sources t0 t1 s) = StudySession.id s.
Proof. unfold finished. now destruct (App.isId sid s). Qed.

Lemma failed_id sid content t1 s :
  StudySession.id (failed sid content t1 s) = StudySession.id s.
Proof. unfold failed. now destruct (App.isId sid s). Qed.

(** A turn never throws when it starts from its own placeholder, and it
    keeps the ids of the sessions. *)
Lemma processResponse_ids sid stream t0 t1 st :
  exists st',
    App.processResponse sid stream t0 t1 st = Ok st'
    /\ List.map StudySession.id (App.sessions st')
       = List.map StudySession.id (App.sessions st).
Proof.
  destruct stream as [cs [err|]].
  - destruct (handleApiError_Error err) as (content & E).
    eexists. split; [apply (processResponse_fails _ _ _ content); exact E|].
    cbn [App.sessions]. apply mapId_ext. intros s. apply failed_id.
  - eexists. split; [apply (processResponse_completes sid cs)|].
    cbn [App.sessions]. apply mapId_ext. intros s. apply finished_id.
Qed.

(** X18. Session ids stay pairwise distinct: deleting a session,
    deleting messages, appending a user message and a whole turn keep
    them so, and a new session keeps them so when no session has the
    id of the current time yet. *)
Theorem session_ids_stay_distinct
    st now sid i stream t0 t1 userMessage title :
  NoDup (List.map StudySession.id (App.sessions st)) ->
  NoDup (List.map StudySession.id
           (App.sessions (App.handleDeleteSession sid st)))
  /\ NoDup (List.map StudySession.id
              (App.sessions (App.handleDeleteMessage i now st)))
  /\ NoDup (List.map StudySession.id
              (App.addUserMessage sid userMessage title (App.sessions st)))
  /\ (exists st',
        App.processResponse sid stream t0 t1 st = Ok st'
        /\ NoDup (List.map StudySession.id (App.sessions st')))
  /\ (~ In (JSON.integerToString now)
          (List.map StudySession.id (App.sessions st)) ->
      NoDup (List.map StudySession.id
               (App.sessions (App.handleNewSession now st)))).
Proof.
  intros H. split; [|split; [|split; [|split]]].
  - cbn [App.handleDeleteSession App.sessions]. now apply NoDup_map_filter.
  - unfold App.handleDeleteMessage, App.updateActiveSession.
    destruct (App.activeSessionId st) as [a|]; [|exact H].
    destruct (JsString.truthy a); [|exact H].
    cbn [App.setSessions App.sessions]. rewrite mapId_ext; [exact H|].
    intros s. now destruct (App.isId a s).
  - unfold App.addUserMessage. rewrite mapId_ext; [exact H|].
    intros s. now destruct (App.isId sid s).
  - destruct (processResponse_ids sid stream t0 t1 st) as (st' & E & I).
    exists st'. split; [exact E|]. now rewrite I.
  - intros F. cbn [App.handleNewSession App.sessions List.map].
    now constructor.
Qed.

Lemma addUserMessage_other sid um title l :
  Forall (fun s => StudySession.id s <> sid) l ->
  App.addUserMessage sid um title l = l.
Proof.
  intros H. unfold App.addUserMessage. apply (map_other_ids _ sid); [|exact H].
  intros s E. now rewrite E.
Qed.

Lemma sessionTitle_length t : length (App.sessionTitle t) <= 43.
Proof.
  unfold App.sessionTitle. destruct (40 <? length t) eqn:E.
  - rewrite length_app, length_firstn. change (length (lit "...")) with 3. lia.
  - apply Nat.ltb_ge in E. lia.
Qed.

(** X19. A first message, sent while no session is active, opens a
    session of its own and completes the turn in it: the new session
    stands in front of the others, which are untouched (none has the
    id of the creation time), and is active; its title is the prompt
    (or the image caption), cut to forty units and an ellipsis when
    longer, so never more than 43 units; its transcript is the user
    message followed by the answer; it is stamped with the time at
    which the turn ended. Web search is on for the message, and stays
    on, when it was on or the prompt holds one of the real-time
    keywords; the mode is [chat] unless the answer carries an aid. *)
Theorem first_message_opens_a_titled_session
    prompt image year now0 now1 cs t0 t1 useWebSearch st :
  App.activeSessionId st = None ->
  JsString.trim prompt <> [] ->
  ~ In (JSON.integerToString now0)
       (List.map StudySession.id (App.sessions st)) ->
  let title := App.sessionTitle (App.titleContent prompt image) in
  let final := useWebSearch || App.isFactualQuestion year prompt in
  let e := App.extractStudyAids (geminiService.streamedText cs) in
  let turn :=
    StudySession.mk (JSON.integerToString now0) title now0 t1
      [Message.mk (Some user) prompt image None (Some now1) (Some final);
       assistantMessage (App.finalText e)
         (geminiService.dedupe (geminiService.collectedSources cs)) t0]
      (App.newFlashcards e)
      (if App.isNonEmpty (App.newFlashcards e) then App.studyAidTitle e
       else JSON.JString [])
      (App.newQuizItems e)
      (if App.isNonEmpty (App.newQuizItems e) then App.studyAidTitle e
       else JSON.JString [])
      (App.newSlides e)
      (if App.isNonEmpty (App.newSlides e) then App.studyAidTitle e
       else JSON.JString [])
      [] [] in
  length title <= 43
  /\ App.handleSendMessage prompt image year now0 now1 (completes cs) t0 t1
       useWebSearch st
     = Ok (App.mkState (turn :: App.sessions st)
             (Some (JSON.integerToString now0))
             (match App.modeSet e with Some mode => mode | None => App.Chat end)
             false (App.notifications st),
           final).
Proof.
  intros Ha Hp Hf title final e turn. split; [apply sessionTitle_length|].
  unfold App.handleSendMessage. rewrite Ha.
  destruct (JsString.trim prompt) as [|c p] eqn:T; [contradiction|].
  cbn [JsString.truthy negb andb geminiService.truthyString].
  rewrite processResponse_completes. cbn [bind]. fold e.
  assert (F : App.finalUseWebSearch useWebSearch year prompt = final).
  { unfold App.finalUseWebSearch, final.
    now destruct useWebSearch, (App.isFactualQuestion year prompt). }
  rewrite F.
  assert (G : (if final then true else useWebSearch) = final).
  { unfold final.
    now destruct useWebSearch, (App.isFactualQuestion year prompt). }
  rewrite G. do 2 f_equal.
  cbn [App.sessions App.activeSessionId App.studyMode App.notifications].
  f_equal.
  assert (O : Forall (fun s => StudySession.id s <> JSON.integerToString now0)
                (App.sessions st)).
  { apply Forall_forall. intros s Hs E. apply Hf. rewrite <- E.
    now apply in_map. }
  unfold sessionService.createNewSession, StudySession.withTitle.
  cbn [StudySession.id StudySession.title StudySession.createdAt
       StudySession.updatedAt StudySession.messages StudySession.flashcards
       StudySession.flashcardsTitle StudySession.quizItems
       StudySession.quizTitle StudySession.slides StudySession.slidesTitle
       StudySession.documentContext StudySession.documentSummary].
  fold title.
  set (um := Message.mk (Some user) prompt image None (Some now1) (Some final)).
  change (App.addUserMessage (JSON.integerToString now0) um
            (App.titleContent prompt image) (?x :: App.sessions st))
    with ((if App.isId (JSON.integerToString now0) x then
             StudySession.withTitle
               (StudySession.withMessages x (StudySession.messages x ++ [um]))
               (match StudySession.messages x with
                | [] => App.sessionTitle (App.titleContent prompt image)
                | _ :: _ => StudySession.title x
                end)
           else x)
          :: App.addUserMessage (JSON.integerToString now0) um
               (App.titleContent prompt image) (App.sessions st)).
  rewrite (addUserMessage_other _ _ _ _ O). cbn [List.map].
  rewrite (map_other_ids _ (JSON.integerToString now0));
    [|apply finished_other|exact O].
  f_equal.
  unfold App.isId at 1. cbn [StudySession.id]. rewrite eqb_refl.
  unfold StudySession.withTitle, StudySession.withMessages.
  cbn [StudySession.id StudySession.title StudySession.createdAt
       StudySession.updatedAt StudySession.messages StudySession.flashcards
       StudySession.flashcardsTitle StudySession.quizItems
       StudySession.quizTitle StudySession.slides StudySession.slidesTitle
       StudySession.documentContext StudySession.documentSummary app].
  unfold finished, App.isId. cbn [StudySession.id]. rewrite eqb_refl.
  cbn [StudySession.id StudySession.title StudySession.createdAt
       StudySession.updatedAt StudySession.messages StudySession.flashcards
       StudySession.flashcardsTitle StudySession.quizItems
       StudySession.quizTitle StudySession.slides StudySession.slidesTitle
       StudySession.documentContext StudySession.documentSummary app].
  unfold turn. fold title.
  destruct (App.newFlashcards e), (App.newQuizItems e), (App.newSlides e);
    reflexivity.
Qed.

(** *** The last answer *)

Lemma lastIndexOfAssistant_None ms :
  App.lastIndexOfAssistant ms = None ->
  forall j m, List.nth_error ms j = Some m -> Message.isAssistant m = false.
Proof.
  induction ms as [|x ms IH]; intros H j m Hj; [now destruct j|].
  cbn [App.lastIndexOfAssistant] in H.
  destruct (App.lastIndexOfAssistant ms) as [k|]; [discriminate|].
  destruct (Message.isAssistant x) eqn:A; [discriminate|].
  destruct j as [|j]; cbn in Hj; [congruence|]. now apply (IH eq_refl j).
Qed.

Lemma lastIndexOfAssistant_Some ms i :
  App.lastIndexOfAssistant ms = Some i <->
  (exists m, List.nth_error ms i = Some m /\ Message.isAssistant m = true)
  /\ (forall j m, i < j -> List.nth_error ms j = Some m ->
                  Message.isAssistant m = false).
Proof.
  revert i. induction ms as [|x ms IH]; intros i.
  - cbn. split; [discriminate|]. intros [(m & H & _) _]. now destruct i.
  - cbn [App.lastIndexOfAssistant].
    destruct (App.lastIndexOfAssistant ms) as [k|] eqn:E.
    + pose proof (proj1 (IH k) eq_refl) as [(m & Hm & Am) Hk]. split.
      * intros [= <-]. split; [now exists m|].
        intros [|j] m' Hj; [lia|]. cbn. apply Hk. lia.
      * intros [(m' & Hm' & Am') Hi]. f_equal.
        destruct (Nat.lt_trichotomy i (S k)) as [L|[L|L]]; [|exact (eq_sym L)|].
        -- specialize (Hi (S k) m L Hm). congruence.
        -- destruct i as [|i]; [lia|]. cbn in Hm'.
           specialize (Hk i m' ltac:(lia) Hm'). congruence.
    + pose proof (lastIndexOfAssistant_None ms E) as N.
      destruct (Message.isAssistant x) eqn:A.
      * split.
        -- intros [= <-]. split; [now exists x|].
           intros [|j] m Hj; [lia|]. cbn. apply N.
        -- intros [(m & Hm & Am) _]. destruct i as [|i]; [reflexivity|].
           cbn in Hm. apply N in Hm. congruence.
      * split; [discriminate|]. intros [(m & Hm & Am) _].
        destruct i as [|i]; cbn in Hm.
        -- congruence.
        -- apply N in Hm. congruence.
Qed.

(** X20. [lastAssistantMessageInfo] is the last answer of the active
    session: it gives a content and an index exactly when the message
    at that index of the active session is the assistant's, has that
    content, and no later message is the assistant's; it gives nothing
    when there is no active session or no assistant message. *)
Theorem lastAssistantMessageInfo_is_the_last_answer st content index :
  App.lastAssistantMessageInfo st = Some (content, index) <->
  exists s m,
    App.activeSession st = Some s
    /\ List.nth_error (StudySession.messages s) index = Some m
    /\ Message.isAssistant m = true
    /\ Message.content m = content
    /\ forall j m', index < j ->
         List.nth_error (StudySession.messages s) j = Some m' ->
         Message.isAssistant m' = false.
Proof.
  unfold App.lastAssistantMessageInfo.
  destruct (App.activeSession st) as [s|]; [|split; [discriminate|]].
  2:{ intros (s & m & H & _). discriminate. }
  split.
  - destruct (StudySession.messages s) as [|x ms] eqn:M; [discriminate|].
    destruct (App.lastIndexOfAssistant (x :: ms)) as [k|] eqn:E; [|discriminate].
    apply lastIndexOfAssistant_Some in E as [(m & Hm & Am) Hk].
    rewrite Hm. intros [= <- <-]. exists s, m. rewrite M.
    repeat (split; [first [reflexivity|assumption]|]). exact Hk.
  - intros (s' & m & [= <-] & Hm & Am & <- & Hj).
    assert (E : App.lastIndexOfAssistant (StudySession.messages s) = Some index).
    { apply lastIndexOfAssistant_Some. split; [now exists m|exact Hj]. }
    destruct (StudySession.messages s) as [|x ms] eqn:M; [now destruct index|].
    now rewrite E, Hm.
Qed.

Lemma lastIndexOfAssistant_snoc ms m :
  Message.isAssistant m = true ->
  App.lastIndexOfAssistant (ms ++ [m]) = Some (length ms).
Proof.
  intros A. apply lastIndexOfAssistant_Some. split.
  - exists m. rewrite nth_error_app2, Nat.sub_diag by lia. now split.
  - intros j m' Hj Hn.
    assert (L : j < length (ms ++ [m])) by (apply nth_error_Some; congruence).
    rewrite length_app in L. cbn in L. lia.
Qed.

(** X21. After a completed turn in the active session, the last answer
    is the one just given: its content is the final text of the turn
    and its index is the length of the transcript before the turn. *)
Theorem after_a_turn_the_last_answer_is_the_new_one sid cs t0 t1 st s :
  App.activeSessionId st = Some sid ->
  App.activeSession st = Some s ->
  exists st',
    App.processResponse sid (completes cs) t0 t1 st = Ok st'
    /\ App.lastAssistantMessageInfo st'
       = Some (App.finalText
                 (App.extractStudyAids (geminiService.streamedText cs)),
               length (StudySession.messages s)).
Proof.
  intros Ha Hs. eexists. split; [apply processResponse_completes|].
  unfold App.lastAssistantMessageInfo, App.activeSession in *.
  cbn [App.activeSessionId App.sessions]. rewrite Ha in *.
  rewrite (find_map_id _ _ _ (finished_id sid _ _ t0 t1)), Hs. cbn [option_map].
  apply find_some in Hs as [_ Hs].
  unfold finished. rewrite Hs. cbn [StudySession.messages].
  rewrite lastIndexOfAssistant_snoc by reflexivity.
  rewrite nth_error_app2, Nat.sub_diag by lia. cbn [List.nth_error].
  now destruct (StudySession.messages s).
Qed.

(** ** The extraction, further *)




(** X23. Only an object carries aids: when the fenced block parses to
    a value that is not an object, [null], a boolean, a number, a
    string or an array, nothing is extracted, the text is kept as it
    is and no mode is set. *)
Theorem non_object_payload_is_kept_as_text text m0 m1 v :
  RegExp.String_match text App.fence = Some (m0, Some m1) ->
  JSON.parse m1 = Ok v ->
  (forall ms, v <> JSON.JObject ms) ->
  App.extractStudyAids text = App.noExtraction text.
Proof.
  intros Hm Hp Hv. unfold App.extractStudyAids, App.readStudyAids.
  rewrite Hm, Hp. cbn [bind].
  destruct (JsString.truthy m1); [|reflexivity].
  destruct v as [| | | | |ms]; try reflexivity.
  now destruct (Hv ms).
Qed.

(** ** Voice commands, further *)

Lemma matchKeyword_shape {A D : Type} text lower (a : D) kws calls :
  useVoiceCommands.matchKeyword (Action := A) text lower a kws = Some calls ->
  exists keyword,
    In keyword kws
    /\ JsString.startsWith lower (keyword ++ lit " ") = true
    /\ calls = [useVoiceCommands.CallDynamic a
                  (JsString.substring text (length (keyword ++ lit " ")));
                useVoiceCommands.StopListening].
Proof.
  induction kws as [|k kws IH]; [discriminate|].
  cbn [useVoiceCommands.matchKeyword].
  destruct (JsString.startsWith lower (k ++ lit " ")) eqn:E.
  - intros [= <-]. exists k. repeat split; [now left|exact E].
  - intros H. destruct (IH H) as (k' & Hin & rest).
    exists k'. split; [now right|exact rest].
Qed.

Lemma matchDynamic_shape {A D : Type} text lower
    (dynamicCommands : list (useVoiceCommands.DynamicCommand D)) calls :
  useVoiceCommands.matchDynamic (Action := A) text lower dynamicCommands
  = Some calls ->
  exists command keyword,
    In command dynamicCommands
    /\ In keyword (useVoiceCommands.keywords command)
    /\ JsString.startsWith lower (keyword ++ lit " ") = true
    /\ calls = [useVoiceCommands.CallDynamic (useVoiceCommands.action command)
                  (JsString.substring text (length (keyword ++ lit " ")));
                useVoiceCommands.StopListening].
Proof.
  induction dynamicCommands as [|c cs IH]; [discriminate|].
  cbn [useVoiceCommands.matchDynamic].
  destruct (useVoiceCommands.matchKeyword text lower _ _) as [calls'|] eqn:K.
  - intros [= <-]. apply matchKeyword_shape in K as (k & Hin & rest).
    exists c, k. split; [now left|]. split; [exact Hin|exact rest].
  - intros H. destruct (IH H) as (c' & k & Hin & rest).
    exists c', k. split; [now right|exact rest].
Qed.

(** X25. A transcript calls at most one action, and whenever it calls
    one it stops the listening right after: with any tables, the calls
    of [processTranscript] are none, the stop alone, or one static or
    one dynamic action followed by the stop. *)
Theorem a_transcript_calls_at_most_one_action {A D : Type}
    (staticCommands : useVoiceCommands.CommandMap A)
    (dynamicCommands : list (useVoiceCommands.DynamicCommand D)) text :
  let calls :=
    useVoiceCommands.processTranscript staticCommands dynamicCommands text in
  calls = []
  \/ calls = [useVoiceCommands.StopListening]
  \/ (exists a,
        calls = [useVoiceCommands.CallStatic a; useVoiceCommands.StopListening])
  \/ (exists a capturedText,
        calls = [useVoiceCommands.CallDynamic a capturedText;
                 useVoiceCommands.StopListening]).
Proof.
  cbv zeta. unfold useVoiceCommands.processTranscript.
  destruct (useVoiceCommands.lookupCommand _ _) as [a|];
    [right; right; left; eauto|].
  destruct (useVoiceCommands.matchDynamic _ _ _) as [calls|] eqn:E.
  - apply matchDynamic_shape in E as (c & k & _ & _ & _ & ->).
    right; right; right; eauto.
  - destruct (_ || _); [right; now left|now left].
Qed.

(** X27. When the spoken text is of Latin-1 units and has no white
    space in front, what a dynamic rule receives is the rest of the
    utterance: the text is a spoken keyword of the rule and its space,
    in any case, followed by exactly the text that the action is called
    with. (Lower-casing a text beyond Latin-1 can change its length,
    and the rest is then cut at another place.) *)
Theorem dynamic_rule_gets_the_rest_of_the_utterance {A D : Type}
    (staticCommands : useVoiceCommands.CommandMap A)
    (dynamicCommands : list (useVoiceCommands.DynamicCommand D))
    text a captured :
  isLatin1 text = true ->
  JsString.trimStart (JsString.toLowerCase text) = JsString.toLowerCase text ->
  In (useVoiceCommands.CallDynamic a captured)
    (useVoiceCommands.processTranscript staticCommands dynamicCommands text) ->
  exists command keyword spoken,
    In command dynamicCommands
    /\ useVoiceCommands.action command = a
    /\ In keyword (useVoiceCommands.keywords command)
    /\ text = spoken ++ captured
    /\ JsString.toLowerCase spoken = keyword ++ lit " ".
Proof.
  intros _ Hlead. unfold useVoiceCommands.processTranscript.
  destruct (useVoiceCommands.lookupCommand _ _) as [a'|].
  { intros [H|[H|[]]]; discriminate. }
  destruct (useVoiceCommands.matchDynamic _ _ _) as [calls|] eqn:E.
  2:{ destruct (_ || _); [intros [H|[]]; discriminate|intros []]. }
  apply matchDynamic_shape in E as (c & k & Hc & Hk & S & ->).
  intros [H|[H|[]]]; [|discriminate]. injection H as <- <-.
  exists c, k, (firstn (length (k ++ lit " ")) text).
  split; [exact Hc|]. split; [reflexivity|]. split; [exact Hk|].
  split; [unfold JsString.substring; now rewrite firstn_skipn|].
  unfold JsString.startsWith in S.
  destruct (JsString.stripPrefix _ _) as [r|] eqn:P; [|discriminate].
  apply stripPrefix_Some in P. unfold JsString.trim in P. rewrite Hlead in P.
  destruct (trimEnd_prefix (JsString.toLowerCase text)) as (w & T).
  rewrite P in T.
  unfold JsString.toLowerCase in *. rewrite <- firstn_map, T.
  rewrite <- app_assoc, firstn_app, Nat.sub_diag, firstn_all. cbn [firstn].
  apply List.app_nil_r.
Qed.

(** ** The views *)

Lemma goToNext_mod (n i : Z) :
  (0 <= i < n)%Z -> FlashcardsView.goToNext n i = ((i + 1) mod n)%Z.
Proof.
  intros H. unfold FlashcardsView.goToNext.
  destruct (i =? n - 1)%Z eqn:E.
  - apply Z.eqb_eq in E. subst i. replace (n - 1 + 1)%Z with n by lia.
    now rewrite Z.mod_same by lia.
  - apply Z.eqb_neq in E. rewrite Z.mod_small; lia.
Qed.

Lemma goToNext_iter (n : Z) (k : nat) : forall i,
  (0 <= i < n)%Z ->
  Nat.iter k (FlashcardsView.goToNext n) i = ((i + Z.of_nat k) mod n)%Z.
Proof.
  induction k as [|k IH]; intros i H.
  - cbn. rewrite Z.add_0_r. now rewrite Z.mod_small.
  - rewrite Nat.iter_succ, IH by exact H.
    rewrite goToNext_mod by (apply Z.mod_pos_bound; lia).
    rewrite Zplus_mod_idemp_l. f_equal. lia.
Qed.

(** X28. The flashcards stay in the deck: from an index of the deck,
    next and previous give an index of the deck, each undoes the
    other, and as many steps forward as the deck has cards come back
    to the card they started from. *)
Theorem flashcard_navigation_stays_in_the_deck (n i : Z) :
  (0 <= i < n)%Z ->
  (0 <= FlashcardsView.goToNext n i < n)%Z
  /\ (0 <= FlashcardsView.goToPrevious n i < n)%Z
  /\ FlashcardsView.goToPrevious n (FlashcardsView.goToNext n i) = i
  /\ FlashcardsView.goToNext n (FlashcardsView.goToPrevious n i) = i
  /\ Nat.iter (Z.to_nat n) (FlashcardsView.goToNext n) i = i.
Proof.
  intros H. split; [|split; [|split; [|split]]].
  1-4: unfold FlashcardsView.goToNext, FlashcardsView.goToPrevious;
       destruct (Z.eqb_spec i (n - 1)), (Z.eqb_spec i 0);
       repeat match goal with
              | |- context [(?a =? ?b)%Z] => destruct (Z.eqb_spec a b)
              end; lia.
  - rewrite goToNext_iter by exact H. rewrite Z2Nat.id by lia.
    replace (i + n)%Z with (i + 1 * n)%Z by lia.
    rewrite Z_mod_plus_full. now apply Z.mod_small.
Qed.

(** X29. In the slides, previous does not go back: from every slide
    but the first it moves one slide forward, as next does, and from
    the last slide of a deck it leaves the deck, to the index that is
    the length of the deck. Only from the first slide does it go to
    the last. *)
Theorem previous_slide_moves_forward (n i : Z) :
  (0 < i < n)%Z ->
  SlidesView.handleNavigation SlidesView.prev n i = (i + 1)%Z
  /\ (i < n - 1 ->
      SlidesView.handleNavigation SlidesView.prev n i
      = SlidesView.handleNavigation SlidesView.next n i)%Z
  /\ (i = n - 1 ->
      ~ (SlidesView.handleNavigation SlidesView.prev n i < n))%Z
  /\ SlidesView.handleNavigation SlidesView.prev n 0 = (n - 1)%Z.
Proof.
  intros H. unfold SlidesView.handleNavigation.
  assert (E : (i =? 0)%Z = false) by (apply Z.eqb_neq; lia). rewrite E.
  split; [reflexivity|]. split; [|split; [lia|reflexivity]].
  intros L. assert (E' : (i =? n - 1)%Z = false) by (apply Z.eqb_neq; lia).
  now rewrite E'.
Qed.

Lemma insertSorted_perm {A : Type} (compare : A -> A -> Z) x (l : list A) :
  Permutation (insertSorted compare x l) (x :: l).
Proof.
  induction l as [|y l IH]; cbn [insertSorted]; [reflexivity|].
  destruct (compare x y <=? 0)%Z; [reflexivity|].
  rewrite IH. apply perm_swap.
Qed.

Lemma Array_sort_perm {A : Type} (compare : A -> A -> Z) (l : list A) :
  Permutation (Array_sort compare l) l.
Proof.
  induction l as [|x l IH]; [reflexivity|]. cbn [Array_sort fold_right].
  fold (Array_sort compare l). rewrite insertSorted_perm. now constructor.
Qed.

Lemma insertSorted_sorted x l :
  StronglySorted latestFirst l ->
  StronglySorted latestFirst (insertSorted App.byUpdatedAtDescending x l).
Proof.
  induction 1 as [|y l Hl IH Hy]; cbn [insertSorted].
  - repeat constructor.
  - unfold App.byUpdatedAtDescending at 1.
    destruct (_ <=? 0)%Z eqn:C.
    + apply Z.leb_le in C. constructor; [now constructor|].
      constructor; [unfold latestFirst; lia|].
      eapply Forall_impl; [|exact Hy]. unfold latestFirst. intros; lia.
    + apply Z.leb_gt in C. constructor; [exact IH|].
      apply (Permutation_Forall (x := x :: l)).
      * symmetry. apply insertSorted_perm.
      * constructor; [unfold latestFirst; lia|exact Hy].
Qed.

Lemma Array_sort_sorted l :
  StronglySorted latestFirst (Array_sort App.byUpdatedAtDescending l).
Proof.
  induction l as [|x l IH]; [constructor|]. cbn [Array_sort fold_right].
  now apply insertSorted_sorted.
Qed.

Lemma includes_nil s : JsString.includes s [] = true.
Proof. now destruct s. Qed.

(** X30. Whatever the lower-casing of strings is, the session panel
    lists the sessions whose lower-cased title holds the lower-cased
    query, each as often as it is in the list, the most recently
    updated first; with a query that lower-cases to the empty string,
    as the empty query does, it lists them all. *)
Theorem session_panel_lists_matches_latest_first
    (toLowerCase : jsstring -> jsstring) sessions searchQuery :
  let shown := SessionPanel.sortedSessions toLowerCase sessions searchQuery in
  StronglySorted latestFirst shown
  /\ Permutation shown
       (SessionPanel.filteredSessions toLowerCase sessions searchQuery)
  /\ (forall s, In s shown <->
        In s sessions
        /\ JsString.includes (toLowerCase (StudySession.title s))
             (toLowerCase searchQuery) = true)
  /\ (toLowerCase searchQuery = [] -> Permutation shown sessions).
Proof.
  intros shown. subst shown. unfold SessionPanel.sortedSessions.
  split; [apply Array_sort_sorted|]. split; [apply Array_sort_perm|]. split.
  - intros s. split.
    + intros H. apply (Permutation_in _ (Array_sort_perm _ _)) in H.
      apply filter_In in H. exact H.
    + intros H.
      apply (Permutation_in _ (Permutation_sym (Array_sort_perm _ _))).
      apply filter_In. exact H.
  - intros E. rewrite Array_sort_perm. unfold SessionPanel.filteredSessions.
    rewrite E.
    induction sessions as [|s l IH]; [reflexivity|]. cbn [List.filter].
    rewrite includes_nil. now constructor.
Qed.

(** ** The further theorems at concrete inputs *)

(** A unit that a text, computed to its units, does not hold. *)
Ltac absent :=
  let H := fresh in
  intros H; vm_compute in H;
  repeat (destruct H as [H|H]; [discriminate H|]); exact H.

Lemma corrupted_sessions_witness :
  sessionService.getItem corruptedStore sessionService.getStorageKey
  = Some corruptedText
  /\ corruptedText <> []
  /\ JSON.parse corruptedText = Throw SyntaxError
  /\ fst (sessionService.loadSessions corruptedStore 1700000000000) = []
  /\ sessionService.getItem
       (snd (sessionService.loadSessions corruptedStore 1700000000000))
       (backupKey 1700000000000) = Some corruptedText.
Proof.
  assert (G : sessionService.getItem corruptedStore sessionService.getStorageKey
              = Some corruptedText) by reflexivity.
  assert (T : corruptedText <> []) by discriminate.
  assert (P : JSON.parse corruptedText = Throw SyntaxError) by reflexivity.
  destruct (corrupted_sessions_are_backed_up _ 1700000000000 _ _ G T P)
    as (A & B & _).
  repeat split; assumption.
Defined.

Lemma loading_keeps_witness :
  sessionService.getThemeKey <> backupKey 1700000000000
  /\ sessionService.getItem
       (snd (sessionService.loadSessions
               (sessionService.saveTheme corruptedStore (lit "rose"))
               1700000000000))
       sessionService.getThemeKey
     = Some (lit "rose").
Proof.
  assert (H : sessionService.getThemeKey <> backupKey 1700000000000)
    by (apply eqb_neq; reflexivity).
  split; [exact H|].
  rewrite (loading_keeps_the_stored_items _ _ _ H). reflexivity.
Defined.

Lemma envelope_of_any_version_witness :
  integral (JSON.JObject futureEnvelope)
  /\ JSON.lookup (lit "version") futureEnvelope
     = Some (JSON.JNumber (JSON.Int 7))
  /\ fst (sessionService.loadSessions
            (sessionService.setItem [] sessionService.getStorageKey
               (JSON.stringify (JSON.JObject futureEnvelope)))
            1700000000000)
     = [storedValue].
Proof.
  assert (H : integral (JSON.JObject futureEnvelope)) by (repeat constructor).
  split; [exact H|]. split; [reflexivity|].
  pose proof (envelope_of_any_version_loads [] 1700000000000 futureEnvelope
                (JSON.Int 7) [storedValue] H eq_refl eq_refl) as E.
  cbv zeta in E. now rewrite E.
Defined.

Lemma legacy_array_witness :
  Forall integral [storedValue]
  /\ fst (sessionService.loadSessions
            (sessionService.setItem corruptedStore sessionService.getStorageKey
               (JSON.stringify (JSON.JArray [storedValue])))
            1700000000000)
     = [storedValue].
Proof.
  assert (H : Forall integral [storedValue]) by (repeat constructor).
  split; [exact H|].
  pose proof (legacy_array_loads corruptedStore 1700000000000 _ H) as E.
  cbv zeta in E. now rewrite E.
Defined.

Lemma loaded_sessions_witness :
  let store :=
    sessionService.setItem [] sessionService.getStorageKey
      (JSON.stringify (JSON.JObject textVersionEnvelope)) in
  fst (sessionService.loadSessions store 1700000000000) = [storedValue]
  /\ exists text data,
       sessionService.getItem store sessionService.getStorageKey = Some text
       /\ JSON.parse text = Ok data
       /\ (data = JSON.JArray [storedValue]
           \/ exists ms v,
                data = JSON.JObject ms
                /\ JSON.lookup (lit "version") ms = Some v
                /\ sessionService.versionCompares v = Ok true
                /\ JSON.lookup (lit "sessions") ms
                   = Some (JSON.JArray [storedValue])).
Proof.
  intros store.
  assert (H : fst (sessionService.loadSessions store 1700000000000)
              = [storedValue]) by reflexivity.
  split; [exact H|].
  exact (loaded_sessions_were_stored _ _ _ _ H).
Defined.

Lemma resolved_sources_witness :
  geminiService.getChatResponse record citingStream []
  = Ok (geminiService.Resolved (lit "Cells divide.") [citedFirst],
        [lit "Cells "; lit "divide."])
  /\ Forall (fun s => Source.uri s <> []) [citedFirst].
Proof.
  assert (H : geminiService.getChatResponse record citingStream []
              = Ok (geminiService.Resolved (lit "Cells divide.") [citedFirst],
                    [lit "Cells "; lit "divide."])) by reflexivity.
  split; [exact H|].
  destruct (resolved_sources_come_from_the_stream _ _ _ _ _ _ H) as [_ F].
  eapply Forall_impl; [|exact F]. now intros s [U _].
Defined.

Lemma at_most_five_suggestions_witness :
  length (@nil JSON.value) <= 5
  /\ length
       (InputPanel.suggestionsEffect (lit "photosynthesis") true
          (Some (lit "photosynthesis "))
          (geminiService.Responded (Some sevenSuggestions)) [])
     <= 5.
Proof.
  assert (H : length (@nil JSON.value) <= 5) by (cbn; lia).
  split; [exact H|].
  pose proof (at_most_five_suggestions_are_shown (lit "photosynthesis") true
                (Some (lit "photosynthesis "))
                (geminiService.Responded (Some sevenSuggestions)) [] H) as E.
  cbv zeta in E. exact (proj1 E).
Defined.

Lemma data_url_witness :
  ~ In 59%N pngType /\ ~ In 58%N pngType /\ ~ In 59%N pngData
  /\ geminiService.inlineData
       (lit "data:" ++ pngType ++ lit ";base64," ++ pngData)
     = {| geminiService.mimeType := Some pngType;
          geminiService.data := Some pngData |}.
Proof.
  assert (H1 : ~ In 59%N pngType) by absent.
  assert (H2 : ~ In 58%N pngType) by absent.
  assert (H3 : ~ In 59%N pngData) by absent.
  repeat (split; [assumption|]).
  pose proof (data_url_gives_type_and_data pngType pngData [] [] H1 H2 H3) as E.
  cbv zeta in E. exact (proj1 E).
Defined.

Lemma missing_session_witness :
  Forall (fun s => StudySession.id s <> lit "gone") threeSessions
  /\ exists st',
       App.processResponse (lit "gone") citingStream 100 200
         (stateOf threeSessions (Some (lit "s1"))) = Ok st'
       /\ App.sessions st' = threeSessions.
Proof.
  assert (H : Forall (fun s => StudySession.id s <> lit "gone") threeSessions)
    by (repeat (constructor; [apply eqb_neq; reflexivity|]); constructor).
  split; [exact H|].
  destruct (response_for_a_missing_session_changes_no_session (lit "gone")
              citingStream 100 200 (stateOf threeSessions (Some (lit "s1"))) H)
    as (st' & E & S & _).
  exists st'. split; [exact E|exact S].
Defined.

Lemma deleting_from_a_message_witness :
  let st := stateOf [storedSession] (Some (lit "1700000000000")) in
  App.activeSessionId st = Some (lit "1700000000000")
  /\ lit "1700000000000" <> []
  /\ App.activeSession st = Some storedSession
  /\ App.handleDeleteMessage 2 300 (App.handleDeleteMessage 1 200 st)
     = App.handleDeleteMessage 1 300 st.
Proof.
  intros st.
  assert (A : App.activeSessionId st = Some (lit "1700000000000"))
    by reflexivity.
  assert (N : lit "1700000000000" <> []) by discriminate.
  assert (S : App.activeSession st = Some storedSession) by reflexivity.
  repeat (split; [assumption|]).
  exact (proj2 (deleting_from_a_message_truncates 1 2 200 300 st _ _ A N S)).
Defined.

Lemma session_ids_witness :
  let st := stateOf threeSessions (Some (lit "s1")) in
  NoDup (List.map StudySession.id (App.sessions st))
  /\ NoDup (List.map StudySession.id
              (App.sessions (App.handleDeleteSession (lit "s2") st))).
Proof.
  intros st.
  assert (H : NoDup (List.map StudySession.id (App.sessions st))).
  { repeat (constructor; [absent|]). constructor. }
  split; [exact H|].
  exact (proj1 (session_ids_stay_distinct st 0 (lit "s2") 0 citingStream 0 0
                  (errorMessage [] 0) [] H)).
Defined.

Lemma first_message_witness :
  let st := stateOf [] None in
  App.activeSessionId st = None
  /\ JsString.trim (lit "What is a cell?") <> []
  /\ ~ In (JSON.integerToString 1700000000000)
          (List.map StudySession.id (App.sessions st))
  /\ exists st',
       App.handleSendMessage (lit "What is a cell?") None 2026 1700000000000
         1700000000001 (completes [textChunk (lit "The unit of life.")])
         1700000000002 1700000000003 false st
       = Ok (st', true)
       /\ App.activeSessionId st' = Some (lit "1700000000000").
Proof.
  intros st.
  assert (A : App.activeSessionId st = None) by reflexivity.
  assert (P : JsString.trim (lit "What is a cell?") <> []) by discriminate.
  assert (F : ~ In (JSON.integerToString 1700000000000)
                   (List.map StudySession.id (App.sessions st)))
    by (intros []).
  repeat (split; [assumption|]).
  pose proof (first_message_opens_a_titled_session (lit "What is a cell?") None
                2026 1700000000000 1700000000001
                [textChunk (lit "The unit of life.")]
                1700000000002 1700000000003 false st A P F) as E.
  cbv zeta in E. destruct E as [_ E]. rewrite E.
  eexists. split; reflexivity.
Defined.

Lemma after_a_turn_witness :
  let st := stateOf [storedSession] (Some (lit "1700000000000")) in
  App.activeSessionId st = Some (lit "1700000000000")
  /\ App.activeSession st = Some storedSession
  /\ exists st',
       App.processResponse (lit "1700000000000")
         (completes [textChunk (lit "A cell divides.")]) 100 200 st = Ok st'
       /\ App.lastAssistantMessageInfo st' = Some (lit "A cell divides.", 2).
Proof.
  intros st.
  assert (A : App.activeSessionId st = Some (lit "1700000000000"))
    by reflexivity.
  assert (S : App.activeSession st = Some storedSession) by reflexivity.
  repeat (split; [assumption|]).
  destruct (after_a_turn_the_last_answer_is_the_new_one (lit "1700000000000")
              [textChunk (lit "A cell divides.")] 100 200 st storedSession A S)
    as (st' & E & L).
  exists st'. split; [exact E|exact L].
Defined.


Lemma non_object_payload_witness :
  let text := lit "```json [1,2] ```" in
  RegExp.String_match text App.fence = Some (text, Some (lit "[1,2]"))
  /\ JSON.parse (lit "[1,2]")
     = Ok (JSON.JArray [JSON.JNumber (JSON.Int 1); JSON.JNumber (JSON.Int 2)])
  /\ App.extractStudyAids text = App.noExtraction text.
Proof.
  intros text.
  assert (M : RegExp.String_match text App.fence
              = Some (text, Some (lit "[1,2]"))) by (vm_compute; reflexivity).
  assert (P : JSON.parse (lit "[1,2]")
              = Ok (JSON.JArray
                      [JSON.JNumber (JSON.Int 1); JSON.JNumber (JSON.Int 2)]))
    by reflexivity.
  split; [exact M|]. split; [exact P|].
  apply (non_object_payload_is_kept_as_text _ _ _ _ M P). discriminate.
Defined.

Lemma fenced_block_witness :
  let body := JSON.stringify flashcardsPayload in
  ~ In 96%N body
  /\ RegExp.String_match (fenced body) App.fence
     = Some (fenced body, Some body).
Proof.
  intros body.
  assert (Q : ~ In 96%N body) by absent.
  split; [exact Q|].
  apply (fenced_block_matches [10%N] body [10%N] 123%N (List.tl body) 125%N).
  - repeat constructor.
  - repeat constructor.
  - reflexivity.
  - reflexivity.
  - reflexivity.
  - reflexivity.
  - exact Q.
Defined.

Lemma stop_phrase_witness :
  JsString.trim (JsString.toLowerCase (lit " Cancel ")) = lit "cancel"
  /\ In useVoiceCommands.StopListening
       (useVoiceCommands.processTranscript voiceCommands dynamicVoiceCommands
          (lit " Cancel ")).
Proof.
  assert (H : JsString.trim (JsString.toLowerCase (lit " Cancel "))
              = lit "cancel") by reflexivity.
  split; [exact H|].
  apply stop_phrase_stops. right. exact H.
Defined.

Lemma dynamic_rule_witness :
  let text := lit "Ask what is DNA" in
  isLatin1 text = true
  /\ JsString.trimStart (JsString.toLowerCase text) = JsString.toLowerCase text
  /\ In (useVoiceCommands.CallDynamic HandleSendMessage (lit "what is DNA"))
       (useVoiceCommands.processTranscript voiceCommands dynamicVoiceCommands
          text)
  /\ exists spoken,
       text = spoken ++ lit "what is DNA"
       /\ exists keyword, JsString.toLowerCase spoken = keyword ++ lit " ".
Proof.
  intros text.
  assert (U : isLatin1 text = true) by reflexivity.
  assert (L : JsString.trimStart (JsString.toLowerCase text)
              = JsString.toLowerCase text) by reflexivity.
  assert (C : In (useVoiceCommands.CallDynamic HandleSendMessage
                    (lit "what is DNA"))
                (useVoiceCommands.processTranscript voiceCommands
                   dynamicVoiceCommands text)) by (left; reflexivity).
  split; [exact U|]. split; [exact L|]. split; [exact C|].
  destruct (dynamic_rule_gets_the_rest_of_the_utterance _ _ _ _ _ U L C)
    as (command & keyword & spoken & _ & _ & _ & E & K).
  exists spoken. split; [exact E|]. now exists keyword.
Defined.

Lemma flashcard_navigation_witness :
  (0 <= 4 < 5)%Z
  /\ FlashcardsView.goToNext 5 4 = 0%Z
  /\ FlashcardsView.goToPrevious 5 (FlashcardsView.goToNext 5 4) = 4%Z.
Proof.
  assert (H : (0 <= 4 < 5)%Z) by lia.
  split; [exact H|]. split; [reflexivity|].
  exact (proj1 (proj2 (proj2 (flashcard_navigation_stays_in_the_deck 5 4 H)))).
Defined.

Lemma previous_slide_witness :
  (0 < 2 < 3)%Z
  /\ SlidesView.handleNavigation SlidesView.prev 3 2 = 3%Z.
Proof.
  assert (H : (0 < 2 < 3)%Z) by lia.
  split; [exact H|].
  exact (proj1 (previous_slide_moves_forward 3 2 H)).
Defined.

Lemma session_panel_witness :
  SessionPanel.sortedSessions JsString.toLowerCase titledSessions (lit "BIO")
  = [StudySession.withTitle (emptySession (lit "s3") 20) (lit "MICROBIOLOGY");
     StudySession.withTitle (emptySession (lit "s1") 10) (lit "Cell Biology")]
  /\ StronglySorted latestFirst
       (SessionPanel.sortedSessions JsString.toLowerCase titledSessions
          (lit "BIO")).
Proof.
  split; [reflexivity|].
  pose proof (session_panel_lists_matches_latest_first JsString.toLowerCase
                titledSessions (lit "BIO")) as E.
  cbv zeta in E. exact (proj1 E).
Defined.
